(** * Browser control agent: the action plan execution engine

    A shallow embedding of [backend/app/browser.py]: the plan dispatcher
    [run_action_plan], the selector resolver [_find_selector_with_retry],
    the step handlers and the validation / filtering / truncation part of
    [_handle_extract_products], together with the rating loops of the two
    in-page extraction scripts.

    Conventions of the embedding.
    - A Python [dict] with string keys is a [gmap string pyval].
    - A Python [str] is a Rocq [string] holding its UTF-8 bytes; [py_len]
      and [py_take] count code points; [strip], [lower] and [int()] act on
      the ASCII range (ASCII white space, letters and digits).
    - Awaited driver operations are calls to an oracle [drive] over an
      abstract page state; every call, sleep and emitted event is appended
      to a log, in program order.
    - An exception is a value [Raise e]; [try_except] is the handler.
      Only exceptions derived from [Exception] are modelled.
    - [send_event] appends to the log and does not raise; [print] is left
      out. *)

From Stdlib Require Import Ascii QArith.
From stdpp Require Import gmap strings list pretty.

Local Open Scope string_scope.
Local Open Scope list_scope.

(** ** Python values and string primitives *)

Module Py.

Inductive pyfloat :=
| Finite (q : Q)
| PosInf
| NegInf
| NaN.

Inductive pyval :=
| PNone
| PBool (b : bool)
| PInt (n : Z)
| PFloat (f : pyfloat)
| PStr (s : string).

(** Exceptions: the class name and [str(e)]. *)
Record exn := Exn { exn_class : string; exn_msg : string }.

Inductive result (A : Type) :=
| Ok (a : A)
| Raise (e : exn).
Arguments Ok {A} a.
Arguments Raise {A} e.

Definition is_ok {A} (r : result A) : bool :=
  match r with Ok _ => true | Raise _ => false end.

Definition rbind {A B} (r : result A) (k : A -> result B) : result B :=
  match r with Ok a => k a | Raise e => Raise e end.

(** Errors raised by the interpreter itself; their text is abbreviated to
    the operation that failed. *)
Definition ValueError (what : string) : exn := Exn "ValueError" what.
Definition TypeError (what : string) : exn := Exn "TypeError" what.
Definition AttributeError (what : string) : exn := Exn "AttributeError" what.

(** Truth value of an object ([if x], [not x], [x or y]). *)
Definition truthy (v : pyval) : bool :=
  match v with
  | PNone => false
  | PBool b => b
  | PInt n => negb (n =? 0)%Z
  | PFloat (Finite q) => negb (Qeq_bool q 0)
  | PFloat _ => true
  | PStr s => negb (bool_decide (s = ""))
  end.

Definition py_or (x y : pyval) : pyval := if truthy x then x else y.

(** [d.get(k)] and [d.get(k, dflt)]. *)
Definition get (d : gmap string pyval) (k : string) : pyval :=
  default PNone (d !! k).
Definition get_or (d : gmap string pyval) (k : string) (dflt : pyval) : pyval :=
  default dflt (d !! k).

(** *** Strings *)

Definition is_space (c : ascii) : bool :=
  let n := N_of_ascii c in
  ((9 <=? n) && (n <=? 13) || (28 <=? n) && (n <=? 32))%N.

(** Continuation byte of a UTF-8 sequence (10xxxxxx). *)
Definition is_cont (c : ascii) : bool :=
  let n := N_of_ascii c in ((128 <=? n) && (n <? 192))%N.

Fixpoint py_len (s : string) : nat :=
  match s with
  | EmptyString => 0
  | String c s' => (if is_cont c then 0 else 1) + py_len s'
  end.

(** [s[:n]] for [0 <= n]. *)
Fixpoint py_take (n : nat) (s : string) : string :=
  match s with
  | EmptyString => ""
  | String c s' =>
      if is_cont c then String c (py_take n s')
      else match n with
           | O => ""
           | S k => String c (py_take k s')
           end
  end.

Fixpoint lstrip (s : string) : string :=
  match s with
  | EmptyString => ""
  | String c s' => if is_space c then lstrip s' else s
  end.

Fixpoint rstrip (s : string) : string :=
  match s with
  | EmptyString => ""
  | String c s' =>
      match rstrip s' with
      | EmptyString => if is_space c then "" else String c ""
      | r => String c r
      end
  end.

Definition strip (s : string) : string := rstrip (lstrip s).

(** [s.split(sep)] for a one-character separator. *)
Fixpoint split_on (sep : ascii) (s : string) : list string :=
  match s with
  | EmptyString => [""]
  | String c s' =>
      if bool_decide (c = sep) then "" :: split_on sep s'
      else match split_on sep s' with
           | [] => [String c ""]
           | w :: ws => String c w :: ws
           end
  end.

(** [sep.join(parts)]. *)
Fixpoint join (sep : string) (parts : list string) : string :=
  match parts with
  | [] => ""
  | [p] => p
  | p :: ps => p +:+ sep +:+ join sep ps
  end.

(** [s.replace(old, new)] for a non-empty [old]: leftmost, non-overlapping
    occurrences.  [skip] counts the bytes of a match still to be dropped. *)
Fixpoint replace_go (old new : string) (skip : nat) (s : string) : string :=
  match s with
  | EmptyString => ""
  | String c s' =>
      match skip with
      | S k => replace_go old new k s'
      | O =>
          if String.prefix old s
          then new +:+ replace_go old new (String.length old - 1) s'
          else String c (replace_go old new 0 s')
      end
  end.
Definition replace (old new s : string) : string := replace_go old new 0 s.

(** [pat in s]. *)
Fixpoint contains (pat s : string) : bool :=
  String.prefix pat s ||
  match s with
  | EmptyString => false
  | String _ s' => contains pat s'
  end.

Definition lower_char (c : ascii) : ascii :=
  let n := N_of_ascii c in
  if ((65 <=? n) && (n <=? 90))%N then ascii_of_N (n + 32) else c.

Fixpoint lower (s : string) : string :=
  match s with
  | EmptyString => ""
  | String c s' => String (lower_char c) (lower s')
  end.

(** *** Integers *)

Definition digit_of (c : ascii) : option Z :=
  let n := Z.of_N (N_of_ascii c) in
  if ((48 <=? n) && (n <=? 57))%Z then Some (n - 48)%Z else None.

(** Decimal digits, single underscores allowed between digits. *)
Fixpoint int_digits (acc : Z) (after_digit : bool) (s : string) : option Z :=
  match s with
  | EmptyString => if after_digit then Some acc else None
  | String c s' =>
      match digit_of c with
      | Some d => int_digits (10 * acc + d)%Z true s'
      | None =>
          if after_digit && bool_decide (c = "_"%char)
          then int_digits acc false s'
          else None
      end
  end.

(** [int(s)] for a string [s]; [None] is ValueError. *)
Definition int_of_str (s : string) : option Z :=
  match strip s with
  | EmptyString => None
  | String c r =>
      if bool_decide (c = "+"%char) then int_digits 0 false r
      else if bool_decide (c = "-"%char) then Z.opp <$> int_digits 0 false r
      else int_digits 0 false (String c r)
  end.

(** [str(n)] for an integer. *)
Definition str_of_int (n : Z) : string := pretty n.

(** *** Floats *)

Definition float_le (x y : pyfloat) : bool :=
  match x, y with
  | NaN, _ | _, NaN => false
  | NegInf, _ => true
  | _, PosInf => true
  | Finite a, Finite b => Qle_bool a b
  | _, _ => false
  end.
Definition float_ge (x y : pyfloat) : bool := float_le y x.

(** [int(f)]: truncation towards zero. *)
Definition int_of_float (f : pyfloat) : result Z :=
  match f with
  | Finite q => Ok (Z.quot (Qnum q) (Zpos (Qden q)))
  | NaN => Raise (ValueError "cannot convert float NaN to integer")
  | _ => Raise (Exn "OverflowError" "cannot convert float infinity to integer")
  end.

(** *** Sequences *)

(** [l[:n]] (the stop index of a slice): a negative stop counts from the
    end, [None] means no stop, a bool is an int. *)
Definition slice_to {A} (stop : pyval) (l : list A) : result (list A) :=
  match stop with
  | PNone => Ok l
  | PBool b => Ok (take (if b then 1 else 0) l)
  | PInt n =>
      if (0 <=? n)%Z then Ok (take (Z.to_nat n) l)
      else Ok (take (length l - Z.to_nat (- n)) l)
  | _ => Raise (TypeError "slice indices must be integers or None")
  end.

(** A list comprehension [[x for x in l if keep x]] whose condition may
    raise; the first exception aborts the comprehension. *)
Fixpoint filter_raising {A} (keep : A -> result bool) (l : list A) : result (list A) :=
  match l with
  | [] => Ok []
  | x :: l' =>
      rbind (keep x) (fun b =>
      rbind (filter_raising keep l') (fun r =>
      Ok (if b then x :: r else r)))
  end.

(** *** [int] reads back what [str] prints *)

Lemma digit_of_pretty_char (d : N) :
  (d < 10)%N -> digit_of (pretty_N_char d) = Some (Z.of_N d).
Proof.
  intros Hd.
  assert (d = 0 \/ d = 1 \/ d = 2 \/ d = 3 \/ d = 4 \/ d = 5 \/ d = 6 \/
          d = 7 \/ d = 8 \/ d = 9)%N as Hcases by lia.
  repeat (destruct Hcases as [->|Hcases]; [reflexivity|]). by subst d.
Qed.

Lemma digit_not_space c d : digit_of c = Some d -> is_space c = false.
Proof.
  unfold digit_of, is_space. cbv zeta.
  destruct (_ && _)%Z eqn:E; [|discriminate]. intros _.
  apply andb_prop in E. destruct E as [E1 E2].
  apply Z.leb_le in E1, E2.
  apply orb_false_intro; apply andb_false_iff; rewrite !N.leb_gt; lia.
Qed.

Fixpoint all_digits (s : string) : bool :=
  match s with
  | EmptyString => true
  | String c s' => match digit_of c with Some _ => all_digits s' | None => false end
  end.

Lemma pretty_go_digits x : forall s, all_digits s = true -> all_digits (pretty_N_go x s) = true.
Proof.
  induction (N.lt_wf_0 x) as [x _ IH]. intros s Hs.
  destruct (decide (x = 0)%N) as [->|Hx]; [exact Hs|].
  rewrite pretty_N_go_step by lia.
  apply IH; [apply N.div_lt; lia|].
  cbn. rewrite digit_of_pretty_char by (apply N.mod_lt; lia). exact Hs.
Qed.

Lemma rstrip_digits s : all_digits s = true -> rstrip s = s.
Proof.
  induction s as [|c s IH]; [reflexivity|]. cbn.
  destruct (digit_of c) as [d|] eqn:Hc; [|discriminate]. intros Hs.
  rewrite (IH Hs). destruct s; [|reflexivity].
  by rewrite (digit_not_space _ _ Hc).
Qed.

Lemma strip_digits s : all_digits s = true -> strip s = s.
Proof.
  intros Hs. unfold strip.
  assert (lstrip s = s) as ->; [|by apply rstrip_digits].
  destruct s as [|c s]; [reflexivity|]. cbn in *.
  destruct (digit_of c) as [d|] eqn:Hc; [|discriminate].
  by rewrite (digit_not_space _ _ Hc).
Qed.

Lemma int_digits_pretty_go x :
  forall s acc b,
  exists acc',
    int_digits acc b (pretty_N_go x s) = int_digits acc' (b || negb (x =? 0)%N) s /\
    (acc = 0%Z -> acc' = Z.of_N x).
Proof.
  induction (N.lt_wf_0 x) as [x _ IH]. intros s acc b.
  destruct (decide (x = 0)%N) as [->|Hx].
  { exists acc. rewrite pretty_N_go_0, orb_false_r. auto. }
  rewrite pretty_N_go_step by lia.
  destruct (IH (x `div` 10)%N ltac:(apply N.div_lt; lia)
               (String (pretty_N_char (x `mod` 10)) s) acc b) as (acc'' & -> & Hacc).
  exists (10 * acc'' + Z.of_N (x `mod` 10))%Z.
  cbn [int_digits]. rewrite digit_of_pretty_char by (apply N.mod_lt; lia).
  assert ((x =? 0)%N = false) as -> by (apply N.eqb_neq; lia).
  rewrite orb_true_r. split; [reflexivity|].
  intros ->. rewrite (Hacc eq_refl). rewrite (N.div_mod x 10) at 3 by lia. lia.
Qed.

Lemma int_of_str_str_of_int (n : Z) :
  (0 <= n)%Z -> int_of_str (str_of_int n) = Some n.
Proof.
  intros Hn. unfold str_of_int, pretty, pretty_Z.
  destruct n as [|x|x]; [reflexivity| |lia].
  unfold pretty, pretty_positive, pretty, pretty_N.
  destruct (decide (N.pos x = 0%N)) as [|_]; [discriminate|].
  pose proof (pretty_go_digits (N.pos x) "" eq_refl) as Hdigits.
  unfold int_of_str. rewrite (strip_digits _ Hdigits).
  destruct (int_digits_pretty_go (N.pos x) "" 0%Z false) as (acc' & Hrun & Hacc).
  destruct (pretty_N_go (N.pos x) "") as [|c r] eqn:E.
  { cbn in Hrun. discriminate. }
  cbn [all_digits] in Hdigits.
  destruct (digit_of c) as [d|] eqn:Hc; [|discriminate].
  assert (bool_decide (c = "+"%char) = false) as ->.
  { apply bool_decide_eq_false_2. intros ->. discriminate. }
  assert (bool_decide (c = "-"%char) = false) as ->.
  { apply bool_decide_eq_false_2. intros ->. discriminate. }
  rewrite Hrun. cbn. by rewrite (Hacc eq_refl).
Qed.

(** *** Splitting, joining and stripping *)

(** [c in s] for one character. *)
Fixpoint mentions (c : ascii) (s : string) : bool :=
  match s with
  | EmptyString => false
  | String a s' => bool_decide (a = c) || mentions c s'
  end.

Lemma append_cons x a b : String x a +:+ b = String x (a +:+ b).
Proof. reflexivity. Qed.

Lemma mentions_app c a b : mentions c (a +:+ b) = mentions c a || mentions c b.
Proof.
  induction a as [|x a IH]; [reflexivity|].
  rewrite append_cons. cbn [mentions]. by rewrite IH, orb_assoc.
Qed.

Lemma split_on_whole sep s : mentions sep s = false -> split_on sep s = [s].
Proof.
  induction s as [|a s IH]; [reflexivity|]. cbn.
  destruct (bool_decide (a = sep)); [discriminate|]. cbn. intros H. by rewrite IH.
Qed.

Lemma split_on_first sep s : mentions sep (hd "" (split_on sep s)) = false.
Proof.
  induction s as [|a s IH]; [reflexivity|]. cbn.
  destruct (bool_decide (a = sep)) eqn:E; [reflexivity|].
  destruct (split_on sep s) as [|w ws]; cbn in *; by rewrite E.
Qed.

Lemma split_on_app sep a b :
  mentions sep a = false -> split_on sep (a +:+ String sep b) = a :: split_on sep b.
Proof.
  induction a as [|x a IH].
  { intros _. change ("" +:+ String sep b) with (String sep b).
    cbn [split_on]. by rewrite bool_decide_eq_true_2. }
  rewrite append_cons. cbn [mentions split_on].
  destruct (bool_decide (x = sep)); [discriminate|]. cbn [orb]. intros H. by rewrite IH.
Qed.

Lemma split_on_join sep part parts :
  Forall (fun s => mentions sep s = false) (part :: parts) ->
  split_on sep (join (String sep "") (part :: parts)) = part :: parts.
Proof.
  revert part. induction parts as [|q parts IH]; intros part Hparts.
  { apply split_on_whole. by apply Forall_inv in Hparts. }
  apply Forall_cons in Hparts as [Hpart Hparts].
  change (join (String sep "") (part :: q :: parts))
    with (part +:+ String sep (join (String sep "") (q :: parts))).
  by rewrite split_on_app, IH.
Qed.

Lemma mentions_lstrip c s : mentions c s = false -> mentions c (lstrip s) = false.
Proof.
  induction s as [|a s IH]; [done|]. cbn [lstrip].
  destruct (is_space a); [|done]. cbn. intros H. apply IH.
  by apply orb_false_elim in H as [_ H].
Qed.

Lemma mentions_rstrip c s : mentions c s = false -> mentions c (rstrip s) = false.
Proof.
  induction s as [|a s IH]; [done|]. cbn. intros H.
  apply orb_false_elim in H as [Ha Hs]. specialize (IH Hs).
  destruct (rstrip s) as [|b r].
  - destruct (is_space a); [done|]. cbn. by rewrite Ha.
  - cbn in *. by rewrite Ha.
Qed.

Lemma mentions_strip c s : mentions c s = false -> mentions c (strip s) = false.
Proof. intros H. by apply mentions_rstrip, mentions_lstrip. Qed.

Lemma lstrip_head s :
  lstrip s = "" \/ exists c t, lstrip s = String c t /\ is_space c = false.
Proof.
  induction s as [|a s IH]; [by left|]. cbn.
  destruct (is_space a) eqn:E; [exact IH|]. right. eauto.
Qed.

Lemma rstrip_head c t : is_space c = false -> exists r, rstrip (String c t) = String c r.
Proof.
  intros Hc. cbn. destruct (rstrip t); [rewrite Hc|]; eauto.
Qed.

Lemma rstrip_idem s : rstrip (rstrip s) = rstrip s.
Proof.
  induction s as [|a s IH]; [reflexivity|]. cbn.
  destruct (rstrip s) as [|b r] eqn:E.
  - destruct (is_space a) eqn:Ha; [reflexivity|]. cbn. by rewrite Ha.
  - cbn [rstrip] in *. by rewrite IH.
Qed.

Lemma strip_idem s : strip (strip s) = strip s.
Proof.
  unfold strip.
  destruct (lstrip_head s) as [->|(c & t & -> & Hc)]; [reflexivity|].
  destruct (rstrip_head c t Hc) as (r & Hr). rewrite Hr.
  cbn [lstrip]. rewrite Hc, <- Hr. apply rstrip_idem.
Qed.

Lemma rstrip_app a b : b <> "" -> rstrip b = b -> rstrip (a +:+ b) = a +:+ b.
Proof.
  intros Hb Hrb. induction a as [|x a IH]; [exact Hrb|].
  rewrite append_cons. cbn [rstrip]. rewrite IH.
  destruct (a +:+ b) eqn:E; [|reflexivity].
  destruct a; [destruct (Hb E) | discriminate].
Qed.

Lemma append_nonempty a b : b <> "" -> a +:+ b <> "".
Proof. intros Hb. destruct a; [exact Hb | discriminate]. Qed.

Lemma strip_between c a n b :
  is_space c = false -> b <> "" -> rstrip b = b ->
  strip (String c a +:+ n +:+ b) = String c a +:+ n +:+ b.
Proof.
  intros Hc Hb Hrb. unfold strip. rewrite append_cons. cbn [lstrip]. rewrite Hc.
  rewrite <- append_cons.
  apply rstrip_app; [by apply append_nonempty | by apply rstrip_app].
Qed.

Lemma strip_after c n : is_space c = false -> strip (String c n) = String c (rstrip n).
Proof.
  intros Hc. unfold strip. cbn [lstrip]. rewrite Hc. cbn [rstrip].
  destruct (rstrip n); [by rewrite Hc | reflexivity].
Qed.

Lemma str_of_int_digits (n : Z) : (0 <= n)%Z -> all_digits (str_of_int n) = true.
Proof.
  intros Hn. unfold str_of_int, pretty, pretty_Z.
  destruct n as [|x|x]; [reflexivity| |lia].
  unfold pretty, pretty_positive, pretty, pretty_N.
  destruct (decide (N.pos x = 0%N)) as [|_]; [discriminate|].
  by apply pretty_go_digits.
Qed.

Lemma str_of_int_nonempty (n : Z) : (0 <= n)%Z -> str_of_int n <> "".
Proof.
  intros Hn Hempty. pose proof (int_of_str_str_of_int n Hn) as H.
  rewrite Hempty in H. discriminate.
Qed.

(** Replacing a text that starts with a non-digit leaves digits alone. *)
Lemma replace_digits (c : ascii) (old new s : string) :
  digit_of c = None -> all_digits s = true -> replace (String c old) new s = s.
Proof.
  intros Hc. unfold replace. induction s as [|a s IH]; [reflexivity|].
  cbn [all_digits replace_go String.prefix].
  destruct (digit_of a) as [d|] eqn:Ha; [|discriminate]. intros Hs.
  destruct (ascii_dec c a) as [->|_]; [congruence|]. by rewrite IH.
Qed.

End Py.

(** ** The rating loops of the in-page extraction scripts *)

Module Script.
Import Py.

(** What the scripts read from the DOM. [querySelector] is the lookup
    inside one result container. *)
Record element := Element { textContent : string; innerText : string }.

Definition container := string -> option element.

(** The double quote inside the scripts' selector literals. *)
Definition dq : string := String (ascii_of_N 34) "".

(** JavaScript [a || b] on strings. *)
Definition or_else (a b : string) : string :=
  if bool_decide (a = "") then b else a.

Definition rating_char (c : ascii) : bool :=
  let n := N_of_ascii c in ((48 <=? n) && (n <=? 57) || (n =? 46))%N.

Fixpoint rating_run (s : string) : string :=
  match s with
  | EmptyString => ""
  | String c s' => if rating_char c then String c (rating_run s') else ""
  end.

(** [text.match(/([\d.]+)/)]: group 1 of the leftmost match. *)
Fixpoint match_number (text : string) : option string :=
  match text with
  | EmptyString => None
  | String c s' =>
      if rating_char c then Some (String c (rating_run s')) else match_number s'
  end.

(** The [for (const sel of ratingSelectors)] loop: the first selector whose
    element yields an accepted text decides [item.rating]. *)
Fixpoint first_rating (c : container) (accept : element -> option string)
    (selectors : list string) : option string :=
  match selectors with
  | [] => None
  | sel :: rest =>
      match c sel with
      | Some ratingEl =>
          match accept ratingEl with
          | Some r => Some r
          | None => first_rating c accept rest
          end
      | None => first_rating c accept rest
      end
  end.

Section Rating.

(** JavaScript's [parseFloat]; a number is a binary float. *)
Variable parseFloat : string -> pyfloat.

Definition zomato_rating_selectors : list string :=
  ["[class*=" +:+ dq +:+ "rating" +:+ dq +:+ "]";
   "[class*=" +:+ dq +:+ "sc-1q7bklc" +:+ dq +:+ "]";
   ".rating"].

Definition zomato_accept (ratingEl : element) : option string :=
  let ratingText := or_else (textContent ratingEl) "" in
  match match_number ratingText with
  | Some m =>
      if float_ge (parseFloat m) (Finite 1) && float_le (parseFloat m) (Finite 5)
      then Some m else None
  | None => None
  end.

(** [item.rating] after the loop of the listing script; [None] is an
    unset property. *)
Definition zomato_rating (c : container) : option string :=
  first_rating c zomato_accept zomato_rating_selectors.

(** [item.rating = item.rating || ''] of a pushed item. *)
Definition zomato_item_rating (c : container) : string :=
  or_else (default "" (zomato_rating c)) "".

Definition flipkart_rating_selectors : list string :=
  ["._3LWZlK";
   "div[class*=" +:+ dq +:+ "_3LWZlK" +:+ dq +:+ "]";
   "._2_R_DZ span";
   "[class*=" +:+ dq +:+ "rating" +:+ dq +:+ "]"].

Definition flipkart_accept (ratingEl : element) : option string :=
  let ratingText := or_else (or_else (textContent ratingEl) (innerText ratingEl)) "" in
  match_number ratingText.

(** [item.rating] after the loop of the product script. *)
Definition flipkart_rating (c : container) : option string :=
  first_rating c flipkart_accept flipkart_rating_selectors.

(** [if (!item.rating) item.rating = 'N/A'] of a pushed item. *)
Definition flipkart_item_rating (c : container) : string :=
  match flipkart_rating c with
  | Some r => if bool_decide (r = "") then "N/A" else r
  | None => "N/A"
  end.

(** The listing script accepts a rating only inside [1, 5]. *)
Lemma zomato_rating_in_range (c : container) (r : string) :
  zomato_rating c = Some r ->
  float_ge (parseFloat r) (Finite 1) = true /\ float_le (parseFloat r) (Finite 5) = true.
Proof.
  unfold zomato_rating.
  induction zomato_rating_selectors as [|sel rest IH]; cbn [first_rating]; [discriminate|].
  destruct (c sel) as [ratingEl|]; [|exact IH].
  destruct (zomato_accept ratingEl) as [m|] eqn:E; [|exact IH].
  intros [= ->]. unfold zomato_accept in E.
  destruct (match_number _) as [m|]; [|discriminate].
  destruct (float_ge (parseFloat m) (Finite 1) && float_le (parseFloat m) (Finite 5))
    eqn:Hrange; [|discriminate].
  injection E as ->. by apply andb_prop in Hrange.
Qed.

(** A pushed item of the listing script has an empty rating or one inside
    [1, 5]. *)
Lemma zomato_item_rating_default (c : container) :
  zomato_item_rating c = "" \/
  (float_ge (parseFloat (zomato_item_rating c)) (Finite 1) = true /\
   float_le (parseFloat (zomato_item_rating c)) (Finite 5) = true).
Proof.
  unfold zomato_item_rating.
  destruct (zomato_rating c) as [r|] eqn:E; [|by left].
  cbn [default]. unfold or_else. case_bool_decide; [by left|].
  right. by apply zomato_rating_in_range with c.
Qed.

(** A text made of digits and dots only. *)
Fixpoint all_rating (s : string) : bool :=
  match s with
  | EmptyString => true
  | String c s' => rating_char c && all_rating s'
  end.

Lemma rating_run_chars s : all_rating (rating_run s) = true.
Proof.
  induction s as [|c s IH]; [reflexivity|]. cbn [rating_run].
  destruct (rating_char c) eqn:Hc; [|reflexivity]. cbn [all_rating]. by rewrite Hc.
Qed.

Lemma match_number_chars text m :
  match_number text = Some m -> m <> "" /\ all_rating m = true.
Proof.
  induction text as [|c text IH]; [discriminate|]. cbn [match_number].
  destruct (rating_char c) eqn:Hc; [|exact IH].
  intros [= <-]. split; [discriminate|]. cbn [all_rating].
  by rewrite Hc, rating_run_chars.
Qed.

Lemma first_rating_source (c : container) accept selectors r :
  first_rating c accept selectors = Some r ->
  exists sel ratingEl, sel ∈ selectors /\ c sel = Some ratingEl /\ accept ratingEl = Some r.
Proof.
  induction selectors as [|sel rest IH]; [discriminate|]. cbn [first_rating].
  assert (Hrest : first_rating c accept rest = Some r ->
                  exists sel' ratingEl,
                    sel' ∈ sel :: rest /\ c sel' = Some ratingEl /\
                    accept ratingEl = Some r).
  { intros H. destruct (IH H) as (sel' & ratingEl & Hin & Hc & Ha).
    exists sel', ratingEl. split; [by right | by split]. }
  destruct (c sel) as [ratingEl|] eqn:Hc; [|exact Hrest].
  destruct (accept ratingEl) as [r'|] eqn:Ha; [|exact Hrest].
  intros [= <-]. exists sel, ratingEl. split; [by left | by split].
Qed.

(** X27. An item pushed by the product script always has a rating text:
    "N/A" when none of the four rating elements yields a number, and
    otherwise the first run of digits and dots in the text of one of them,
    taken as it is. *)
Theorem product_rating_is_never_empty (c : container) :
  flipkart_item_rating c = "N/A" \/
  (flipkart_item_rating c <> "" /\
   all_rating (flipkart_item_rating c) = true /\
   exists sel ratingEl,
     sel ∈ flipkart_rating_selectors /\ c sel = Some ratingEl /\
     match_number (or_else (or_else (textContent ratingEl) (innerText ratingEl)) "")
     = Some (flipkart_item_rating c)).
Proof.
  unfold flipkart_item_rating.
  destruct (flipkart_rating c) as [r|] eqn:E; [|by left].
  apply first_rating_source in E. destruct E as (sel & ratingEl & Hin & Hc & Ha).
  unfold flipkart_accept in Ha. cbv zeta in Ha.
  destruct (match_number_chars _ _ Ha) as [Hne Hchars].
  case_bool_decide; [by left|]. right.
  split; [exact Hne|]. split; [exact Hchars|]. by exists sel, ratingEl.
Qed.

End Rating.
End Script.

(** ** Events, driver calls and the execution monad *)

Module Engine.
Import Py.

(** Plan steps and extracted records are dicts with string keys. *)
Abbreviation dict := (gmap string pyval).

(** Optional fields of an event of type "action". *)
Inductive action_extra :=
| NoExtra
| Target (url : pyval)
| Extracted (count : nat) (preview : list dict).

(** The dicts passed to [send_event], by their "type" field; a [failed]
    error is one that carries "status": "failed". *)
Inductive event :=
| Status (message status : string)
| ActionStart (action : pyval) (step total_steps : Z)
| Action (action message : string) (extra : action_extra)
| ActionComplete (action : pyval)
| Warning (message : string)
| Error (message : pyval) (failed : bool).

Inductive script :=
| ZomatoScript
| FlipkartScript.

(** Awaited operations on the browser session. *)
Inductive call :=
| Start
| Launch (headless : bool)
| NewContext
| NewPage
| Close
| Goto (url wait_until : pyval) (timeout : Z)
| Title
| WaitForSelector (selector : string) (timeout : pyval)
| Fill (selector : string) (value : pyval) (timeout : option Z)
| Click (selector : string) (timeout : option Z)
| TypeText (selector : string) (value : pyval) (delay : Z)
| Press (key : string)
| WaitForLoadState (state : pyval) (timeout : Z)
| Evaluate (s : script).

Inductive entry :=
| Emit (e : event)
| Did (c : call) (ok : bool)
| Slept (seconds : Q).

Definition events_of (l : list entry) : list event :=
  omap (fun x => match x with Emit e => Some e | _ => None end) l.

Definition calls_of (l : list entry) : list (call * bool) :=
  omap (fun x => match x with Did c ok => Some (c, ok) | _ => None end) l.

Definition sleeps_of (l : list entry) : list Q :=
  omap (fun x => match x with Slept d => Some d | _ => None end) l.

(** Retry configuration *)
Definition MAX_RETRIES : nat := 3.
Definition RETRY_DELAY : Q := 1.

Section Driver.

(** The browser session as seen by the engine: an abstract state, the
    element handles it yields, and what each awaited call does to it. *)
Context {Page Handle : Type}.

Definition reply_of (c : call) : Type :=
  match c with
  | WaitForSelector _ _ => Handle
  | Title => string
  | Evaluate _ => list dict
  | _ => unit
  end.

Variable drive : forall c : call, Page -> Page * result (reply_of c).
Variable elapse : Q -> Page -> Page.

(** The module [random]; its generator state is part of [Page]. *)
Variable random_choices : nat -> Page -> Page * string.
Variable randint : Z -> Z -> Page -> Page * Z.

(** Binary floating point is not modelled: conversion to and from text is
    left to the interpreter. [None] is ValueError / OverflowError. *)
Variable float_of_str : string -> option pyfloat.
Variable float_of_int : Z -> option pyfloat.
Variable float_repr : pyfloat -> string.

(** BROWSER_HEADLESS *)
Variable headless : bool.

Record outcome (A : Type) := Outcome {
  res : result A;
  page_after : Page;
  log : list entry
}.
Arguments Outcome {A} _ _ _.
Arguments res {A} _.
Arguments page_after {A} _.
Arguments log {A} _.

Definition M (A : Type) : Type := Page -> outcome A.

Definition ret {A} (a : A) : M A := fun p => Outcome (Ok a) p [].
Definition raise {A} (e : exn) : M A := fun p => Outcome (Raise e) p [].
Definition lift {A} (r : result A) : M A := fun p => Outcome r p [].

Definition bind {A B} (m : M A) (k : A -> M B) : M B := fun p =>
  match m p with
  | Outcome (Ok a) q l =>
      match k a q with
      | Outcome r q' l' => Outcome r q' (l ++ l')
      end
  | Outcome (Raise e) q l => Outcome (Raise e) q l
  end.

Notation "x <- m ;; k" := (bind m (fun x => k))
  (at level 100, m at next level, k at level 200, right associativity).
Notation "m ;; k" := (bind m (fun _ => k))
  (at level 100, k at level 200, right associativity).

(** [try: m  except <matching>: h]. *)
Definition try_except_if {A} (catches : exn -> bool) (m : M A) (h : exn -> M A) : M A :=
  fun p =>
    match m p with
    | Outcome (Ok a) q l => Outcome (Ok a) q l
    | Outcome (Raise e) q l =>
        if catches e then
          match h e q with
          | Outcome r q' l' => Outcome r q' (l ++ l')
          end
        else Outcome (Raise e) q l
    end.

Definition try_except {A} (m : M A) (h : exn -> M A) : M A :=
  try_except_if (fun _ => true) m h.

(** [try: m  finally: f]. *)
Definition try_finally {A} (m : M A) (f : M unit) : M A := fun p =>
  match m p with
  | Outcome r q l =>
      match f q with
      | Outcome (Ok _) q' l' => Outcome r q' (l ++ l')
      | Outcome (Raise e) q' l' => Outcome (Raise e) q' (l ++ l')
      end
  end.

Definition perform (c : call) : M (reply_of c) := fun p =>
  let '(p', r) := drive c p in Outcome r p' [Did c (is_ok r)].

Definition sleep (seconds : Q) : M unit := fun p =>
  Outcome (Ok tt) (elapse seconds p) [Slept seconds].

(** The sink accepts every event: a [send_event] that raises (a client
    that went away) is outside this model. *)
Definition send_event (e : event) : M unit := fun p =>
  Outcome (Ok tt) p [Emit e].

Definition draw {A} (gen : Page -> Page * A) : M A := fun p =>
  let '(p', a) := gen p in Outcome (Ok a) p' [].

(** A [for] loop whose body may leave the loop with a value ([break] or
    [return]); [None] from the body goes on to the next element, [None]
    from the loop means that the elements were exhausted. *)
Fixpoint for_each {A R} (xs : list A) (body : A -> M (option R)) : M (option R) :=
  match xs with
  | [] => ret None
  | x :: xs' =>
      r <- body x ;;
      match r with
      | Some v => ret (Some v)
      | None => for_each xs' body
      end
  end.

(** *** Conversions that depend on the float oracle *)

Definition py_str (v : pyval) : string :=
  match v with
  | PNone => "None"
  | PBool true => "True"
  | PBool false => "False"
  | PInt n => str_of_int n
  | PFloat f => float_repr f
  | PStr s => s
  end.

(** [int(v)] *)
Definition py_int (v : pyval) : result Z :=
  match v with
  | PInt n => Ok n
  | PBool b => Ok (if b then 1 else 0)%Z
  | PFloat f => int_of_float f
  | PStr s =>
      match int_of_str s with
      | Some n => Ok n
      | None => Raise (ValueError "invalid literal for int() with base 10")
      end
  | PNone => Raise (TypeError "int() argument must be a string or a real number")
  end.

(** [float(v)] *)
Definition py_float (v : pyval) : result pyfloat :=
  match v with
  | PFloat f => Ok f
  | PInt n =>
      match float_of_int n with
      | Some f => Ok f
      | None => Raise (Exn "OverflowError" "int too large to convert to float")
      end
  | PBool b => Ok (Finite (if b then 1 else 0))
  | PStr s =>
      match float_of_str s with
      | Some f => Ok f
      | None => Raise (ValueError "could not convert string to float")
      end
  | PNone => Raise (TypeError "float() argument must be a string or a real number")
  end.

(** A method of [str] called on [v]: AttributeError unless [v] is a str. *)
Definition as_str (v : pyval) : result string :=
  match v with
  | PStr s => Ok s
  | _ => Raise (AttributeError "object has no such str method")
  end.

(** [v[:n]] on a value expected to be a str. *)
Definition str_prefix (n : nat) (v : pyval) : result string :=
  match v with
  | PStr s => Ok (py_take n s)
  | _ => Raise (TypeError "object is not subscriptable")
  end.

(** *** The selector resolver *)

Definition candidates (selectors : string) : list string :=
  map strip (split_on "," selectors).

Definition attempt_selector (selector : string) (timeout : pyval) (attempt : nat)
  : M (option Handle) :=
  try_except
    (h <- perform (WaitForSelector selector timeout) ;; ret (Some h))
    (fun _ =>
       if (attempt <? MAX_RETRIES - 1)%nat
       then sleep (RETRY_DELAY * inject_Z (Z.of_nat attempt + 1)) ;; ret None
       else ret None).

(** The inner loop [for attempt in range(MAX_RETRIES)] on one candidate. *)
Definition retry_selector (selector : string) (timeout : pyval) : M (option Handle) :=
  for_each (seq 0 MAX_RETRIES) (attempt_selector selector timeout).

Definition _find_selector_with_retry (selectors : string) (timeout : pyval)
  : M (option Handle) :=
  for_each (candidates selectors) (fun selector => retry_selector selector timeout).


(** *** Step handlers *)

Definition str_eq (v : pyval) (s : string) : bool :=
  match v with
  | PStr t => bool_decide (t = s)
  | _ => false
  end.

Definition is_timeout (e : exn) : bool :=
  bool_decide (exn_class e = "TimeoutError").

Definition say (action message : string) : M unit :=
  send_event (Action action message NoExtra).

Definition _handle_navigate (step : dict) : M unit :=
  let url := get step "url" in
  send_event (Action "navigate" ("Navigating to " +:+ py_str url) (Target url)) ;;
  try_except_if is_timeout
    (perform (Goto url (get_or step "wait_until" (PStr "networkidle")) 30000) ;;
     title <- perform Title ;;
     say "navigate" ("✓ Loaded: " +:+ py_take 50 title))
    (fun _ => send_event (Warning "Navigation timeout, continuing...")).

Definition _handle_wait_for (step : dict) : M unit :=
  let selector := get step "selector" in
  selectors <- lift (as_str selector) ;;
  element <- _find_selector_with_retry selectors (get_or step "timeout" (PInt 10000)) ;;
  match element with
  | Some _ => ret tt
  | None =>
      shown <- lift (str_prefix 50 selector) ;;
      send_event (Warning ("Element not found: " +:+ shown))
  end.

Definition _handle_type (step : dict) : M unit :=
  raw <- lift (as_str (get_or step "selector" (PStr ""))) ;;
  let selector := strip (hd "" (split_on "," raw)) in
  let value := get_or step "value" (PStr "") in
  found <- _find_selector_with_retry selector (PInt 10000) ;;
  match found with
  | None => raise (Exn "Exception" ("Input not found: " +:+ selector))
  | Some _ =>
      (if truthy (get step "clear_first")
       then perform (Fill selector (PStr "") None)
       else ret tt) ;;
      try_except (perform (Click selector (Some 2000%Z))) (fun _ => ret tt) ;;
      perform (TypeText selector value 50) ;;
      shown <- lift (str_prefix 30 value) ;;
      say "type" ("Typed: '" +:+ shown +:+ "...'")
  end.

Definition _handle_click (step : dict) : M unit :=
  selector <- lift (as_str (get_or step "selector" (PStr ""))) ;;
  let selectors := map strip (split_on "," selector) in
  clicked <- for_each selectors (fun sel =>
    try_except (perform (Click sel (Some 5000%Z)) ;; ret (Some tt))
               (fun _ => ret None)) ;;
  match clicked with
  | None => perform (Press "Enter") ;; say "click" "Pressed Enter"
  | Some _ => say "click" "Clicked"
  end ;;
  if truthy (get step "wait_after")
  then perform (WaitForLoadState (get step "wait_after") 15000) ;; sleep 1
  else ret tt.

(** Returns the step as the final assignment leaves it. *)
Definition _handle_filter_price (step : dict) : M dict :=
  let max_p := get step "max_price" in
  let min_p := get step "min_price" in
  say "filter_price"
      ("Filtering: ₹" +:+ py_str (py_or min_p (PInt 0)) +:+ "-" +:+
       py_str (py_or max_p (PStr "∞"))) ;;
  try_except
    (sleep 1 ;;
     for_each ["input[placeholder*='Max']"; "input._2IX2F-:last-of-type"]
       (fun sel =>
          try_except
            ((if truthy max_p
              then perform (Fill (hd "" (split_on "," sel)) (PStr (py_str max_p))
                                 (Some 3000%Z)) ;;
                   perform (Press "Enter")
              else ret tt) ;;
             ret (Some tt))
            (fun _ => ret None)) ;;
     perform (WaitForLoadState (PStr "networkidle") 10000) ;;
     sleep 2)
    (fun _ => ret tt) ;;
  ret (<["min_price" := min_p]> (<["max_price" := max_p]> step)).

Definition _handle_filter_rating (step : dict) : M unit :=
  let rating := get step "min_rating" in
  say "filter_rating" ("Rating: " +:+ py_str rating +:+ "+") ;;
  for_each ["[aria-label*='" +:+ py_str rating +:+ " star']";
            ".rating-filter[data-rating='" +:+ py_str rating +:+ "']"]
    (fun sel =>
       try_except
         (perform (Click sel (Some 3000%Z)) ;;
          perform (WaitForLoadState (PStr "networkidle") 10000) ;;
          ret (Some tt))
         (fun _ => ret None)) ;;
  ret tt.

(** *** Extraction: validation, filtering, truncation *)

Definition is_zomato (site : pyval) : bool := str_eq site "zomato".

(** The three assignments that normalise a kept product. *)
Definition normalise (price : string) (product : dict) : dict :=
  let product := <["price" := PStr price]> product in
  let product := <["url" := py_or (get_or product "url" (PStr "")) (PStr "")]> product in
  <["rating" := py_or (get_or product "rating" (PStr "")) (PStr "")]> product.

(** One round of the validation loop: [None] when the product is skipped,
    the normalised product when it is appended to [valid_products]. *)
Definition validate_product (site : pyval) (product : dict) : result (option dict) :=
  rbind (as_str (get_or product "name" (PStr ""))) (fun raw =>
  let name := strip raw in
  if negb (truthy (PStr name)) || (py_len name <? 3)%nat then Ok None
  else
    let price_str :=
      replace "₹" "" (replace "," "" (py_str (get_or product "price" (PStr "0")))) in
    match (if truthy (PStr price_str) then int_of_str price_str else Some 0%Z) with
    | Some price_val =>
        if is_zomato site then
          Ok (Some (normalise (if (0 <? price_val)%Z then str_of_int price_val else "")
                              product))
        else if (100 <=? price_val)%Z then
          Ok (Some (normalise (str_of_int price_val) product))
        else Ok None
    | None =>
        if is_zomato site then Ok (Some (normalise "" product)) else Ok None
    end).

Fixpoint validate_products (site : pyval) (products : list dict) : result (list dict) :=
  match products with
  | [] => Ok []
  | product :: rest =>
      rbind (validate_product site product) (fun kept =>
      rbind (validate_products site rest) (fun valid =>
      Ok (match kept with Some p => p :: valid | None => valid end)))
  end.

(** [p.get("rating") and float(p.get("rating", "0")) >= min_rating] *)
Definition rating_at_least (min_rating : pyfloat) (p : dict) : result bool :=
  if truthy (get p "rating")
  then rbind (py_float (get_or p "rating" (PStr "0"))) (fun r =>
       Ok (float_ge r min_rating))
  else Ok false.

(** The condition of the price comprehension; [p["price"]] is only read
    once [p.get("price")] is known to be truthy. *)
Definition price_within (max_p min_p : pyval) (p : dict) : result bool :=
  if negb (truthy (get p "price")) then Ok true
  else
    let price := py_or (get p "price") (PStr "0") in
    rbind (py_int price) (fun v =>
    rbind (if truthy max_p then py_int max_p else Ok 999999999%Z) (fun hi =>
    if (v <=? hi)%Z then
      rbind (py_int price) (fun v' =>
      rbind (if truthy min_p then py_int min_p else Ok 0%Z) (fun lo =>
      Ok (lo <=? v')%Z))
    else Ok false)).

Definition no_products_message : string :=
  "No valid products found. The page structure might have changed. Try a different search query.".

(** The body of the [try] block after [page.evaluate]: validation, the two
    filters, truncation to [count] and the closing event. *)
Definition select_products (step : dict) (products : list dict) : M (list dict) :=
  let count := get_or step "count" (PInt 3) in
  let site := get_or step "site" (PStr "flipkart") in
  products <- lift (validate_products site products) ;;
  filtered <-
    (if truthy (get step "min_rating") && is_zomato site then
       min_rating <- lift (py_float (get step "min_rating")) ;;
       filtered <- lift (filter_raising (rating_at_least min_rating) products) ;;
       say "filter_rating"
           ("Filtered: " +:+ str_of_int (Z.of_nat (length filtered)) +:+
            " restaurants with " +:+ float_repr min_rating +:+ "+ rating") ;;
       ret filtered
     else ret products) ;;
  filtered <-
    (if (truthy (get step "max_price") || truthy (get step "min_price"))
        && negb (is_zomato site) then
       let max_p := get step "max_price" in
       let min_p := get step "min_price" in
       filtered <- lift (filter_raising (price_within max_p min_p) filtered) ;;
       (if truthy max_p || truthy min_p
        then say "filter_price"
                 ("Filtered: " +:+ str_of_int (Z.of_nat (length filtered)) +:+ " items")
        else ret tt) ;;
       ret filtered
     else ret filtered) ;;
  final_products <-
    (match filtered with
     | [] => ret []
     | _ => lift (slice_to count filtered)
     end) ;;
  (match final_products with
   | [] => send_event (Warning no_products_message)
   | _ =>
       send_event
         (Action "extract_products"
            ("✓ Extracted " +:+ str_of_int (Z.of_nat (length final_products)) +:+
             " valid results")
            (Extracted (length final_products) (take 2 final_products)))
   end) ;;
  ret final_products.

Definition _handle_extract_products (step : dict) : M (list dict) :=
  let count := get_or step "count" (PInt 3) in
  let site := get_or step "site" (PStr "flipkart") in
  say "extract_products" ("Extracting top " +:+ py_str count +:+ " results...") ;;
  try_except
    (perform (WaitForSelector
                "div[data-id], [class*='restaurant'], [class*='jumbo-tracker']"
                (PInt 20000)) ;;
     sleep 2)
    (fun _ => ret tt) ;;
  sleep 2 ;;
  let extraction_script := if is_zomato site then ZomatoScript else FlipkartScript in
  try_except
    (products <- perform (Evaluate extraction_script) ;;
     select_products step products)
    (fun e =>
       title <- perform Title ;;
       send_event
         (Error (PStr ("Extraction error: " +:+ exn_msg e +:+ ". Page title: " +:+ title))
                false) ;;
       ret []).

(** *** Forms *)

(** The value typed into the field: the step's own, or a generated one. *)
Definition fill_value (step : dict) : M pyval :=
  let field_name := get step "field_name" in
  let value := get_or step "value" (PStr "") in
  if negb (truthy value) || truthy (get step "generate_if_needed") then
    lowered <- lift (rbind (as_str field_name) (fun s => Ok (lower s))) ;;
    if contains "email" lowered then
      token <- draw (random_choices 8) ;;
      ret (PStr ("temp_" +:+ token +:+ "@example.com"))
    else
      lowered <- lift (rbind (as_str field_name) (fun s => Ok (lower s))) ;;
      if contains "phone" lowered then
        n <- draw (randint 7000000000 9999999999) ;;
        ret (PStr ("+91" +:+ str_of_int n))
      else
        n <- draw (randint 1000 9999) ;;
        ret (PStr ("test_" +:+ str_of_int n))
  else ret value.

Definition field_selectors (field_name : pyval) : list string :=
  ["input[name='" +:+ py_str field_name +:+ "']";
   "input[id='" +:+ py_str field_name +:+ "']";
   "input[placeholder*='" +:+ py_str field_name +:+ "']";
   "#" +:+ py_str field_name].

Definition _handle_fill_form_field (step : dict) : M unit :=
  let field_name := get step "field_name" in
  value <- fill_value step ;;
  let selectors := field_selectors field_name in
  found <- _find_selector_with_retry (join "," selectors) (PInt 10000) ;;
  match found with
  | Some _ =>
      perform (Fill (hd "" selectors) value None) ;;
      say "fill_form_field" ("Filled " +:+ py_str field_name)
  | None =>
      send_event (Warning ("Field not found: " +:+ py_str field_name))
  end.

Definition submit_selectors : string :=
  "button[type='submit'], input[type='submit'], button:has-text('Submit')".

Definition _handle_submit_form (step : dict) : M unit :=
  found <- _find_selector_with_retry submit_selectors (PInt 10000) ;;
  match found with
  | Some _ => perform (Click (hd "" (split_on "," submit_selectors)) None)
  | None => perform (Press "Enter")
  end ;;
  say "submit_form" "Form submitted" ;;
  try_except
    (perform (WaitForLoadState (get_or step "wait_after" (PStr "networkidle")) 15000))
    (fun _ => ret tt).

(** *** The dispatcher *)

Inductive flow :=
| Next
| Break.

(** The [if / elif] chain on [action]: what the loop does next and the
    products to add to [results]. *)
Definition dispatch (action : pyval) (step : dict) : M (flow * list dict) :=
  if str_eq action "navigate" then _handle_navigate step ;; ret (Next, [])
  else if str_eq action "wait_for" then _handle_wait_for step ;; ret (Next, [])
  else if str_eq action "type" then _handle_type step ;; ret (Next, [])
  else if str_eq action "click" then _handle_click step ;; ret (Next, [])
  else if str_eq action "filter_price" then _handle_filter_price step ;; ret (Next, [])
  else if str_eq action "filter_rating" then _handle_filter_rating step ;; ret (Next, [])
  else if str_eq action "extract_products" then
    extracted <- _handle_extract_products step ;; ret (Next, extracted)
  else if str_eq action "fill_form_field" then
    _handle_fill_form_field step ;; ret (Next, [])
  else if str_eq action "submit_form" then _handle_submit_form step ;; ret (Next, [])
  else if str_eq action "unsupported" then
    send_event (Error (get_or step "reason" (PStr "Unsupported action")) false) ;;
    ret (Break, [])
  else
    send_event (Error (PStr ("Unknown action: " +:+ py_str action)) false) ;;
    ret (Next, []).

(** One round of the loop over the plan. *)
Definition run_step (total step_idx : nat) (step : dict) (results : list dict)
  : M (flow * list dict) :=
  let action := get step "action" in
  send_event (ActionStart action (Z.of_nat step_idx + 1) (Z.of_nat total)) ;;
  done <- try_except
    (r <- dispatch action step ;; ret (Some r))
    (fun e =>
       send_event (Error (PStr ("Error in " +:+ py_str action +:+ ": " +:+ exn_msg e))
                         false) ;;
       ret None) ;;
  match done with
  | None => ret (Next, results)
  | Some (Break, _) => ret (Break, results)
  | Some (Next, extracted) =>
      send_event (ActionComplete action) ;;
      ret (Next, (results ++ extracted)%list)
  end.

Fixpoint run_steps (total step_idx : nat) (plan : list dict) (results : list dict)
  : M (list dict) :=
  match plan with
  | [] => ret results
  | step :: rest =>
      r <- run_step total step_idx step results ;;
      match r with
      | (Break, results') => ret results'
      | (Next, results') => run_steps total (S step_idx) rest results'
      end
  end.

(** The two outer [except] clauses. *)
Definition report_failure (e : exn) : M unit :=
  if bool_decide (exn_class e = "NotImplementedError") then
    send_event
      (Error (PStr "Playwright subprocess error. Use 'python start_server.py' (not uvicorn directly).")
             true)
  else
    let msg := "Browser error: " +:+ exn_msg e in
    let msg := if contains "subprocess" (lower (exn_msg e))
               then msg +:+ " Try: python start_server.py" else msg in
    send_event (Error (PStr msg) true).

(** No exception escapes [run_steps] (lemma [run_steps_returns]), so the
    outer handlers are reached from the set-up of the session only. The
    [finally] clause sleeps once [page] is set and closes once [browser]
    is set. *)
Definition run_action_plan (plan : list dict) : M (list dict) :=
  started <- try_except (perform Start ;; ret true)
                        (fun e => report_failure e ;; ret false) ;;
  if negb started then ret []
  else
    launched <-
      try_except (perform (Launch headless) ;; ret true)
        (fun e =>
           send_event
             (Error (PStr ("Failed to launch browser: " +:+ exn_msg e +:+
                           ". Install browsers: playwright install chromium"))
                    false) ;;
           ret false) ;;
    if negb launched then ret []
    else
      try_finally
        (paged <- try_except (perform NewContext ;; perform NewPage ;; ret true)
                             (fun e => report_failure e ;; ret false) ;;
         if negb paged then ret []
         else
           try_finally
             (send_event (Status "Browser initialized" "ready") ;;
              results <- run_steps (length plan) 0 plan [] ;;
              send_event (Status "Task completed" "completed") ;;
              ret results)
             (sleep 1))
        (perform Close ;; ret tt).

(** ** The resolver: order of attempts, outcome and backoff *)

(** The delay of the specification: the index of the failed attempt,
    counted from one, times the base delay. *)
Definition backoff (attempt_index : nat) : Q :=
  RETRY_DELAY * inject_Z (Z.of_nat attempt_index).

(** What a candidate that never shows up leaves in the log. *)
Definition exhausted_log (timeout : pyval) (selector : string) : list entry :=
  [Did (WaitForSelector selector timeout) false; Slept (backoff 1);
   Did (WaitForSelector selector timeout) false; Slept (backoff 2);
   Did (WaitForSelector selector timeout) false].

(** What a candidate found after [misses] failed attempts leaves. *)
Definition success_log (timeout : pyval) (selector : string) (misses : nat)
  : list entry :=
  take (2 * misses) (exhausted_log timeout selector) ++
  [Did (WaitForSelector selector timeout) true].

(** The waits the resolver is prepared to make, in order. *)
Definition attempts_on (timeout : pyval) (selector : string) : list call :=
  repeat (WaitForSelector selector timeout) MAX_RETRIES.

Definition schedule (timeout : pyval) (cands : list string) : list call :=
  flat_map (attempts_on timeout) cands.

Definition failed (c : call) : call * bool := (c, false).

Definition failures (l : list entry) : nat :=
  length (List.filter (fun x => negb (snd x)) (calls_of l)).

Lemma attempt_selector_hit selector timeout attempt p p' h :
  drive (WaitForSelector selector timeout) p = (p', Ok h) ->
  attempt_selector selector timeout attempt p =
  Outcome (Ok (Some h)) p' [Did (WaitForSelector selector timeout) true].
Proof.
  intros E. unfold attempt_selector, try_except, try_except_if, bind, perform, ret.
  rewrite E. reflexivity.
Qed.

Lemma attempt_selector_miss selector timeout attempt p p' e :
  drive (WaitForSelector selector timeout) p = (p', Raise e) ->
  attempt_selector selector timeout attempt p =
  if (attempt <? MAX_RETRIES - 1)%nat
  then Outcome (Ok None)
         (elapse (RETRY_DELAY * inject_Z (Z.of_nat attempt + 1)) p')
         [Did (WaitForSelector selector timeout) false;
          Slept (RETRY_DELAY * inject_Z (Z.of_nat attempt + 1))]
  else Outcome (Ok None) p' [Did (WaitForSelector selector timeout) false].
Proof.
  intros E. unfold attempt_selector, try_except, try_except_if, bind, perform, ret, sleep.
  rewrite E. destruct (attempt <? MAX_RETRIES - 1)%nat; reflexivity.
Qed.

Lemma for_each_cons {A R} (x : A) (xs : list A) (body : A -> M (option R)) p :
  for_each (x :: xs) body p =
  let o := body x p in
  match res o with
  | Ok (Some v) => Outcome (Ok (Some v)) (page_after o) (log o)
  | Ok None =>
      let o' := for_each xs body (page_after o) in
      Outcome (res o') (page_after o') (log o ++ log o')
  | Raise e => Outcome (Raise e) (page_after o) (log o)
  end.
Proof.
  cbn [for_each]. unfold bind. cbv zeta.
  destruct (body x p) as [[[v|]|e] q l]; cbn [res page_after log ret];
    [by rewrite app_nil_r | | reflexivity].
  by destruct (for_each xs body q).
Qed.

(** One candidate: found after at most two misses, or exhausted after
    three; the handle is the one the successful wait returned. *)
Lemma retry_selector_cases selector timeout p :
  let o := retry_selector selector timeout p in
  (res o = Ok None /\ log o = exhausted_log timeout selector) \/
  (exists misses h p0,
      (misses < MAX_RETRIES)%nat /\ res o = Ok (Some h) /\
      log o = success_log timeout selector misses /\
      drive (WaitForSelector selector timeout) p0 = (page_after o, Ok h)).
Proof.
  unfold retry_selector. cbn [MAX_RETRIES seq].
  rewrite for_each_cons.
  destruct (drive (WaitForSelector selector timeout) p) as [p1 [h|e]] eqn:E1.
  { rewrite (attempt_selector_hit _ _ _ _ _ _ E1). cbn.
    right. exists 0%nat, h, p. repeat split; [unfold MAX_RETRIES; lia | exact E1]. }
  rewrite (attempt_selector_miss _ _ _ _ _ _ E1). cbn -[for_each].
  rewrite for_each_cons.
  match goal with |- context [attempt_selector _ _ _ ?q] => set (q1 := q) end.
  destruct (drive (WaitForSelector selector timeout) q1) as [p2 [h|e2]] eqn:E2.
  { rewrite (attempt_selector_hit _ _ _ _ _ _ E2). cbn.
    right. exists 1%nat, h, q1. repeat split; [unfold MAX_RETRIES; lia | exact E2]. }
  rewrite (attempt_selector_miss _ _ _ _ _ _ E2). cbn -[for_each].
  rewrite for_each_cons.
  match goal with |- context [attempt_selector _ _ _ ?q] => set (q2 := q) end.
  destruct (drive (WaitForSelector selector timeout) q2) as [p3 [h|e3]] eqn:E3.
  { rewrite (attempt_selector_hit _ _ _ _ _ _ E3). cbn.
    right. exists 2%nat, h, q2. repeat split; [unfold MAX_RETRIES; lia | exact E3]. }
  rewrite (attempt_selector_miss _ _ _ _ _ _ E3). cbn.
  left. split; reflexivity.
Qed.

Lemma retry_selector_never selector timeout :
  (forall q, is_ok (snd (drive (WaitForSelector selector timeout) q)) = false) ->
  forall p, res (retry_selector selector timeout p) = Ok None /\
            log (retry_selector selector timeout p) = exhausted_log timeout selector.
Proof.
  intros Hnever p.
  destruct (retry_selector_cases selector timeout p) as [H|(j & h & p0 & _ & _ & _ & E)];
    [exact H|].
  specialize (Hnever p0). rewrite E in Hnever. discriminate.
Qed.

Lemma retry_selector_at_once selector timeout p :
  is_ok (snd (drive (WaitForSelector selector timeout) p)) = true ->
  exists h, res (retry_selector selector timeout p) = Ok (Some h) /\
            log (retry_selector selector timeout p) =
            [Did (WaitForSelector selector timeout) true].
Proof.
  intros Hok. unfold retry_selector. cbn [MAX_RETRIES seq]. rewrite for_each_cons.
  destruct (drive (WaitForSelector selector timeout) p) as [p1 [h|e]] eqn:E1;
    [|discriminate].
  rewrite (attempt_selector_hit _ _ _ _ _ _ E1). cbn. eauto.
Qed.

(** All candidates in turn. *)
Lemma resolver_cases timeout cands p :
  let o := for_each cands (fun s => retry_selector s timeout) p in
  (res o = Ok None /\ log o = flat_map (exhausted_log timeout) cands) \/
  (exists pre c rest misses h p0,
      cands = pre ++ c :: rest /\ (misses < MAX_RETRIES)%nat /\
      res o = Ok (Some h) /\
      log o = flat_map (exhausted_log timeout) pre ++ success_log timeout c misses /\
      drive (WaitForSelector c timeout) p0 = (page_after o, Ok h)).
Proof.
  revert p. induction cands as [|a cands IH]; intros p.
  { left. split; reflexivity. }
  cbv zeta. rewrite for_each_cons. cbv zeta.
  destruct (retry_selector_cases a timeout p)
    as [[Hr Hl] | (j & h & p0 & Hj & Hr & Hl & E)].
  - rewrite Hr.
    destruct (IH (page_after (retry_selector a timeout p)))
      as [[Hr' Hl'] | (pre & c & rest & j & h & p0 & Hc & Hj & Hr' & Hl' & E)].
    + left. cbn [res log]. split; [exact Hr'|]. rewrite Hl, Hl'. reflexivity.
    + right. exists (a :: pre), c, rest, j, h, p0. cbn [res log page_after].
      split; [by rewrite Hc|]. split; [exact Hj|]. split; [exact Hr'|].
      split; [|exact E]. rewrite Hl, Hl'. cbn [flat_map]. by rewrite <- app_assoc.
  - right. rewrite Hr. exists [], a, cands, j, h, p0. cbn [res log page_after].
    repeat split; [exact Hj | exact Hl | exact E].
Qed.

(** Misses on every candidate before [good], which shows up at once. *)
Lemma resolver_first_hit timeout pre good rest p :
  (forall c, c ∈ pre ->
     forall q, is_ok (snd (drive (WaitForSelector c timeout) q)) = false) ->
  (forall q, is_ok (snd (drive (WaitForSelector good timeout) q)) = true) ->
  let o := for_each (pre ++ good :: rest) (fun s => retry_selector s timeout) p in
  exists h, res o = Ok (Some h) /\
    log o = flat_map (exhausted_log timeout) pre ++
            [Did (WaitForSelector good timeout) true].
Proof.
  intros Hpre Hgood. revert p. induction pre as [|a pre IH]; intros p; cbv zeta.
  - cbn [app]. rewrite for_each_cons. cbv zeta.
    destruct (retry_selector_at_once good timeout p (Hgood p)) as (h & Hr & Hl).
    rewrite Hr. exists h. cbn [res log]. split; [reflexivity | exact Hl].
  - cbn [app]. rewrite for_each_cons. cbv zeta.
    destruct (retry_selector_never a timeout (Hpre a ltac:(left)) p) as [Hr Hl].
    rewrite Hr.
    destruct (IH (fun c Hc => Hpre c ltac:(by right))
                 (page_after (retry_selector a timeout p))) as (h & Hr' & Hl').
    exists h. cbn [res log]. split; [exact Hr'|].
    rewrite Hl, Hl'. cbn [flat_map]. by rewrite <- app_assoc.
Qed.

Lemma calls_of_app l1 l2 : calls_of (l1 ++ l2) = calls_of l1 ++ calls_of l2.
Proof. apply omap_app. Qed.

Lemma events_of_app l1 l2 : events_of (l1 ++ l2) = events_of l1 ++ events_of l2.
Proof. apply omap_app. Qed.

Lemma calls_of_exhausted timeout cands :
  calls_of (flat_map (exhausted_log timeout) cands) = map failed (schedule timeout cands).
Proof.
  induction cands as [|c cands IH]; [reflexivity|].
  cbn [flat_map]. rewrite calls_of_app, IH. unfold schedule. cbn [flat_map].
  rewrite map_app. reflexivity.
Qed.

Lemma schedule_length timeout cands :
  length (schedule timeout cands) = (length cands * 3)%nat.
Proof.
  induction cands as [|c cands IH]; [reflexivity|].
  unfold schedule in *. cbn [flat_map]. rewrite length_app, IH. cbn. lia.
Qed.

Lemma map_fst_failed (l : list call) : map fst (map failed l) = l.
Proof. induction l as [|a l IH]; [reflexivity|]. cbn. by rewrite IH. Qed.

Lemma failures_all_failed (l : list call) (c : call) :
  length (List.filter (fun x => negb (snd x)) (map failed l ++ [(c, true)])) = length l.
Proof.
  induction l as [|a l IH]; [reflexivity|]. cbn. by rewrite IH.
Qed.

(** Order of the waits and outcome of the resolver; the count of failed
    waits when candidate [K+1] is visible in every state, that is at its
    first wait. *)
Lemma resolver_order_and_outcome (selectors : string) (timeout : pyval) (p : Page) :
  let o := _find_selector_with_retry selectors timeout p in
  let cands := candidates selectors in
  (exists later, schedule timeout cands = map fst (calls_of (log o)) ++ later) /\
  (forall h, res o = Ok (Some h) ->
     exists before sel p0,
       calls_of (log o) = map failed before ++ [(WaitForSelector sel timeout, true)] /\
       drive (WaitForSelector sel timeout) p0 = (page_after o, Ok h)) /\
  (res o = Ok None -> calls_of (log o) = map failed (schedule timeout cands)) /\
  (exists r, res o = Ok r) /\
  (forall K good,
     (forall c, c ∈ take K cands ->
        forall q, is_ok (snd (drive (WaitForSelector c timeout) q)) = false) ->
     cands !! K = Some good ->
     (forall q, is_ok (snd (drive (WaitForSelector good timeout) q)) = true) ->
     exists h,
       res o = Ok (Some h) /\
       calls_of (log o) =
         map failed (schedule timeout (take K cands)) ++
         [(WaitForSelector good timeout, true)] /\
       failures (log o) = (K * 3)%nat).
Proof.
  cbv zeta. unfold _find_selector_with_retry.
  set (cands := candidates selectors).
  set (o := for_each cands _ p).
  assert (Hsucc : forall c misses, (misses < MAX_RETRIES)%nat ->
            calls_of (success_log timeout c misses) =
            map failed (repeat (WaitForSelector c timeout) misses) ++
            [(WaitForSelector c timeout, true)]).
  { intros c [|[|[|j]]] Hj; try reflexivity. unfold MAX_RETRIES in Hj. lia. }
  destruct (resolver_cases timeout cands p)
    as [[Hr Hl] | (pre & c & rest & j & h & p0 & Hc & Hj & Hr & Hl & E)];
    fold o in Hr, Hl; try fold o in E.
  - repeat split.
    + exists []. by rewrite Hl, calls_of_exhausted, app_nil_r, map_fst_failed.
    + intros h Hh. rewrite Hr in Hh. discriminate.
    + intros _. rewrite Hl. apply calls_of_exhausted.
    + eauto.
    + intros K good Hnever Hgood Halways.
      destruct (resolver_first_hit timeout (take K cands) good (drop (S K) cands) p
                  Hnever Halways) as (h & Hr' & _).
      rewrite (take_drop_middle _ _ _ Hgood) in Hr'. fold o in Hr'.
      rewrite Hr in Hr'. discriminate.
  - repeat split.
    + exists (repeat (WaitForSelector c timeout) (MAX_RETRIES - S j) ++
              schedule timeout rest).
      rewrite Hl, calls_of_app, calls_of_exhausted, (Hsucc _ _ Hj), Hc.
      rewrite !map_app, !map_fst_failed. cbn [map fst].
      unfold schedule. rewrite flat_map_app. cbn [flat_map].
      rewrite <- !app_assoc. f_equal.
      unfold attempts_on.
      destruct j as [|[|[|j]]]; try reflexivity. unfold MAX_RETRIES in Hj. lia.
    + intros h' Hh. rewrite Hr in Hh. injection Hh as <-.
      exists (schedule timeout pre ++ repeat (WaitForSelector c timeout) j), c, p0.
      split; [|exact E].
      rewrite Hl, calls_of_app, calls_of_exhausted, (Hsucc _ _ Hj).
      rewrite map_app, <- app_assoc. reflexivity.
    + intros Hn. rewrite Hr in Hn. discriminate.
    + eauto.
    + intros K good Hnever Hgood Halways.
      destruct (resolver_first_hit timeout (take K cands) good (drop (S K) cands) p
                  Hnever Halways) as (h' & Hr' & Hl').
      rewrite (take_drop_middle _ _ _ Hgood) in Hr', Hl'. fold o in Hr', Hl'.
      exists h'. split; [exact Hr'|].
      assert (Hcalls : calls_of (log o) =
                map failed (schedule timeout (take K cands)) ++
                [(WaitForSelector good timeout, true)]).
      { rewrite Hl', calls_of_app, calls_of_exhausted. reflexivity. }
      split; [exact Hcalls|].
      unfold failures. rewrite Hcalls, failures_all_failed, schedule_length.
      rewrite length_take. apply lookup_lt_Some in Hgood. lia.
Qed.

(** The candidates that never show up cost three failed waits each, and
    the resolver goes on from the next candidate as if it were the first. *)
Lemma resolver_after_absent timeout pre rest p :
  (forall c, c ∈ pre ->
     forall q, is_ok (snd (drive (WaitForSelector c timeout) q)) = false) ->
  exists p',
    res (for_each (pre ++ rest) (fun s => retry_selector s timeout) p) =
      res (for_each rest (fun s => retry_selector s timeout) p') /\
    log (for_each (pre ++ rest) (fun s => retry_selector s timeout) p) =
      flat_map (exhausted_log timeout) pre ++
      log (for_each rest (fun s => retry_selector s timeout) p').
Proof.
  intros Hpre. revert p. induction pre as [|a pre IH]; intros p.
  { exists p. split; reflexivity. }
  cbn [app]. rewrite for_each_cons. cbv zeta.
  destruct (retry_selector_never a timeout (Hpre a ltac:(left)) p) as [Hr Hl].
  rewrite Hr.
  destruct (IH (fun c Hc => Hpre c ltac:(by right))
               (page_after (retry_selector a timeout p))) as (p' & Hr' & Hl').
  exists p'. cbn [res log]. split; [exact Hr'|].
  rewrite Hl, Hl'. cbn [flat_map]. by rewrite <- app_assoc.
Qed.

Lemma failures_counted (l : list call) (c : call) :
  length (List.filter (fun x => negb (snd x)) (map failed l ++ [(c, true)])) = length l.
Proof. apply failures_all_failed. Qed.

(** The failed waits before the success, when the first [K] candidates
    never show up: three for each of them, and one for each attempt on
    candidate [K+1] before the one on which it shows up. *)
Lemma resolver_counts_misses (selectors : string) (timeout : pyval) (p : Page) :
  let o := _find_selector_with_retry selectors timeout p in
  let cands := candidates selectors in
  forall K good,
    (forall c, c ∈ take K cands ->
       forall q, is_ok (snd (drive (WaitForSelector c timeout) q)) = false) ->
    cands !! K = Some good ->
    (exists misses h,
       (misses < MAX_RETRIES)%nat /\
       res o = Ok (Some h) /\
       calls_of (log o) =
         map failed (schedule timeout (take K cands) ++
                     repeat (WaitForSelector good timeout) misses) ++
         [(WaitForSelector good timeout, true)] /\
       failures (log o) = (K * 3 + misses)%nat) \/
    (exists later,
       calls_of (log o) = map failed (schedule timeout (take (S K) cands)) ++ later).
Proof.
  cbv zeta. intros K good Hnever Hgood. unfold _find_selector_with_retry.
  destruct (resolver_after_absent timeout (take K (candidates selectors))
              (good :: drop (S K) (candidates selectors)) p Hnever) as (p' & Hr & Hl).
  rewrite (take_drop_middle _ _ _ Hgood) in Hr, Hl. rewrite Hr, Hl. clear Hr Hl.
  rewrite for_each_cons. cbv zeta.
  destruct (retry_selector_cases good timeout p')
    as [[Hr Hl] | (j & h & p0 & Hj & Hr & Hl & _)]; rewrite Hr; cbn [res log].
  - right. rewrite Hl, !calls_of_app, calls_of_exhausted.
    rewrite (take_S_r _ _ _ Hgood). unfold schedule. rewrite flat_map_app, map_app.
    cbn [flat_map]. rewrite (app_nil_r (attempts_on timeout good)).
    eexists. rewrite <- app_assoc. reflexivity.
  - left. exists j, h. split; [exact Hj|]. split; [reflexivity|].
    assert (Hcalls : calls_of (flat_map (exhausted_log timeout)
                                 (take K (candidates selectors)) ++
                               success_log timeout good j) =
              map failed (schedule timeout (take K (candidates selectors)) ++
                          repeat (WaitForSelector good timeout) j) ++
              [(WaitForSelector good timeout, true)]).
    { rewrite calls_of_app, calls_of_exhausted, map_app, <- app_assoc. f_equal.
      destruct j as [|[|[|j]]]; try reflexivity. unfold MAX_RETRIES in Hj. lia. }
    rewrite Hl. split; [exact Hcalls|].
    unfold failures. rewrite Hcalls, failures_counted, length_app, schedule_length.
    rewrite length_take, repeat_length. apply lookup_lt_Some in Hgood. lia.
Qed.

(** C3 (as the code has it). The resolver tries the candidates strictly in
    the given order, at most three waits on each: the waits it makes are
    an initial segment of the schedule. It returns the handle of the first
    wait that succeeds, every earlier wait having failed; it returns none
    only after every candidate has failed three times; it never raises.
    When the first [K] candidates never show up and candidate [K+1] shows
    up on its attempt [j+1], exactly [K * 3 + j] failed waits precede the
    successful one, [j] being 0, 1 or 2: [K * 3] only when candidate [K+1]
    is there at its first wait. If candidate [K+1] fails its three waits
    too, the resolver goes on with the next candidate. *)
Theorem resolver_first_visible_match (selectors : string) (timeout : pyval) (p : Page) :
  let o := _find_selector_with_retry selectors timeout p in
  let cands := candidates selectors in
  (exists later, schedule timeout cands = map fst (calls_of (log o)) ++ later) /\
  (forall h, res o = Ok (Some h) ->
     exists before sel p0,
       calls_of (log o) = map failed before ++ [(WaitForSelector sel timeout, true)] /\
       drive (WaitForSelector sel timeout) p0 = (page_after o, Ok h)) /\
  (res o = Ok None -> calls_of (log o) = map failed (schedule timeout cands)) /\
  (exists r, res o = Ok r) /\
  (forall K good,
     (forall c, c ∈ take K cands ->
        forall q, is_ok (snd (drive (WaitForSelector c timeout) q)) = false) ->
     cands !! K = Some good ->
     (forall q, is_ok (snd (drive (WaitForSelector good timeout) q)) = true) ->
     exists h,
       res o = Ok (Some h) /\
       calls_of (log o) =
         map failed (schedule timeout (take K cands)) ++
         [(WaitForSelector good timeout, true)] /\
       failures (log o) = (K * 3)%nat) /\
  (forall K good,
     (forall c, c ∈ take K cands ->
        forall q, is_ok (snd (drive (WaitForSelector c timeout) q)) = false) ->
     cands !! K = Some good ->
     (exists misses h,
        (misses < MAX_RETRIES)%nat /\
        res o = Ok (Some h) /\
        calls_of (log o) =
          map failed (schedule timeout (take K cands) ++
                      repeat (WaitForSelector good timeout) misses) ++
          [(WaitForSelector good timeout, true)] /\
        failures (log o) = (K * 3 + misses)%nat) \/
     (exists later,
        calls_of (log o) = map failed (schedule timeout (take (S K) cands)) ++ later)).
Proof.
  cbv zeta.
  destruct (resolver_order_and_outcome selectors timeout p) as (H1 & H2 & H3 & H4 & H5).
  repeat (split; [assumption|]).
  apply resolver_counts_misses.
Qed.

(** C8. The log of a resolver run is a run of exhausted candidates, each
    leaving wait, sleep 1 s, wait, sleep 2 s, wait, followed, when a
    candidate is found, by that candidate's failed waits with the same
    delays and its successful wait. The delay after the failed attempt of
    index [i] (counted from one) is [i * RETRY_DELAY] with [RETRY_DELAY]
    one second; the third failed wait is followed by no sleep, the next
    entry being the first wait on the next candidate. *)
Theorem resolver_backoff_is_linear (selectors : string) (timeout : pyval) (p : Page) :
  let o := _find_selector_with_retry selectors timeout p in
  let cands := candidates selectors in
  (log o = flat_map (exhausted_log timeout) cands \/
   exists pre c rest misses,
     cands = pre ++ c :: rest /\ (misses < MAX_RETRIES)%nat /\
     log o = flat_map (exhausted_log timeout) pre ++ success_log timeout c misses) /\
  (forall c, exhausted_log timeout c =
     [Did (WaitForSelector c timeout) false; Slept 1%Q;
      Did (WaitForSelector c timeout) false; Slept 2%Q;
      Did (WaitForSelector c timeout) false]) /\
  (forall c,
     success_log timeout c 0 = [Did (WaitForSelector c timeout) true] /\
     success_log timeout c 1 =
       [Did (WaitForSelector c timeout) false; Slept 1%Q;
        Did (WaitForSelector c timeout) true] /\
     success_log timeout c 2 =
       [Did (WaitForSelector c timeout) false; Slept 1%Q;
        Did (WaitForSelector c timeout) false; Slept 2%Q;
        Did (WaitForSelector c timeout) true]) /\
  (forall c, sleeps_of (exhausted_log timeout c) = [backoff 1; backoff 2]) /\
  backoff 1 = (1 * RETRY_DELAY)%Q /\ backoff 2 = (2 * RETRY_DELAY)%Q /\
  RETRY_DELAY = 1%Q.
Proof.
  cbv zeta. unfold _find_selector_with_retry.
  split; [|repeat split].
  destruct (resolver_cases timeout (candidates selectors) p)
    as [[_ Hl] | (pre & c & rest & j & h & p0 & Hc & Hj & _ & Hl & _)].
  - left. exact Hl.
  - right. exists pre, c, rest, j. auto.
Qed.

(** ** Reasoning about outcomes *)

Lemma bind_ok {A B} (m : M A) (k : A -> M B) p b :
  res (bind m k p) = Ok b ->
  exists a, res (m p) = Ok a /\ res (k a (page_after (m p))) = Ok b.
Proof.
  unfold bind. destruct (m p) as [[a|e] q l]; cbn [res page_after]; [|discriminate].
  destruct (k a q) as [r q' l'] eqn:E. cbn [res]. intros ->. exists a. by rewrite E.
Qed.

Lemma try_except_ok {A} (m : M A) (h : exn -> M A) p a :
  res (try_except m h p) = Ok a ->
  res (m p) = Ok a \/
  exists e, res (m p) = Raise e /\ res (h e (page_after (m p))) = Ok a.
Proof.
  unfold try_except, try_except_if.
  destruct (m p) as [[a'|e] q l]; cbn [res page_after]; [auto|].
  destruct (h e q) as [r q' l'] eqn:E. cbn [res]. intros ->.
  right. exists e. by rewrite E.
Qed.

Lemma lift_ok {A} (r : result A) p a : res (lift r p) = Ok a -> r = Ok a.
Proof. trivial. Qed.

Lemma rbind_ok {A B} (r : result A) (k : A -> result B) b :
  rbind r k = Ok b -> exists a, r = Ok a /\ k a = Ok b.
Proof. destruct r; cbn; [eauto | discriminate]. Qed.

Lemma res_bind {A B} (m : M A) (k : A -> M B) p :
  res (bind m k p) =
  match res (m p) with
  | Ok a => res (k a (page_after (m p)))
  | Raise e => Raise e
  end.
Proof.
  unfold bind. destruct (m p) as [[a|e] q l]; [|reflexivity].
  cbn [res page_after]. by destruct (k a q).
Qed.

Lemma log_bind {A B} (m : M A) (k : A -> M B) p :
  log (bind m k p) =
  log (m p) ++
  match res (m p) with
  | Ok a => log (k a (page_after (m p)))
  | Raise e => []
  end.
Proof.
  unfold bind. destruct (m p) as [[a|e] q l]; cbn [res page_after log].
  - by destruct (k a q).
  - by rewrite app_nil_r.
Qed.

Lemma page_bind {A B} (m : M A) (k : A -> M B) p :
  page_after (bind m k p) =
  match res (m p) with
  | Ok a => page_after (k a (page_after (m p)))
  | Raise e => page_after (m p)
  end.
Proof.
  unfold bind. destruct (m p) as [[a|e] q l]; [|reflexivity].
  cbn [res page_after]. by destruct (k a q).
Qed.

Lemma res_try_except {A} (m : M A) (h : exn -> M A) p :
  res (try_except m h p) =
  match res (m p) with
  | Ok a => Ok a
  | Raise e => res (h e (page_after (m p)))
  end.
Proof.
  unfold try_except, try_except_if. destruct (m p) as [[a|e] q l]; [reflexivity|].
  cbn [res page_after]. by destruct (h e q).
Qed.

Lemma log_try_except {A} (m : M A) (h : exn -> M A) p :
  log (try_except m h p) =
  log (m p) ++
  match res (m p) with
  | Ok a => []
  | Raise e => log (h e (page_after (m p)))
  end.
Proof.
  unfold try_except, try_except_if. destruct (m p) as [[a|e] q l];
    cbn [res page_after log].
  - by rewrite app_nil_r.
  - by destruct (h e q).
Qed.

Lemma page_try_except {A} (m : M A) (h : exn -> M A) p :
  page_after (try_except m h p) =
  match res (m p) with
  | Ok a => page_after (m p)
  | Raise e => page_after (h e (page_after (m p)))
  end.
Proof.
  unfold try_except, try_except_if. destruct (m p) as [[a|e] q l]; [reflexivity|].
  cbn [res page_after]. by destruct (h e q).
Qed.

Lemma res_perform c p : res (perform c p) = snd (drive c p).
Proof. unfold perform. by destruct (drive c p). Qed.

Lemma page_perform c p : page_after (perform c p) = fst (drive c p).
Proof. unfold perform. by destruct (drive c p). Qed.

Lemma log_perform c p : log (perform c p) = [Did c (is_ok (snd (drive c p)))].
Proof. unfold perform. by destruct (drive c p). Qed.

Ltac invert_bind H :=
  let a := fresh "v" in
  let H1 := fresh H "a" in
  apply bind_ok in H; destruct H as (a & H1 & H).

(** ** Extraction: validity, bound and rating filter *)

(** A defaulted optional field: the empty-string sentinel, or the value
    the page supplied. *)
Definition sentinel_or_given (v : pyval) : Prop :=
  v = PStr "" \/ truthy v = true.

Definition has_name (item : dict) : Prop :=
  exists name, item !! "name" = Some (PStr name) /\ (3 <= py_len name)%nat.

Definition has_optional_fields (item : dict) : Prop :=
  (exists r, item !! "rating" = Some r /\ sentinel_or_given r) /\
  (exists u, item !! "url" = Some u /\ sentinel_or_given u).

(** The price field is a text that [int()] reads as [n]. *)
Definition price_parses (item : dict) (n : Z) : Prop :=
  exists text, item !! "price" = Some (PStr text) /\ int_of_str text = Some n.

(** Validity for the site tag "listing" (site "zomato"). *)
Definition valid_listing (item : dict) : Prop :=
  has_name item /\
  (item !! "price" = Some (PStr "") \/ exists n, price_parses item n /\ (0 < n)%Z) /\
  has_optional_fields item.

(** Validity for the site tag "generic-product" (any other site). *)
Definition valid_generic_product (item : dict) : Prop :=
  has_name item /\
  (exists n, price_parses item n /\ (100 <= n)%Z) /\
  has_optional_fields item.

Definition valid_for (site : pyval) (item : dict) : Prop :=
  if is_zomato site then valid_listing item else valid_generic_product item.

(** What a handler result adds to [results]. *)
Definition extracted_items (r : result (list dict)) : list dict :=
  match r with
  | Ok items => items
  | Raise _ => []
  end.

Lemma py_len_lstrip s : (py_len (lstrip s) <= py_len s)%nat.
Proof.
  induction s as [|c s IH]; [reflexivity|].
  cbn. destruct (is_space c); cbn; lia.
Qed.

Lemma py_len_rstrip s : (py_len (rstrip s) <= py_len s)%nat.
Proof.
  induction s as [|c s IH]; [reflexivity|].
  cbn. destruct (rstrip s) as [|c' r].
  - destruct (is_space c); cbn in *; lia.
  - cbn in *. lia.
Qed.

Lemma py_len_strip s : (py_len (strip s) <= py_len s)%nat.
Proof.
  unfold strip. etrans; [apply py_len_rstrip | apply py_len_lstrip].
Qed.

Lemma py_or_sentinel (v : pyval) : sentinel_or_given (py_or v (PStr "")).
Proof.
  unfold py_or, sentinel_or_given. destruct (truthy v) eqn:E; auto.
Qed.

Lemma normalise_fields price product :
  normalise price product !! "price" = Some (PStr price) /\
  normalise price product !! "name" = product !! "name" /\
  has_optional_fields (normalise price product).
Proof.
  unfold normalise, has_optional_fields. cbv zeta.
  repeat split.
  - rewrite !lookup_insert_ne by done. apply lookup_insert_eq.
  - by rewrite !lookup_insert_ne by done.
  - eexists. split; [apply lookup_insert_eq | apply py_or_sentinel].
  - eexists. split; [rewrite lookup_insert_ne by done; apply lookup_insert_eq |].
    apply py_or_sentinel.
Qed.

Lemma validate_product_valid site product kept :
  validate_product site product = Ok (Some kept) -> valid_for site kept.
Proof.
  unfold validate_product. intros H.
  apply rbind_ok in H. destruct H as (raw & Hraw & H).
  destruct (negb (truthy (PStr (strip raw))) || (py_len (strip raw) <? 3)%nat) eqn:Hskip;
    [discriminate|].
  apply orb_false_elim in Hskip. destruct Hskip as [Htruthy Hlen].
  apply Nat.ltb_ge in Hlen.
  assert (Hname : forall price, has_name (normalise price product)).
  { intros price. exists raw.
    destruct (normalise_fields price product) as (_ & -> & _).
    split; [|pose proof (py_len_strip raw); lia].
    unfold get_or in Hraw. destruct (product !! "name") as [[]|]; try discriminate.
    - by injection Hraw as ->.
    - injection Hraw as <-. discriminate. }
  unfold valid_for, valid_listing, valid_generic_product.
  match type of H with
  | match ?x with _ => _ end = _ => destruct x as [price_val|]
  end.
  - destruct (is_zomato site).
    + injection H as <-. split; [apply Hname|]. split; [|apply normalise_fields].
      destruct (0 <? price_val)%Z eqn:Hpos; [|left; apply normalise_fields].
      right. exists price_val. split; [|lia].
      exists (str_of_int price_val). split; [apply normalise_fields|].
      apply int_of_str_str_of_int. lia.
    + destruct (100 <=? price_val)%Z eqn:Hge; [|discriminate].
      injection H as <-. split; [apply Hname|]. split; [|apply normalise_fields].
      exists price_val. split; [|lia].
      exists (str_of_int price_val). split; [apply normalise_fields|].
      apply int_of_str_str_of_int. lia.
  - destruct (is_zomato site); [|discriminate].
    injection H as <-. split; [apply Hname|]. split; [|apply normalise_fields].
    left. apply normalise_fields.
Qed.

Lemma validate_products_valid site products valid :
  validate_products site products = Ok valid -> Forall (valid_for site) valid.
Proof.
  revert valid. induction products as [|product rest IH]; intros valid H.
  { injection H as <-. constructor. }
  cbn in H. apply rbind_ok in H. destruct H as (kept & Hkept & H).
  apply rbind_ok in H. destruct H as (valid' & Hrest & H).
  injection H as <-. specialize (IH _ Hrest).
  destruct kept as [item|]; [|exact IH].
  constructor; [|exact IH]. by apply validate_product_valid with product.
Qed.

Lemma filter_raising_sublist {A} (keep : A -> result bool) l r :
  filter_raising keep l = Ok r -> r `sublist_of` l.
Proof.
  revert r. induction l as [|x l IH]; intros r H.
  { injection H as <-. constructor. }
  cbn in H. apply rbind_ok in H. destruct H as (b & _ & H).
  apply rbind_ok in H. destruct H as (r' & Hr' & H).
  injection H as <-. specialize (IH _ Hr').
  destruct b; by constructor.
Qed.

Lemma slice_to_sublist {A} (stop : pyval) (l r : list A) :
  slice_to stop l = Ok r -> r `sublist_of` l.
Proof.
  destruct stop as [| b | n | |]; cbn; try discriminate.
  - intros [= <-]. reflexivity.
  - intros [= <-]. apply sublist_take.
  - destruct (0 <=? n)%Z; intros [= <-]; apply sublist_take.
Qed.

Lemma slice_to_length {A} (n : Z) (l r : list A) :
  (0 <= n)%Z -> slice_to (PInt n) l = Ok r -> (Z.of_nat (length r) <= n)%Z.
Proof.
  intros Hn. cbn. destruct (0 <=? n)%Z eqn:E; [|lia].
  intros [= <-]. rewrite length_take. lia.
Qed.

Lemma select_products_ok step products p final :
  res (select_products step products p) = Ok final ->
  exists valid filtered,
    validate_products (get_or step "site" (PStr "flipkart")) products = Ok valid /\
    filtered `sublist_of` valid /\
    (final = [] \/ slice_to (get_or step "count" (PInt 3)) filtered = Ok final).
Proof.
  intros H. unfold select_products in H. cbv zeta in H.
  invert_bind H. apply lift_ok in Ha. rename v into valid.
  invert_bind H. rename v into rated.
  assert (Hrated : rated `sublist_of` valid).
  { match type of Ha0 with
    | res ((if ?c then _ else _) _) = _ => destruct c
    end.
    - invert_bind Ha0. invert_bind Ha0. apply lift_ok in Ha0a0.
      invert_bind Ha0. injection Ha0 as <-.
      by apply filter_raising_sublist in Ha0a0.
    - injection Ha0 as <-. reflexivity. }
  invert_bind H. rename v into priced.
  assert (Hpriced : priced `sublist_of` rated).
  { match type of Ha1 with
    | res ((if ?c then _ else _) _) = _ => destruct c
    end.
    - invert_bind Ha1. apply lift_ok in Ha1a.
      invert_bind Ha1. injection Ha1 as <-.
      by apply filter_raising_sublist in Ha1a.
    - injection Ha1 as <-. reflexivity. }
  exists valid, priced. split; [exact Ha|]. split; [by etrans|].
  invert_bind H. invert_bind H. injection H as <-.
  destruct priced; [left; by injection Ha2 as <- | right; by apply lift_ok in Ha2].
Qed.

Lemma handler_items step p :
  extracted_items (res (_handle_extract_products step p)) = [] \/
  exists products q,
    res (select_products step products q) =
    Ok (extracted_items (res (_handle_extract_products step p))).
Proof.
  destruct (res (_handle_extract_products step p)) as [items|e] eqn:H; [|by left].
  cbn [extracted_items]. unfold _handle_extract_products in H. cbv zeta in H.
  invert_bind H. invert_bind H. invert_bind H.
  apply try_except_ok in H. destruct H as [H | (e & _ & H)].
  - invert_bind H. right. eauto.
  - invert_bind H. invert_bind H. injection H as <-. by left.
Qed.








(** ** The dispatcher: the events of a step *)

(** The events a handler may emit between ActionStart and ActionComplete. *)
Definition middle (e : event) : Prop :=
  match e with
  | Action _ _ _ | Warning _ | Error _ _ => True
  | _ => False
  end.

Definition emits_only {A} (P : event -> Prop) (m : M A) : Prop :=
  forall p, Forall P (events_of (log (m p))).

Section EmitsOnly.
Context (P : event -> Prop).

Lemma emits_only_ret {A} (a : A) : emits_only P (ret a).
Proof. intros p. constructor. Qed.

Lemma emits_only_raise {A} (e : exn) : emits_only P (@raise A e).
Proof. intros p. constructor. Qed.

Lemma emits_only_lift {A} (r : result A) : emits_only P (lift r).
Proof. intros p. constructor. Qed.

Lemma emits_only_sleep d : emits_only P (sleep d).
Proof. intros p. constructor. Qed.

Lemma emits_only_draw {A} (gen : Page -> Page * A) : emits_only P (draw gen).
Proof. intros p. unfold draw. destruct (gen p). constructor. Qed.

Lemma emits_only_perform c : emits_only P (perform c).
Proof. intros p. rewrite log_perform. constructor. Qed.

Lemma emits_only_send e : P e -> emits_only P (send_event e).
Proof. intros He p. by repeat constructor. Qed.

Lemma emits_only_bind {A B} (m : M A) (k : A -> M B) :
  emits_only P m -> (forall a, emits_only P (k a)) -> emits_only P (bind m k).
Proof.
  intros Hm Hk p. rewrite log_bind, events_of_app. apply Forall_app. split; [apply Hm|].
  destruct (res (m p)); [apply Hk | constructor].
Qed.

Lemma emits_only_try {A} catches (m : M A) (h : exn -> M A) :
  emits_only P m -> (forall e, emits_only P (h e)) ->
  emits_only P (try_except_if catches m h).
Proof.
  intros Hm Hh p. specialize (Hm p). unfold try_except_if.
  destruct (m p) as [[a|e] q l]; [exact Hm|].
  destruct (catches e); [|exact Hm].
  specialize (Hh e q). destruct (h e q) as [r q' l'].
  cbn [log] in *. rewrite events_of_app. apply Forall_app. by split.
Qed.

Lemma emits_only_for_each {A R} (xs : list A) (body : A -> M (option R)) :
  (forall x, emits_only P (body x)) -> emits_only P (for_each xs body).
Proof.
  intros Hbody. induction xs as [|x xs IH]; [apply emits_only_ret|].
  cbn [for_each]. apply emits_only_bind; [apply Hbody|].
  intros [v|]; [apply emits_only_ret | exact IH].
Qed.

End EmitsOnly.

Ltac emits_only_step :=
  first
    [ apply emits_only_ret | apply emits_only_raise | apply emits_only_lift
    | apply emits_only_sleep | apply emits_only_draw | apply emits_only_perform
    | match goal with
      | |- emits_only ?P (perform ?c) => exact (emits_only_perform P c)
      end
    | apply emits_only_send; exact I
    | apply emits_only_bind; [|intros ?]
    | apply emits_only_try; [|intros ?]
    | apply emits_only_for_each; intros ?
    | match goal with
      | |- emits_only _ (if ?b then _ else _) => destruct b
      | |- emits_only _ (match ?x with _ => _ end) => destruct x
      end ].

Ltac emits_only_middle := repeat emits_only_step.

Lemma resolver_silent (P : event -> Prop) selectors timeout :
  emits_only P (_find_selector_with_retry selectors timeout).
Proof.
  unfold _find_selector_with_retry, retry_selector, attempt_selector, try_except.
  emits_only_middle.
Qed.

Lemma dispatch_emits_middle action step : emits_only middle (dispatch action step).
Proof.
  unfold dispatch, _handle_navigate, _handle_wait_for, _handle_type, _handle_click,
    _handle_filter_price, _handle_filter_rating, _handle_extract_products,
    select_products, _handle_fill_form_field, fill_value, _handle_submit_form,
    say, try_except.
  cbv zeta.
  repeat first [ apply resolver_silent | emits_only_step ].
Qed.

(** What closes the events of a step, by the outcome of its handler. *)
Definition step_closing (action : pyval) (r : result (flow * list dict)) : list event :=
  match r with
  | Ok (Next, _) => [ActionComplete action]
  | Ok (Break, _) => []
  | Raise e => [Error (PStr ("Error in " +:+ py_str action +:+ ": " +:+ exn_msg e)) false]
  end.

Lemma run_step_run total idx step results p :
  let action := get step "action" in
  let d := dispatch action step p in
  let o := run_step total idx step results p in
  events_of (log o) =
    ActionStart action (Z.of_nat idx + 1) (Z.of_nat total)
    :: events_of (log d) ++ step_closing action (res d) /\
  res o = Ok (match res d with
              | Ok (Next, extracted) => (Next, results ++ extracted)
              | Ok (Break, _) => (Break, results)
              | Raise _ => (Next, results)
              end) /\
  page_after o = page_after d.
Proof.
  cbv zeta.
  destruct (dispatch (get step "action") step p) as [[[f extracted]|e] q l] eqn:E.
  - cbv beta iota zeta delta [run_step bind try_except try_except_if send_event ret].
    rewrite E. cbn [res log page_after step_closing].
    destruct f; cbn [res log page_after];
      rewrite ?events_of_app, ?app_nil_r; repeat split; try reflexivity;
      by rewrite <- app_assoc.
  - cbv beta iota zeta delta [run_step bind try_except try_except_if send_event ret].
    rewrite E. cbn [res log page_after step_closing].
    rewrite ?events_of_app, ?app_nil_r. repeat split; try reflexivity;
      by rewrite <- app_assoc.
Qed.

Lemma run_steps_cons total idx step rest results p :
  let o := run_step total idx step results p in
  events_of (log (run_steps total idx (step :: rest) results p)) =
    events_of (log o) ++
    match res o with
    | Ok (Next, results') =>
        events_of (log (run_steps total (S idx) rest results' (page_after o)))
    | _ => []
    end /\
  res (run_steps total idx (step :: rest) results p) =
    match res o with
    | Ok (Next, results') => res (run_steps total (S idx) rest results' (page_after o))
    | Ok (Break, results') => Ok results'
    | Raise e => Raise e
    end.
Proof.
  cbv zeta. cbn [run_steps]. rewrite log_bind, res_bind, events_of_app.
  destruct (res (run_step total idx step results p)) as [[[|] results']|e];
    split; reflexivity.
Qed.

Lemma run_steps_returns total idx plan results p :
  exists r, res (run_steps total idx plan results p) = Ok r.
Proof.
  revert idx results p. induction plan as [|step rest IH]; intros idx results p.
  { by exists results. }
  destruct (run_steps_cons total idx step rest results p) as [_ ->].
  destruct (run_step_run total idx step results p) as (_ & -> & _).
  destruct (res (dispatch _ step p)) as [[[|] extracted]|e]; eauto.
Qed.

Lemma dispatch_break action step p extracted :
  res (dispatch action step p) = Ok (Break, extracted) ->
  str_eq action "unsupported" = true.
Proof.
  intros H. unfold dispatch in H.
  repeat match type of H with
         | res ((if ?b then _ else _) _) = _ =>
             destruct b eqn:?;
             [ rewrite res_bind in H;
               match type of H with
               | match ?r with _ => _ end = _ => destruct r; discriminate
               end
             | ]
         end.
  destruct (str_eq action "unsupported"); [reflexivity|].
  rewrite res_bind in H. discriminate.
Qed.

Lemma run_step_next total idx step results p :
  str_eq (get step "action") "unsupported" = false ->
  exists results', res (run_step total idx step results p) = Ok (Next, results').
Proof.
  intros Hsupported.
  destruct (run_step_run total idx step results p) as (_ & -> & _).
  destruct (res (dispatch _ step p)) as [[[|] extracted]|e] eqn:E; eauto.
  apply dispatch_break in E. congruence.
Qed.

Lemma run_step_unsupported total idx step results p :
  str_eq (get step "action") "unsupported" = true ->
  run_step total idx step results p =
  Outcome (Ok (Break, results)) p
    [Emit (ActionStart (get step "action") (Z.of_nat idx + 1) (Z.of_nat total));
     Emit (Error (get_or step "reason" (PStr "Unsupported action")) false)].
Proof.
  intros Hu. unfold run_step. cbv zeta.
  destruct (get step "action") as [| | | |s]; try discriminate.
  cbn [str_eq] in Hu. apply bool_decide_eq_true_1 in Hu. subst s.
  reflexivity.
Qed.

Lemma run_steps_start_indices total plan :
  forall idx results p a i n,
    ActionStart a i n ∈ events_of (log (run_steps total idx plan results p)) ->
    (Z.of_nat idx + 1 <= i <= Z.of_nat idx + Z.of_nat (length plan))%Z.
Proof.
  induction plan as [|step rest IH]; intros idx results p a i n Hin.
  { cbn in Hin. by apply elem_of_nil in Hin. }
  destruct (run_steps_cons total idx step rest results p) as [Hev _].
  rewrite Hev in Hin. clear Hev.
  destruct (run_step_run total idx step results p) as (Hev & Hres & _).
  apply elem_of_app in Hin. destruct Hin as [Hin|Hin].
  - rewrite Hev in Hin. apply elem_of_cons in Hin. destruct Hin as [Heq|Hin].
    { injection Heq as -> -> ->. cbn [length]. lia. }
    apply elem_of_app in Hin. destruct Hin as [Hin|Hin].
    + pose proof (dispatch_emits_middle (get step "action") step p) as Hmid.
      rewrite Forall_forall in Hmid. by apply Hmid in Hin.
    + destruct (res (dispatch _ step p)) as [[[|] extracted]|e]; cbn in Hin.
      * apply list_elem_of_singleton in Hin. discriminate.
      * by apply elem_of_nil in Hin.
      * apply list_elem_of_singleton in Hin. discriminate.
  - rewrite Hres in Hin.
    destruct (res (dispatch _ step p)) as [[[|] extracted]|e];
      try (by apply elem_of_nil in Hin);
      apply IH in Hin; cbn [length]; lia.
Qed.

(** The steps before the first unsupported one run as they would alone;
    the unsupported step adds its ActionStart and one Error, and ends the
    loop. *)
Lemma run_steps_until_unsupported total pre u post :
  str_eq (get u "action") "unsupported" = true ->
  Forall (fun s => str_eq (get s "action") "unsupported" = false) pre ->
  forall idx results p,
    events_of (log (run_steps total idx (pre ++ u :: post) results p)) =
    events_of (log (run_steps total idx pre results p)) ++
    [ActionStart (get u "action") (Z.of_nat (idx + length pre) + 1) (Z.of_nat total);
     Error (get_or u "reason" (PStr "Unsupported action")) false].
Proof.
  intros Hu Hpre. induction Hpre as [|step pre Hstep _ IH]; intros idx results p.
  - cbn [app length]. rewrite Nat.add_0_r.
    destruct (run_steps_cons total idx u post results p) as [-> _].
    rewrite (run_step_unsupported _ _ _ _ _ Hu). reflexivity.
  - cbn [app length].
    destruct (run_steps_cons total idx step (pre ++ u :: post) results p) as [-> _].
    destruct (run_steps_cons total idx step pre results p) as [-> _].
    destruct (run_step_next total idx step results p Hstep) as (results' & ->).
    rewrite IH, <- app_assoc.
    by replace (idx + S (length pre))%nat with (S idx + length pre)%nat by lia.
Qed.

(** What a step hands over to [results]: nothing, or the items its
    extract_products handler returned. *)
Lemma dispatch_extracted action step p f extracted :
  res (dispatch action step p) = Ok (f, extracted) ->
  extracted = [] \/
  extracted = extracted_items (res (_handle_extract_products step p)).
Proof.
  intros H. unfold dispatch in H.
  repeat match type of H with
         | res ((if ?b then _ else _) _) = _ => destruct b
         end;
    rewrite res_bind in H;
    match type of H with
    | match ?r with _ => _ end = _ =>
        destruct r eqn:?; cbn [ret res] in H; [|discriminate];
        injection H as <- <-; solve [by left | by right]
    end.
Qed.

Lemma run_step_adds total idx step results p :
  exists f added,
    res (run_step total idx step results p) = Ok (f, results ++ added) /\
    (added = [] \/
     added = extracted_items (res (_handle_extract_products step p))).
Proof.
  destruct (run_step_run total idx step results p) as (_ & -> & _).
  destruct (res (dispatch _ step p)) as [[[|] extracted]|e] eqn:E.
  - exists Next, extracted. split; [reflexivity|]. by apply dispatch_extracted in E.
  - exists Break, []. rewrite app_nil_r. by split; [|left].
  - exists Next, []. rewrite app_nil_r. by split; [|left].
Qed.

(** C1. Every item an extract_products step adds to the results satisfies
    the validity predicate of the step's site: for a site other than
    "zomato" (generic product) a name of at least 3 characters and a price
    text that parses as an integer of at least 100; for "zomato" (listing)
    a name of at least 3 characters and a price that is empty or parses as
    a positive integer; in both cases rating and url are
    present, holding the page's value or the empty-string sentinel. This
    holds of what the handler returns and of what a round of the
    dispatcher's loop appends to [results]. *)
Theorem extracted_items_are_valid (step : dict) (p : Page) :
  let site := get_or step "site" (PStr "flipkart") in
  Forall (valid_for site) (extracted_items (res (_handle_extract_products step p))) /\
  forall total idx results,
    exists f added,
      res (run_step total idx step results p) = Ok (f, results ++ added) /\
      Forall (valid_for site) added.
Proof.
  cbv zeta.
  assert (Hhandler : Forall (valid_for (get_or step "site" (PStr "flipkart")))
                       (extracted_items (res (_handle_extract_products step p)))).
  { destruct (handler_items step p) as [-> | (products & q & H)]; [constructor|].
    apply select_products_ok in H.
    destruct H as (valid & filtered & Hvalid & Hsub & Hfinal).
    apply validate_products_valid in Hvalid.
    destruct Hfinal as [-> | Hslice]; [constructor|].
    apply slice_to_sublist in Hslice.
    rewrite Forall_forall in Hvalid |- *. intros item Hitem.
    apply Hvalid. eapply elem_of_sublist; [exact Hitem|]. by etrans. }
  split; [exact Hhandler|].
  intros total idx results.
  destruct (run_step_adds total idx step results p) as (f & added & Hres & [-> | ->]);
    exists f; eexists; (split; [exact Hres|]); [constructor | exact Hhandler].
Qed.

(** C2. The items an extract_products step adds to the results are at most
    the requested count, for a count that is a non-negative integer: this
    bounds what the handler returns and what a round of the dispatcher's
    loop appends to [results]. *)
Theorem extracted_items_within_count (step : dict) (p : Page) (n : Z) :
  get_or step "count" (PInt 3) = PInt n ->
  (0 <= n)%Z ->
  (Z.of_nat (length (extracted_items (res (_handle_extract_products step p)))) <= n)%Z /\
  forall total idx results,
    exists f added,
      res (run_step total idx step results p) = Ok (f, results ++ added) /\
      (Z.of_nat (length added) <= n)%Z.
Proof.
  intros Hcount Hn.
  assert (Hhandler :
            (Z.of_nat (length (extracted_items
                                 (res (_handle_extract_products step p)))) <= n)%Z).
  { destruct (handler_items step p) as [-> | (products & q & H)]; [cbn; lia|].
    apply select_products_ok in H.
    destruct H as (valid & filtered & _ & _ & [-> | Hslice]); [cbn; lia|].
    rewrite Hcount in Hslice. by apply slice_to_length in Hslice. }
  split; [exact Hhandler|].
  intros total idx results.
  destruct (run_step_adds total idx step results p) as (f & added & Hres & [-> | ->]);
    exists f; eexists; (split; [exact Hres|]); [cbn; lia | exact Hhandler].
Qed.

(** The events of a whole run: one Error when the session cannot be
    set up, otherwise the two Status events around the events of the loop. *)
Lemma run_action_plan_events plan p :
  (exists msg failed, events_of (log (run_action_plan plan p)) = [Error msg failed]) \/
  (exists q,
     events_of (log (run_action_plan plan p)) =
     Status "Browser initialized" "ready"
     :: events_of (log (run_steps (length plan) 0 plan [] q)) ++
        [Status "Task completed" "completed"]).
Proof.
  unfold run_action_plan, report_failure, try_except, try_except_if, try_finally,
    bind, perform, send_event, ret, sleep.
  destruct (drive Start p) as [p1 [[]|e]]; cbv beta iota delta [negb].
  2:{ left. destruct (bool_decide _); cbv beta iota delta [negb]; eauto. }
  destruct (drive (Launch headless) p1) as [p2 [[]|e]]; cbv beta iota delta [negb].
  2:{ left. eauto. }
  destruct (drive NewContext p2) as [p3 [[]|e]]; cbv beta iota delta [negb].
  2:{ left. destruct (bool_decide _); cbv beta iota delta [negb];
      destruct (drive Close _) as [p4 [[]|e']]; eauto. }
  destruct (drive NewPage p3) as [p4 [[]|e]]; cbv beta iota delta [negb].
  2:{ left. destruct (bool_decide _); cbv beta iota delta [negb];
      destruct (drive Close _) as [p5 [[]|e']]; eauto. }
  right. exists p4.
  destruct (run_steps_returns (length plan) 0 plan [] p4) as (r & Hr).
  destruct (run_steps (length plan) 0 plan [] p4) as [r' q l]. cbn [res log] in *.
  subst r'. cbv beta iota delta [negb].
  destruct (drive Close _) as [p5 [[]|e']]; cbn [log negb];
    rewrite !events_of_app; cbn; by rewrite ?app_nil_r, <- ?app_assoc, ?app_nil_r.
Qed.

(** C4 (as the code has it). Every step the loop reaches emits ActionStart
    first, then the Action / Warning / Error events of its handler, and
    then: ActionComplete when the handler returns normally; the Error event
    "Error in <action>: <message>" and no ActionComplete when the handler
    raises; nothing more for an unsupported step, which ends the loop. The
    events of the loop are the blocks of the steps it reaches, in plan
    order. *)
Theorem step_events_in_order :
  (forall total idx step results p,
     let action := get step "action" in
     let d := dispatch action step p in
     Forall middle (events_of (log d)) /\
     events_of (log (run_step total idx step results p)) =
       ActionStart action (Z.of_nat idx + 1) (Z.of_nat total)
       :: events_of (log d) ++
          match res d with
          | Ok (Next, _) => [ActionComplete action]
          | Ok (Break, _) => []
          | Raise e =>
              [Error (PStr ("Error in " +:+ py_str action +:+ ": " +:+ exn_msg e)) false]
          end) /\
  (forall total plan idx results p,
     exists blocks,
       events_of (log (run_steps total idx plan results p)) = concat blocks /\
       (length blocks <= length plan)%nat /\
       forall k block, blocks !! k = Some block ->
         exists step results' q,
           plan !! k = Some step /\
           block = events_of (log (run_step total (idx + k) step results' q))).
Proof.
  split.
  - intros total idx step results p. cbv zeta. split.
    + apply dispatch_emits_middle.
    + by destruct (run_step_run total idx step results p) as (-> & _).
  - intros total plan. induction plan as [|step rest IH]; intros idx results p.
    { exists []. repeat split; [reflexivity | intros k block Hk; discriminate]. }
    destruct (run_steps_cons total idx step rest results p) as [-> _].
    set (o := run_step total idx step results p).
    assert (Hhead : forall k block tail,
              (events_of (log o) :: tail) !! k = Some block ->
              (forall j, tail !! j = Some block ->
                 exists step' results' q,
                   rest !! j = Some step' /\
                   block = events_of (log (run_step total (S idx + j) step' results' q))) ->
              exists step' results' q,
                (step :: rest) !! k = Some step' /\
                block = events_of (log (run_step total (idx + k) step' results' q))).
    { intros [|k] block tail Hk Htail.
      - injection Hk as <-. exists step, results, p. rewrite Nat.add_0_r. by split.
      - destruct (Htail k Hk) as (step' & results' & q & Hs & Hb).
        exists step', results', q. split; [exact Hs|].
        by replace (idx + S k)%nat with (S idx + k)%nat by lia. }
    destruct (res o) as [[[|] results']|e].
    + destruct (IH (S idx) results' (page_after o)) as (blocks & Hev & Hlen & Hblocks).
      exists (events_of (log o) :: blocks). rewrite Hev.
      repeat split; [cbn; lia|].
      intros k block Hk. apply (Hhead k block blocks Hk).
      intros j Hj. by apply Hblocks.
    + exists [events_of (log o)]. cbn [concat]. repeat split; [cbn; lia|].
      intros k block Hk. apply (Hhead k block [] Hk). intros j Hj. discriminate.
    + exists [events_of (log o)]. cbn [concat]. repeat split; [cbn; lia|].
      intros k block Hk. apply (Hhead k block [] Hk). intros j Hj. discriminate.
Qed.

(** C5. When the loop reaches an unsupported step (no earlier step is
    unsupported), it emits that step's ActionStart, carrying the step's
    index, followed by exactly one Error whose message is the step's
    reason, and stops: the events of the loop end there, and no ActionStart
    of the loop or of the whole run has a larger step index. *)
Theorem unsupported_step_stops_run
    (plan pre post : list dict) (u : dict) (p : Page) :
  plan = pre ++ u :: post ->
  str_eq (get u "action") "unsupported" = true ->
  Forall (fun s => str_eq (get s "action") "unsupported" = false) pre ->
  events_of (log (run_steps (length plan) 0 plan [] p)) =
    events_of (log (run_steps (length plan) 0 pre [] p)) ++
    [ActionStart (get u "action") (Z.of_nat (length pre) + 1) (Z.of_nat (length plan));
     Error (get_or u "reason" (PStr "Unsupported action")) false] /\
  (forall a i n,
     ActionStart a i n ∈ events_of (log (run_steps (length plan) 0 plan [] p)) ->
     (i <= Z.of_nat (length pre) + 1)%Z) /\
  (forall a i n,
     ActionStart a i n ∈ events_of (log (run_action_plan plan p)) ->
     (i <= Z.of_nat (length pre) + 1)%Z).
Proof.
  intros Hplan Hu Hpre.
  assert (Hloop : forall q,
            events_of (log (run_steps (length plan) 0 plan [] q)) =
            events_of (log (run_steps (length plan) 0 pre [] q)) ++
            [ActionStart (get u "action") (Z.of_nat (length pre) + 1)
                         (Z.of_nat (length plan));
             Error (get_or u "reason" (PStr "Unsupported action")) false]).
  { intros q. rewrite Hplan at 2.
    by rewrite (run_steps_until_unsupported _ pre u post Hu Hpre 0 [] q). }
  assert (Hbound : forall q a i n,
            ActionStart a i n ∈ events_of (log (run_steps (length plan) 0 plan [] q)) ->
            (i <= Z.of_nat (length pre) + 1)%Z).
  { intros q a i n Hin. rewrite Hloop in Hin.
    apply elem_of_app in Hin. destruct Hin as [Hin|Hin].
    - apply run_steps_start_indices in Hin. lia.
    - apply elem_of_cons in Hin. destruct Hin as [Heq|Hin].
      + injection Heq as -> -> ->. lia.
      + apply list_elem_of_singleton in Hin. discriminate. }
  split; [apply Hloop|]. split; [apply Hbound|].
  intros a i n Hin.
  destruct (run_action_plan_events plan p) as [(msg & failed & Hev) | (q & Hev)];
    rewrite Hev in Hin.
  - apply list_elem_of_singleton in Hin. discriminate.
  - apply elem_of_cons in Hin. destruct Hin as [Heq|Hin]; [discriminate|].
    apply elem_of_app in Hin. destruct Hin as [Hin|Hin]; [by apply Hbound in Hin|].
    apply list_elem_of_singleton in Hin. discriminate.
Qed.

(** ** Filling a form field *)

Lemma log_draw {A} (gen : Page -> Page * A) p : log (draw gen p) = [].
Proof. unfold draw. by destruct (gen p). Qed.

Lemma res_draw {A} (gen : Page -> Page * A) p : res (draw gen p) = Ok (snd (gen p)).
Proof. unfold draw. by destruct (gen p). Qed.

Lemma fill_value_quiet step p : log (fill_value step p) = [].
Proof.
  unfold fill_value. cbv zeta.
  destruct (negb _ || _); [|reflexivity].
  rewrite log_bind. cbn [lift log res page_after app].
  destruct (rbind _ _) as [lowered|e]; [|reflexivity].
  destruct (contains "email" lowered).
  { rewrite log_bind, log_draw, res_draw. reflexivity. }
  rewrite log_bind. cbn [lift log res page_after app].
  destruct (contains "phone" lowered);
    rewrite log_bind, log_draw, res_draw; reflexivity.
Qed.

Lemma fill_value_named step name p :
  get step "field_name" = PStr name ->
  exists value, res (fill_value step p) = Ok value.
Proof.
  intros Hname. unfold fill_value. cbv zeta. rewrite Hname. cbn [as_str rbind].
  destruct (negb _ || _); [|by eexists].
  rewrite res_bind. cbn [lift res page_after].
  destruct (contains "email" (lower name)).
  { rewrite res_bind, res_draw. by eexists. }
  rewrite res_bind. cbn [lift res page_after].
  destruct (contains "phone" (lower name)); rewrite res_bind, res_draw; by eexists.
Qed.

Lemma events_of_silent {A} (m : M A) p :
  emits_only (fun _ => False) m -> events_of (log (m p)) = [].
Proof.
  intros H. specialize (H p). destruct (events_of (log (m p))) as [|e l]; [reflexivity|].
  by apply Forall_cons in H as [[] _].
Qed.

Lemma resolver_events selectors timeout p :
  events_of (log (_find_selector_with_retry selectors timeout p)) = [].
Proof. apply events_of_silent, resolver_silent. Qed.

Lemma resolver_never selectors timeout p :
  (forall sel q, is_ok (snd (drive (WaitForSelector sel timeout) q)) = false) ->
  res (_find_selector_with_retry selectors timeout p) = Ok None /\
  calls_of (log (_find_selector_with_retry selectors timeout p)) =
  map failed (schedule timeout (candidates selectors)).
Proof.
  intros Hnever. unfold _find_selector_with_retry.
  destruct (resolver_cases timeout (candidates selectors) p)
    as [[Hr Hl] | (pre & c & rest & j & h & p0 & _ & _ & _ & _ & E)].
  - split; [exact Hr|]. rewrite Hl. apply calls_of_exhausted.
  - specialize (Hnever c p0). rewrite E in Hnever. discriminate.
Qed.

Lemma schedule_waits timeout cands c :
  c ∈ schedule timeout cands -> exists sel, c = WaitForSelector sel timeout.
Proof.
  unfold schedule. induction cands as [|a cands IH]; cbn [flat_map]; intros Hin.
  { by apply elem_of_nil in Hin. }
  apply elem_of_app in Hin. destruct Hin as [Hin|Hin]; [|by apply IH].
  unfold attempts_on in Hin. apply list_elem_of_In, repeat_spec in Hin. eauto.
Qed.

Lemma dispatch_fill_form_field step :
  dispatch (PStr "fill_form_field") step =
  bind (_handle_fill_form_field step) (fun _ => ret (Next, [])).
Proof. reflexivity. Qed.

(** A resolver that returns none has made the whole schedule of waits, all
    of them failed. *)
Lemma resolver_none_waits selectors timeout p :
  res (_find_selector_with_retry selectors timeout p) = Ok None ->
  calls_of (log (_find_selector_with_retry selectors timeout p)) =
  map failed (schedule timeout (candidates selectors)).
Proof.
  unfold _find_selector_with_retry. intros Hnone.
  destruct (resolver_cases timeout (candidates selectors) p)
    as [[_ Hl] | (pre & c & rest & j & h & p0 & _ & _ & Hr & _)].
  - rewrite Hl. apply calls_of_exhausted.
  - rewrite Hr in Hnone. discriminate.
Qed.

(** C9 (as the code has it). When none of the four candidate selectors of
    a fill_form_field step resolves, that is when the resolver run on them
    returns none, the handler emits the Warning "Field not found:
    <field_name>" and returns normally: it raises nothing, issues no fill,
    and the dispatcher emits ActionComplete and no Error. Nothing is
    assumed of any other selector of the page. *)
Theorem missing_field_warns_and_completes
    (step : dict) (name : string) (total idx : nat) (results : list dict) (p : Page) :
  get step "action" = PStr "fill_form_field" ->
  get step "field_name" = PStr name ->
  res (_find_selector_with_retry (join "," (field_selectors (PStr name))) (PInt 10000)
         (page_after (fill_value step p))) = Ok None ->
  let o := _handle_fill_form_field step p in
  res o = Ok tt /\
  events_of (log o) = [Warning ("Field not found: " +:+ name)] /\
  (forall c ok, (c, ok) ∈ calls_of (log o) ->
     exists sel, c = WaitForSelector sel (PInt 10000)) /\
  events_of (log (run_step total idx step results p)) =
    [ActionStart (PStr "fill_form_field") (Z.of_nat idx + 1) (Z.of_nat total);
     Warning ("Field not found: " +:+ name);
     ActionComplete (PStr "fill_form_field")].
Proof.
  intros Haction Hname Hnone. cbv zeta.
  destruct (fill_value_named step name p Hname) as (value & Hvalue).
  set (p1 := page_after (fill_value step p)) in *.
  pose proof (resolver_none_waits _ _ _ Hnone) as Hcalls.
  assert (Hres : res (_handle_fill_form_field step p) = Ok tt).
  { unfold _handle_fill_form_field. cbv zeta. rewrite Hname.
    rewrite res_bind, Hvalue, res_bind. fold p1. rewrite Hnone. reflexivity. }
  assert (Hlog : log (_handle_fill_form_field step p) =
                 log (_find_selector_with_retry (join "," (field_selectors (PStr name)))
                                                (PInt 10000) p1) ++
                 [Emit (Warning ("Field not found: " +:+ name))]).
  { unfold _handle_fill_form_field. cbv zeta. rewrite Hname.
    rewrite log_bind, Hvalue, fill_value_quiet, log_bind. fold p1. rewrite Hnone.
    reflexivity. }
  assert (Hev : events_of (log (_handle_fill_form_field step p)) =
                [Warning ("Field not found: " +:+ name)]).
  { rewrite Hlog, events_of_app, resolver_events. reflexivity. }
  split; [exact Hres|]. split; [exact Hev|]. split.
  - intros c ok Hin. rewrite Hlog, calls_of_app, Hcalls in Hin.
    cbn in Hin. rewrite app_nil_r in Hin.
    apply list_elem_of_fmap in Hin. destruct Hin as (c' & Heq & Hin).
    injection Heq as -> ->. by apply schedule_waits in Hin.
  - destruct (run_step_run total idx step results p) as (-> & _).
    rewrite Haction, dispatch_fill_form_field, log_bind, res_bind, Hres, events_of_app, Hev.
    reflexivity.
Qed.

(** C10. Whenever the resolver finds one of the candidates, the fill that
    follows is issued on the first candidate, input[name='<field_name>'],
    whichever candidate resolved and whatever handle was returned; when
    that fill raises, the handler raises the same exception. *)
Theorem fill_goes_to_first_selector
    (step : dict) (value : pyval) (h : Handle) (p : Page) :
  let field_name := get step "field_name" in
  let first := "input[name='" +:+ py_str field_name +:+ "']" in
  let found :=
    _find_selector_with_retry (join "," (field_selectors field_name)) (PInt 10000)
                              (page_after (fill_value step p)) in
  let fill := Fill first value None in
  let o := _handle_fill_form_field step p in
  res (fill_value step p) = Ok value ->
  res found = Ok (Some h) ->
  calls_of (log o) =
    calls_of (log found) ++ [(fill, is_ok (snd (drive fill (page_after found))))] /\
  match snd (drive fill (page_after found)) with
  | Ok _ =>
      res o = Ok tt /\
      events_of (log o) =
        [Action "fill_form_field" ("Filled " +:+ py_str field_name) NoExtra]
  | Raise e => res o = Raise e /\ events_of (log o) = []
  end.
Proof.
  cbv zeta. intros Hvalue Hfound.
  set (found := _find_selector_with_retry _ _ _) in *.
  set (fill := Fill _ value None).
  assert (Hlog : log (_handle_fill_form_field step p) =
                 log found ++ [Did fill (is_ok (snd (drive fill (page_after found))))] ++
                 match snd (drive fill (page_after found)) with
                 | Ok _ => [Emit (Action "fill_form_field"
                                   ("Filled " +:+ py_str (get step "field_name")) NoExtra)]
                 | Raise _ => []
                 end).
  { unfold _handle_fill_form_field. cbv zeta.
    rewrite log_bind, Hvalue, fill_value_quiet, log_bind. fold found. rewrite Hfound.
    cbn [app hd field_selectors]. fold fill.
    rewrite log_bind, log_perform, res_perform.
    by destruct (snd (drive fill (page_after found))). }
  assert (Hres : res (_handle_fill_form_field step p) =
                 match snd (drive fill (page_after found)) with
                 | Ok _ => Ok tt
                 | Raise e => Raise e
                 end).
  { unfold _handle_fill_form_field. cbv zeta.
    rewrite res_bind, Hvalue, res_bind. fold found. rewrite Hfound.
    cbn [hd field_selectors]. fold fill.
    rewrite res_bind, res_perform.
    by destruct (snd (drive fill (page_after found))). }
  split.
  - rewrite Hlog, !calls_of_app.
    destruct (snd (drive fill (page_after found))); cbn; by rewrite ?app_nil_r.
  - rewrite Hres, Hlog, !events_of_app. subst found. rewrite resolver_events.
    destruct (snd (drive fill _)); split; reflexivity.
Qed.

(** ** Further facts: the session *)

(** The calls that set up and tear down the session. *)
Definition session_call (c : call) : bool :=
  match c with
  | Start | Launch _ | NewContext | NewPage | Close => true
  | _ => false
  end.

(** A log entry that is not a session call. *)
Definition page_entry (e : entry) : Prop :=
  match e with
  | Did c _ => session_call c = false
  | _ => True
  end.

Definition logs_only {A} (P : entry -> Prop) (m : M A) : Prop :=
  forall p, Forall P (log (m p)).

Section LogsOnly.
Context (P : entry -> Prop).

Lemma logs_only_ret {A} (a : A) : logs_only P (ret a).
Proof. intros p. constructor. Qed.

Lemma logs_only_raise {A} (e : exn) : logs_only P (@raise A e).
Proof. intros p. constructor. Qed.

Lemma logs_only_lift {A} (r : result A) : logs_only P (lift r).
Proof. intros p. constructor. Qed.

Lemma logs_only_sleep d : P (Slept d) -> logs_only P (sleep d).
Proof. intros H p. by repeat constructor. Qed.

Lemma logs_only_draw {A} (gen : Page -> Page * A) : logs_only P (draw gen).
Proof. intros p. rewrite log_draw. constructor. Qed.

Lemma logs_only_perform c : (forall ok, P (Did c ok)) -> logs_only P (perform c).
Proof. intros H p. rewrite log_perform. by repeat constructor. Qed.

Lemma logs_only_send e : P (Emit e) -> logs_only P (send_event e).
Proof. intros H p. by repeat constructor. Qed.

Lemma logs_only_bind {A B} (m : M A) (k : A -> M B) :
  logs_only P m -> (forall a, logs_only P (k a)) -> logs_only P (bind m k).
Proof.
  intros Hm Hk p. rewrite log_bind. apply Forall_app. split; [apply Hm|].
  destruct (res (m p)); [apply Hk | constructor].
Qed.

Lemma logs_only_try {A} catches (m : M A) (h : exn -> M A) :
  logs_only P m -> (forall e, logs_only P (h e)) ->
  logs_only P (try_except_if catches m h).
Proof.
  intros Hm Hh p. specialize (Hm p). unfold try_except_if.
  destruct (m p) as [[a|e] q l]; [exact Hm|].
  destruct (catches e); [|exact Hm].
  specialize (Hh e q). destruct (h e q) as [r q' l'].
  cbn [log] in *. apply Forall_app. by split.
Qed.

Lemma logs_only_for_each {A R} (xs : list A) (body : A -> M (option R)) :
  (forall x, logs_only P (body x)) -> logs_only P (for_each xs body).
Proof.
  intros Hbody. induction xs as [|x xs IH]; [apply logs_only_ret|].
  cbn [for_each]. apply logs_only_bind; [apply Hbody|].
  intros [v|]; [apply logs_only_ret | exact IH].
Qed.

End LogsOnly.

Ltac logs_only_step side :=
  first
    [ apply logs_only_ret | apply logs_only_raise | apply logs_only_lift
    | apply logs_only_draw
    | apply logs_only_sleep; side
    | apply logs_only_send; side
    | match goal with
      | |- logs_only ?P (perform ?c) => apply (logs_only_perform P c); intros ?; side
      end
    | apply logs_only_bind; [|intros ?]
    | apply logs_only_try; [|intros ?]
    | apply logs_only_for_each; intros ?
    | match goal with
      | |- logs_only _ (if ?b then _ else _) => destruct b
      | |- logs_only _ (match ?x with _ => _ end) => destruct x
      end ].

Lemma resolver_page_only selectors timeout :
  logs_only page_entry (_find_selector_with_retry selectors timeout).
Proof.
  unfold _find_selector_with_retry, retry_selector, attempt_selector, try_except.
  repeat logs_only_step ltac:(first [exact I | reflexivity]).
Qed.

Lemma dispatch_page_only action step : logs_only page_entry (dispatch action step).
Proof.
  unfold dispatch, _handle_navigate, _handle_wait_for, _handle_type, _handle_click,
    _handle_filter_price, _handle_filter_rating, _handle_extract_products,
    select_products, _handle_fill_form_field, fill_value, _handle_submit_form,
    say, try_except.
  cbv zeta.
  repeat first [ apply resolver_page_only
               | logs_only_step ltac:(first [exact I | reflexivity]) ].
Qed.

Lemma run_steps_page_only total plan :
  forall idx results, logs_only page_entry (run_steps total idx plan results).
Proof.
  induction plan as [|step rest IH]; intros idx results; cbn [run_steps].
  { apply logs_only_ret. }
  apply logs_only_bind.
  - unfold run_step, try_except. cbv zeta.
    repeat first [ apply dispatch_page_only
                 | logs_only_step ltac:(first [exact I | reflexivity]) ].
  - intros [[|] results']; [apply IH | apply logs_only_ret].
Qed.

(** X1. When the browser cannot be launched, the run makes no further
    call (no context, no page, no close, no sleep), emits the one Error
    event "Failed to launch browser: ..." and returns no results. *)
Theorem launch_failure_ends_the_run (plan : list dict) (p p1 p2 : Page) (e : exn) :
  drive Start p = (p1, Ok tt) ->
  drive (Launch headless) p1 = (p2, Raise e) ->
  run_action_plan plan p =
  Outcome (Ok []) p2
    [Did Start true; Did (Launch headless) false;
     Emit (Error (PStr ("Failed to launch browser: " +:+ exn_msg e +:+
                        ". Install browsers: playwright install chromium"))
                 false)].
Proof.
  intros Hstart Hlaunch.
  unfold run_action_plan, report_failure, try_except, try_except_if, try_finally,
    bind, perform, send_event, ret, sleep.
  rewrite Hstart. cbv beta iota delta [negb]. rewrite Hlaunch. reflexivity.
Qed.

(** The log and the result of a run whose browser was launched, in this
    model, where the sink accepts every event. *)
Lemma launched_session_log (plan : list dict) (p p1 p2 : Page) :
  drive Start p = (p1, Ok tt) ->
  drive (Launch headless) p1 = (p2, Ok tt) ->
  let o := run_action_plan plan p in
  exists before closed,
    log o = before ++ [Did Close closed] /\
    (forall ok, Did Close ok ∉ before) /\
    (Did NewPage true ∈ before -> exists earlier, before = earlier ++ [Slept 1%Q]) /\
    (closed = true -> exists results, res o = Ok results) /\
    (closed = false -> exists e, res o = Raise e).
Proof.
  intros Hstart Hlaunch. cbv zeta.
  assert (Hshort : forall a b c d closed (r : result (list dict)),
            a <> Did NewPage true -> b <> Did NewPage true ->
            c <> Did NewPage true -> d <> Did NewPage true ->
            (forall ok, a <> Did Close ok) -> (forall ok, b <> Did Close ok) ->
            (forall ok, c <> Did Close ok) -> (forall ok, d <> Did Close ok) ->
            (closed = true -> exists results, r = Ok results) ->
            (closed = false -> exists e, r = Raise e) ->
            exists before closed',
              [a; b; c; d; Did Close closed] = before ++ [Did Close closed'] /\
              (forall ok, Did Close ok ∉ before) /\
              (Did NewPage true ∈ before -> exists earlier, before = earlier ++ [Slept 1%Q]) /\
              (closed' = true -> exists results, r = Ok results) /\
              (closed' = false -> exists e, r = Raise e)).
  { intros a b c d closed r Ha Hb Hc Hd Ha' Hb' Hc' Hd' Hok Hraise.
    exists [a; b; c; d], closed. split; [reflexivity|].
    split; [|split; [|by split]].
    - intros ok Hin. apply elem_of_cons in Hin as [Hin|Hin]; [by eapply Ha'|].
      apply elem_of_cons in Hin as [Hin|Hin]; [by eapply Hb'|].
      apply elem_of_cons in Hin as [Hin|Hin]; [by eapply Hc'|].
      apply elem_of_cons in Hin as [Hin|Hin]; [by eapply Hd'|].
      by apply elem_of_nil in Hin.
    - intros Hin. apply elem_of_cons in Hin as [Hin|Hin]; [by destruct Ha|].
      apply elem_of_cons in Hin as [Hin|Hin]; [by destruct Hb|].
      apply elem_of_cons in Hin as [Hin|Hin]; [by destruct Hc|].
      apply elem_of_cons in Hin as [Hin|Hin]; [by destruct Hd|].
      by apply elem_of_nil in Hin. }
  unfold run_action_plan, report_failure, try_except, try_except_if, try_finally,
    bind, perform, send_event, ret, sleep.
  rewrite Hstart. cbv beta iota delta [negb]. rewrite Hlaunch. cbv beta iota delta [negb].
  destruct (drive NewContext p2) as [p3 [[]|e]]; cbv beta iota delta [negb].
  2:{ destruct (bool_decide _); cbv beta iota;
        destruct (drive Close p3) as [p4 [[]|e']]; cbn [log res is_ok app];
        apply Hshort; try discriminate; eauto. }
  destruct (drive NewPage p3) as [p4 [[]|e]]; cbv beta iota delta [negb].
  2:{ destruct (bool_decide _); cbv beta iota;
        destruct (drive Close p4) as [p5 [[]|e']]; cbn [log res is_ok app].
      all: match goal with
           | |- exists before closed, [?a; ?b; ?c; ?d; ?x; Did Close ?ok] = _ /\ _ =>
               exists [a; b; c; d; x], ok
           end.
      all: split; [reflexivity|]; split; [|split; [|split]]; eauto; try discriminate.
      all: try (intros ok Hin); try (intros Hin);
        repeat (apply elem_of_cons in Hin as [Hin|Hin]; [discriminate|]);
        by apply elem_of_nil in Hin. }
  pose proof (run_steps_page_only (length plan) plan 0 [] p4) as Hpage.
  destruct (run_steps_returns (length plan) 0 plan [] p4) as (r & Hr).
  destruct (run_steps (length plan) 0 plan [] p4) as [r' q l]. cbn [res log] in *.
  subst r'. cbv beta iota.
  exists ([Did Start true; Did (Launch headless) true; Did NewContext true;
           Did NewPage true; Emit (Status "Browser initialized" "ready")] ++ l ++
          [Emit (Status "Task completed" "completed"); Slept 1%Q]).
  destruct (drive Close (elapse 1 q)) as [p5 [[]|e']]; cbn [log res is_ok];
    eexists; (split; [cbn [app]; rewrite <- ?app_assoc; reflexivity|]);
    (split; [|split; [|split]]); eauto; try discriminate;
    try (intros _;
         exists ([Did Start true; Did (Launch headless) true; Did NewContext true;
                  Did NewPage true; Emit (Status "Browser initialized" "ready")] ++ l ++
                 [Emit (Status "Task completed" "completed")]);
         by rewrite <- !app_assoc);
    intros ok Hin;
    repeat (apply elem_of_cons in Hin as [Hin|Hin]; [discriminate|]);
    apply elem_of_app in Hin as [Hin|Hin];
    try (rewrite Forall_forall in Hpage; apply Hpage in Hin; discriminate);
    repeat (apply elem_of_cons in Hin as [Hin|Hin]; [discriminate|]);
    by apply elem_of_nil in Hin.
Qed.

(** X2. Once the browser is launched, [browser.close()] is called exactly
    once, as the last call of the run, whatever the plan and whatever
    fails in between; when the page was created it is preceded by the
    one-second grace sleep. If that close raises, so does the run. *)
Theorem launched_browser_is_closed_last (plan : list dict) (p p1 p2 : Page) :
  drive Start p = (p1, Ok tt) ->
  drive (Launch headless) p1 = (p2, Ok tt) ->
  let o := run_action_plan plan p in
  exists before closed,
    log o = before ++ [Did Close closed] /\
    (forall ok, Did Close ok ∉ before) /\
    (Did NewPage true ∈ before -> exists earlier, before = earlier ++ [Slept 1%Q]) /\
    (closed = false -> exists e, res o = Raise e).
Proof.
  intros Hstart Hlaunch. cbv zeta.
  destruct (launched_session_log plan p p1 p2 Hstart Hlaunch)
    as (before & closed & Hlog & Hclose & Hsleep & _ & Hraise).
  exists before, closed. auto.
Qed.

(** ** Further facts: the step handlers *)

(** X3. Navigation: a timeout of [page.goto] or of the title read is
    reported as a Warning and the step goes on; any other driver error
    fails the step; on success the title is reported, cut to 50
    characters. *)
Theorem navigate_timeout_is_a_warning (step : dict) (p : Page) :
  let url := get step "url" in
  let goto := Goto url (get_or step "wait_until" (PStr "networkidle")) 30000 in
  let start := Action "navigate" ("Navigating to " +:+ py_str url) (Target url) in
  let warn := Warning "Navigation timeout, continuing..." in
  let o := _handle_navigate step p in
  match snd (drive goto p) with
  | Raise e =>
      calls_of (log o) = [(goto, false)] /\
      if is_timeout e
      then res o = Ok tt /\ events_of (log o) = [start; warn]
      else res o = Raise e /\ events_of (log o) = [start]
  | Ok _ =>
      match snd (drive Title (fst (drive goto p))) with
      | Ok title =>
          res o = Ok tt /\
          events_of (log o) =
            [start; Action "navigate" ("✓ Loaded: " +:+ py_take 50 title) NoExtra]
      | Raise e =>
          if is_timeout e
          then res o = Ok tt /\ events_of (log o) = [start; warn]
          else res o = Raise e /\ events_of (log o) = [start]
      end
  end.
Proof.
  cbv zeta.
  unfold _handle_navigate, say, try_except_if, bind, perform, send_event, ret.
  cbv zeta.
  destruct (drive (Goto _ _ _) p) as [p1 [u|e]]; cbv beta iota; cbn [fst snd].
  - destruct (drive Title p1) as [p2 [title|e]]; cbv beta iota; cbn [fst snd].
    + split; reflexivity.
    + destruct (is_timeout e); cbv beta iota; split; reflexivity.
  - split; [by destruct (is_timeout e)|].
    destruct (is_timeout e); cbv beta iota; split; reflexivity.
Qed.

Lemma resolver_returns selectors timeout p :
  exists r, res (_find_selector_with_retry selectors timeout p) = Ok r.
Proof.
  unfold _find_selector_with_retry.
  destruct (resolver_cases timeout (candidates selectors) p)
    as [[Hr _] | (pre & c & rest & j & h & p0 & _ & _ & Hr & _)]; eauto.
Qed.

(** X4. wait_for: a selector that is not a string (a missing key) fails
    the step before any driver call; otherwise the step never fails, and
    when no candidate resolves it emits the Warning "Element not found:"
    with the first 50 characters of the selector. *)
Theorem wait_for_warns_when_nothing_resolves (step : dict) (p : Page) :
  let o := _handle_wait_for step p in
  match get step "selector" with
  | PStr selector =>
      let found :=
        _find_selector_with_retry selector (get_or step "timeout" (PInt 10000)) p in
      res o = Ok tt /\
      calls_of (log o) = calls_of (log found) /\
      events_of (log o) =
        match res found with
        | Ok (Some _) => []
        | _ => [Warning ("Element not found: " +:+ py_take 50 selector)]
        end
  | _ => exists e, o = Outcome (Raise e) p [] /\ exn_class e = "AttributeError"
  end.
Proof.
  cbv zeta. unfold _handle_wait_for. cbv zeta.
  destruct (get step "selector") as [| | | |selector];
    try (eexists; split; reflexivity).
  destruct (resolver_returns selector (get_or step "timeout" (PInt 10000)) p) as (r & Hr).
  rewrite res_bind, log_bind. cbn [lift as_str res log page_after app].
  rewrite res_bind, log_bind, Hr.
  destruct r as [h|]; cbn [ret res log str_prefix lift].
  - rewrite app_nil_r. repeat split; by rewrite ?resolver_events.
  - rewrite res_bind, log_bind. cbn [lift res log page_after send_event app].
    rewrite calls_of_app, events_of_app, resolver_events. cbn.
    by rewrite app_nil_r.
Qed.

(** What the type handler may leave in the log once its input is found. *)
Definition typing_entry (selector : string) (e : entry) : Prop :=
  match e with
  | Did (Fill s _ _) _ | Did (Click s _) _ | Did (TypeText s _ _) _ => s = selector
  | Emit (Action _ _ _) => True
  | _ => False
  end.

Lemma first_selector_alone raw :
  candidates (strip (hd "" (split_on "," raw))) = [strip (hd "" (split_on "," raw))].
Proof.
  unfold candidates.
  rewrite split_on_whole by apply mentions_strip, split_on_first.
  cbn [map]. by rewrite strip_idem.
Qed.

(** The resolver on a selector list of one candidate. *)
Lemma resolver_single selectors c timeout p :
  candidates selectors = [c] ->
  let o := _find_selector_with_retry selectors timeout p in
  (res o = Ok None /\ log o = exhausted_log timeout c) \/
  (exists misses h, (misses < MAX_RETRIES)%nat /\ res o = Ok (Some h) /\
     log o = success_log timeout c misses).
Proof.
  intros Hc. cbv zeta. unfold _find_selector_with_retry.
  destruct (resolver_cases timeout (candidates selectors) p)
    as [[Hr Hl] | (pre & c' & rest & j & h & p0 & Hsplit & Hj & Hr & Hl & _)].
  - left. split; [exact Hr|]. rewrite Hl, Hc. cbn [flat_map]. apply app_nil_r.
  - right. exists j, h. rewrite Hc in Hsplit.
    destruct pre as [|a pre]; cbn in Hsplit.
    + injection Hsplit as -> _. by repeat split.
    + injection Hsplit as _ Hnil. by destruct pre.
Qed.

(** X5. The type handler waits for the first selector of the
    comma-separated list only, three times at most. If it never shows up
    the step fails with "Input not found: <selector>" and no fill, click or
    keystroke is issued; otherwise everything that follows (fill, click,
    typing) is addressed to that same selector. *)
Theorem type_uses_first_selector_only (step : dict) (raw : string) (p : Page) :
  get_or step "selector" (PStr "") = PStr raw ->
  let selector := strip (hd "" (split_on "," raw)) in
  let o := _handle_type step p in
  (res o = Raise (Exn "Exception" ("Input not found: " +:+ selector)) /\
   log o = exhausted_log (PInt 10000) selector) \/
  (exists misses rest, (misses < MAX_RETRIES)%nat /\
     log o = success_log (PInt 10000) selector misses ++ rest /\
     Forall (typing_entry selector) rest).
Proof.
  intros Hraw. cbv zeta. unfold _handle_type. rewrite Hraw.
  rewrite res_bind, log_bind. cbn [lift as_str res log page_after app].
  set (selector := strip (hd "" (split_on "," raw))).
  rewrite res_bind, log_bind.
  destruct (resolver_single selector selector (PInt 10000) p (first_selector_alone raw))
    as [[Hr Hl] | (j & h & Hj & Hr & Hl)]; rewrite Hr, Hl.
  - left. cbn [raise res log]. by rewrite app_nil_r.
  - right. exists j. eexists. split; [exact Hj|]. split; [reflexivity|].
    match goal with |- Forall _ (log (?m ?q)) => generalize q; change (logs_only (typing_entry selector) m) end.
    unfold say, try_except.
    repeat logs_only_step ltac:(first [exact I | reflexivity]).
Qed.

(** X6. For a field name without a comma, the candidates the resolver
    tries for a form field are the handler's four selectors in their
    order, the last one stripped of trailing blanks; the fill is addressed
    to the first of them. *)
Theorem field_candidates_in_order (field_name : pyval) :
  mentions "," (py_str field_name) = false ->
  candidates (join "," (field_selectors field_name)) =
    ["input[name='" +:+ py_str field_name +:+ "']";
     "input[id='" +:+ py_str field_name +:+ "']";
     "input[placeholder*='" +:+ py_str field_name +:+ "']";
     "#" +:+ rstrip (py_str field_name)] /\
  hd "" (candidates (join "," (field_selectors field_name))) =
    hd "" (field_selectors field_name).
Proof.
  intros Hname.
  assert (Hcands : candidates (join "," (field_selectors field_name)) =
                   map strip (field_selectors field_name)).
  { unfold candidates. f_equal. apply (split_on_join ","%char).
    unfold field_selectors.
    repeat (apply Forall_cons; split); try (by apply Forall_nil);
      rewrite ?mentions_app, Hname; reflexivity. }
  rewrite Hcands. unfold field_selectors. cbn [map hd].
  rewrite !(strip_between "i") by done.
  assert (Hhash : strip ("#" +:+ py_str field_name) = "#" +:+ rstrip (py_str field_name))
    by exact (strip_after "#" _ eq_refl).
  by rewrite Hhash.
Qed.

(** A click of the click handler that raised. *)
Definition missed_click (sel : string) : entry := Did (Click sel (Some 5000%Z)) false.

Lemma click_once (sel : string) p :
  try_except (perform (Click sel (Some 5000%Z)) ;; ret (Some tt)) (fun _ => ret None) p =
  match drive (Click sel (Some 5000%Z)) p with
  | (q, Ok _) => Outcome (Ok (Some tt)) q [Did (Click sel (Some 5000%Z)) true]
  | (q, Raise _) => Outcome (Ok None) q [missed_click sel]
  end.
Proof.
  unfold try_except, try_except_if, bind, perform, ret.
  by destruct (drive (Click sel (Some 5000%Z)) p) as [q [[]|e]].
Qed.

(** The loop of the click handler: the selectors are clicked in order
    until one click succeeds. *)
Lemma click_loop_cases (sels : list string) p :
  let o := for_each sels (fun sel =>
             try_except (perform (Click sel (Some 5000%Z)) ;; ret (Some tt))
                        (fun _ => ret None)) p in
  (res o = Ok None /\ log o = map missed_click sels) \/
  (exists pre c post, sels = pre ++ c :: post /\ res o = Ok (Some tt) /\
     log o = map missed_click pre ++ [Did (Click c (Some 5000%Z)) true]).
Proof.
  revert p. induction sels as [|a sels IH]; intros p; cbv zeta.
  { left. split; reflexivity. }
  rewrite for_each_cons. cbv zeta. rewrite click_once.
  destruct (drive (Click a (Some 5000%Z)) p) as [q [[]|e]]; cbn [res log page_after is_ok app].
  - right. exists [], a, sels. repeat split.
  - destruct (IH q) as [[Hr Hl] | (pre & c & post & -> & Hr & Hl)].
    + left. split; [exact Hr|]. by rewrite Hl.
    + right. exists (a :: pre), c, post. split; [reflexivity|]. split; [exact Hr|].
      by rewrite Hl.
Qed.

(** X7. The click handler clicks the candidates in order until one click
    succeeds and reports "Clicked"; when every click fails it presses
    Enter and reports "Pressed Enter". A failed click never fails the
    step; a failed key press does. *)
Theorem click_falls_back_to_enter (step : dict) (raw : string) (p : Page) :
  get_or step "selector" (PStr "") = PStr raw ->
  let o := _handle_click step p in
  exists tail,
    events_of tail = [] /\
    (truthy (get step "wait_after") = false -> tail = []) /\
    ((exists pre c post,
        candidates raw = pre ++ c :: post /\
        log o = map missed_click pre ++
                [Did (Click c (Some 5000%Z)) true;
                 Emit (Action "click" "Clicked" NoExtra)] ++ tail) \/
     (log o = map missed_click (candidates raw) ++
              [Did (Press "Enter") true;
               Emit (Action "click" "Pressed Enter" NoExtra)] ++ tail) \/
     (log o = map missed_click (candidates raw) ++ [Did (Press "Enter") false] /\
      exists e, res o = Raise e)).
Proof.
  intros Hraw. cbv zeta. unfold _handle_click. rewrite Hraw.
  rewrite res_bind, log_bind. cbn [lift as_str res log page_after app].
  fold (candidates raw). rewrite res_bind, log_bind.
  destruct (click_loop_cases (candidates raw) p)
    as [[Hr Hl] | (pre & c & post & Hsplit & Hr & Hl)]; rewrite Hr, Hl;
    match goal with |- context [page_after ?o] => generalize (page_after o) end;
    intros q; unfold bind, perform, say, send_event, sleep, ret.
  - destruct (drive (Press "Enter") q) as [q1 [[]|e]]; cbv beta iota; cbn [is_ok].
    2:{ exists []. split; [reflexivity|]. split; [reflexivity|].
        right. right. cbn [res log]. split; [reflexivity | by eexists]. }
    destruct (truthy (get step "wait_after")); cbv beta iota.
    2:{ exists []. split; [reflexivity|]. split; [reflexivity|].
        right. left. reflexivity. }
    destruct (drive (WaitForLoadState _ _) q1) as [q2 [[]|e]]; cbv beta iota;
      cbn [res log is_ok app];
      eexists; (split; [|split; [discriminate|right; left; reflexivity]]); reflexivity.
  - destruct (truthy (get step "wait_after")); cbv beta iota.
    2:{ exists []. split; [reflexivity|]. split; [reflexivity|].
        left. exists pre, c, post. split; [exact Hsplit|]. cbn [res log app].
        by rewrite <- app_assoc. }
    destruct (drive (WaitForLoadState _ _) q) as [q2 [[]|e]]; cbv beta iota;
      cbn [res log is_ok app];
      eexists; (split; [|split; [discriminate|left; exists pre, c, post;
                                 split; [exact Hsplit|]; rewrite <- app_assoc; reflexivity]]);
      reflexivity.
Qed.

(** A handler wrapped in [try: ... except: pass] returns normally. *)
Lemma res_try_pass (m : M unit) p : res (try_except m (fun _ => ret tt) p) = Ok tt.
Proof. rewrite res_try_except. by destruct (res (m p)) as [[]|e]. Qed.

(** What the price filter may do on the page. *)
Definition price_entry (max_p : pyval) (e : entry) : Prop :=
  match e with
  | Did (Fill sel value timeout) _ =>
      (sel = "input[placeholder*='Max']" \/ sel = "input._2IX2F-:last-of-type") /\
      value = PStr (py_str max_p) /\ timeout = Some 3000%Z /\ truthy max_p = true
  | Did (Press key) _ => key = "Enter"
  | Did (WaitForLoadState state timeout) _ => state = PStr "networkidle"
  | Did _ _ => False
  | _ => True
  end.

(** X8. The price-filter step never fails, whatever the page does: it
    emits its one "Filtering" event, hands back the step with both bounds
    stored, and touches the page only by filling [str(max_price)] into one
    of its two inputs and pressing Enter. Without an upper bound it fills
    nothing: it sleeps, waits for the network and sleeps again. *)
Theorem filter_price_never_fails (step : dict) (p : Page) :
  let max_p := get step "max_price" in
  let min_p := get step "min_price" in
  let o := _handle_filter_price step p in
  res o = Ok (<["min_price" := min_p]> (<["max_price" := max_p]> step)) /\
  events_of (log o) =
    [Action "filter_price"
       ("Filtering: ₹" +:+ py_str (py_or min_p (PInt 0)) +:+ "-" +:+
        py_str (py_or max_p (PStr "∞"))) NoExtra] /\
  Forall (price_entry max_p) (log o) /\
  (truthy max_p = false ->
   exists ok, log o =
     [Emit (Action "filter_price"
              ("Filtering: ₹" +:+ py_str (py_or min_p (PInt 0)) +:+ "-" +:+
               py_str (py_or max_p (PStr "∞"))) NoExtra);
      Slept 1; Did (WaitForLoadState (PStr "networkidle") 10000) ok] ++
     if ok then [Slept 2] else []).
Proof.
  cbv zeta. split; [|split; [|split]].
  - unfold _handle_filter_price. cbv zeta.
    rewrite res_bind. cbn [say send_event res page_after].
    rewrite res_bind, res_try_pass. reflexivity.
  - unfold _handle_filter_price. cbv zeta.
    rewrite log_bind, events_of_app. cbn [say send_event res page_after log].
    rewrite log_bind, events_of_app, res_try_pass. cbn [ret log].
    rewrite events_of_silent; [reflexivity|].
    unfold try_except. emits_only_middle.
  - generalize p. change (logs_only (price_entry (get step "max_price"))
                            (_handle_filter_price step)).
    assert (H1 : hd "" (split_on "," "input[placeholder*='Max']") =
                 "input[placeholder*='Max']") by (vm_compute; reflexivity).
    assert (H2 : hd "" (split_on "," "input._2IX2F-:last-of-type") =
                 "input._2IX2F-:last-of-type") by (vm_compute; reflexivity).
    unfold _handle_filter_price, say, try_except. cbv zeta.
    destruct (truthy (get step "max_price")) eqn:Hmax;
      repeat logs_only_step
        ltac:(first [ exact I | reflexivity
                    | cbv beta iota delta [price_entry]; rewrite ?H1, ?H2; by auto 6 ]).
  - intros Hmax. unfold _handle_filter_price. cbv zeta. rewrite Hmax.
    unfold say, try_except, try_except_if, for_each, bind, perform, send_event, sleep, ret.
    destruct (drive (WaitForLoadState _ _) _) as [q [[]|e]];
      [exists true | exists false]; reflexivity.
Qed.

(** What the rating filter may do on the page. *)
Definition rating_entry (rating : string) (e : entry) : Prop :=
  match e with
  | Did (Click sel timeout) _ =>
      (sel = "[aria-label*='" +:+ rating +:+ " star']" \/
       sel = ".rating-filter[data-rating='" +:+ rating +:+ "']") /\
      timeout = Some 3000%Z
  | Did (WaitForLoadState state timeout) _ => state = PStr "networkidle"
  | Emit _ => True
  | _ => False
  end.

(** X9. The rating-filter step never fails: it emits its one "Rating"
    event and then only clicks one of its two selectors and waits for the
    network; a click that succeeds and settles ends the step at once. *)
Theorem filter_rating_never_fails (step : dict) (p : Page) :
  let rating := py_str (get step "min_rating") in
  let first := Click ("[aria-label*='" +:+ rating +:+ " star']") (Some 3000%Z) in
  let settle := WaitForLoadState (PStr "networkidle") 10000 in
  let o := _handle_filter_rating step p in
  res o = Ok tt /\
  events_of (log o) = [Action "filter_rating" ("Rating: " +:+ rating +:+ "+") NoExtra] /\
  Forall (rating_entry rating) (log o) /\
  (length (calls_of (log o)) <= 4)%nat /\
  (is_ok (snd (drive first p)) = true ->
   is_ok (snd (drive settle (fst (drive first p)))) = true ->
   calls_of (log o) = [(first, true); (settle, true)]).
Proof.
  cbv zeta. unfold _handle_filter_rating. cbv zeta.
  unfold say, try_except, try_except_if, for_each, bind, perform, send_event, ret.
  destruct (drive (Click _ _) p) as [q1 [[]|e1]]; cbv beta iota; cbn [fst snd is_ok].
  - destruct (drive (WaitForLoadState _ _) q1) as [q2 [[]|e2]]; cbv beta iota;
      cbn [fst snd is_ok].
    + repeat split; try (cbn; lia).
      repeat (apply Forall_cons; split); try (by apply Forall_nil); cbn; auto.
    + destruct (drive (Click _ _) q2) as [q3 [[]|e3]]; cbv beta iota.
      * destruct (drive (WaitForLoadState _ _) q3) as [q4 [[]|e4]]; cbv beta iota;
          (repeat split; try (cbn; lia); try discriminate);
          repeat (apply Forall_cons; split); try (by apply Forall_nil); cbn; auto.
      * repeat split; try (cbn; lia); try discriminate.
        repeat (apply Forall_cons; split); try (by apply Forall_nil); cbn; auto.
  - destruct (drive (Click _ _) q1) as [q3 [[]|e3]]; cbv beta iota.
    + destruct (drive (WaitForLoadState _ _) q3) as [q4 [[]|e4]]; cbv beta iota;
        (repeat split; try (cbn; lia); try discriminate);
        repeat (apply Forall_cons; split); try (by apply Forall_nil); cbn; auto.
    + repeat split; try (cbn; lia); try discriminate.
      repeat (apply Forall_cons; split); try (by apply Forall_nil); cbn; auto.
Qed.

(** X10. Submitting a form: when one of the submit candidates resolves,
    the click goes to the first candidate, button[type='submit'], with no
    timeout of its own, whichever candidate resolved; when none resolves,
    Enter is pressed. A failure of that click or key press fails the step;
    a failure of the wait for the page load that follows does not. *)
Theorem submit_clicks_first_candidate (step : dict) (p : Page) :
  let found := _find_selector_with_retry submit_selectors (PInt 10000) p in
  let submit :=
    match res found with
    | Ok (Some _) => Click "button[type='submit']" None
    | _ => Press "Enter"
    end in
  let settle := WaitForLoadState (get_or step "wait_after" (PStr "networkidle")) 15000 in
  let o := _handle_submit_form step p in
  (exists e, res o = Raise e /\ log o = log found ++ [Did submit false]) \/
  (exists settled,
     res o = Ok tt /\
     log o = log found ++
             [Did submit true; Emit (Action "submit_form" "Form submitted" NoExtra);
              Did settle settled]).
Proof.
  cbv zeta. unfold _handle_submit_form.
  destruct (resolver_returns submit_selectors (PInt 10000) p) as (r & Hr).
  rewrite !res_bind, !log_bind, Hr.
  match goal with |- context [page_after ?o] => generalize (page_after o) end.
  intros q.
  assert (Hfirst : hd "" (split_on "," submit_selectors) = "button[type='submit']")
    by reflexivity.
  rewrite Hfirst.
  destruct r as [h|]; cbv beta iota;
    unfold try_except, try_except_if, bind, perform, say, send_event, ret;
    match goal with |- context [drive ?c q] => destruct (drive c q) as [q1 [[]|e]] end;
    cbv beta iota; cbn [is_ok res log];
    try (left; eexists; split; reflexivity);
    right; destruct (drive (WaitForLoadState _ _) _) as [q2 [[]|e]];
    [exists true | exists false | exists true | exists false];
    split; reflexivity.
Qed.

(** ** Further facts: the loop over the plan *)

(** The action names the dispatcher knows. *)
Definition known_actions : list string :=
  ["navigate"; "wait_for"; "type"; "click"; "filter_price"; "filter_rating";
   "extract_products"; "fill_form_field"; "submit_form"; "unsupported"].

(** X11. A step whose action is none of the dispatcher's names (a missing
    action included) touches nothing on the page: it is announced, reported
    with the Error "Unknown action: <action>", and closed with
    ActionComplete like a step that succeeded; the loop goes on with the
    results unchanged. *)
Theorem unknown_action_is_skipped
  (total idx : nat) (step : dict) (results : list dict) (p : Page) :
  Forall (fun name => str_eq (get step "action") name = false) known_actions ->
  run_step total idx step results p =
  Outcome (Ok (Next, results)) p
    [Emit (ActionStart (get step "action") (Z.of_nat idx + 1) (Z.of_nat total));
     Emit (Error (PStr ("Unknown action: " +:+ py_str (get step "action"))) false);
     Emit (ActionComplete (get step "action"))].
Proof.
  intros Hunknown. unfold known_actions in Hunknown.
  repeat match type of Hunknown with
         | Forall _ (_ :: _) =>
             apply Forall_cons in Hunknown;
             let H := fresh "Hname" in destruct Hunknown as [H Hunknown]
         end.
  unfold run_step, dispatch. cbv zeta.
  rewrite Hname, Hname0, Hname1, Hname2, Hname3, Hname4, Hname5, Hname6, Hname7, Hname8.
  unfold try_except, try_except_if, bind, send_event, ret. cbn [app].
  by rewrite app_nil_r.
Qed.

(** The ActionStart events of a list of events. *)
Definition starts_of (evs : list event) : list (pyval * Z * Z) :=
  omap (fun e => match e with
                 | ActionStart action step total => Some (action, step, total)
                 | _ => None
                 end) evs.

(** The steps the loop reaches: all of them up to and including the first
    unsupported one. *)
Fixpoint reached (plan : list dict) : list dict :=
  match plan with
  | [] => []
  | step :: rest =>
      if str_eq (get step "action") "unsupported" then [step] else step :: reached rest
  end.

(** What the loop announces for the steps [steps], the first of which has
    index [idx] (from zero). *)
Fixpoint announced (total idx : nat) (steps : list dict) : list (pyval * Z * Z) :=
  match steps with
  | [] => []
  | step :: rest =>
      (get step "action", Z.of_nat idx + 1, Z.of_nat total)%Z
      :: announced total (S idx) rest
  end.

Lemma starts_of_app l1 l2 : starts_of (l1 ++ l2) = starts_of l1 ++ starts_of l2.
Proof. apply omap_app. Qed.

Lemma starts_of_start action step total evs :
  starts_of (ActionStart action step total :: evs) = (action, step, total) :: starts_of evs.
Proof. reflexivity. Qed.

Lemma starts_of_status message status evs :
  starts_of (Status message status :: evs) = starts_of evs.
Proof. reflexivity. Qed.

Lemma starts_of_middle evs : Forall middle evs -> starts_of evs = [].
Proof.
  induction 1 as [|e evs He _ IH]; [reflexivity|].
  destruct e; try (by destruct He); exact IH.
Qed.

Lemma starts_of_closing action r : starts_of (step_closing action r) = [].
Proof. by destruct r as [[[|] extracted]|e]. Qed.

Lemma run_steps_announces total plan :
  forall idx results p,
    starts_of (events_of (log (run_steps total idx plan results p))) =
    announced total idx (reached plan).
Proof.
  induction plan as [|step rest IH]; intros idx results p; [reflexivity|].
  destruct (run_steps_cons total idx step rest results p) as [-> _].
  rewrite starts_of_app. cbn [reached].
  destruct (str_eq (get step "action") "unsupported") eqn:Hu.
  - rewrite (run_step_unsupported _ _ _ _ _ Hu). reflexivity.
  - destruct (run_step_next total idx step results p Hu) as (results' & ->).
    destruct (run_step_run total idx step results p) as (-> & _ & _).
    rewrite starts_of_start, starts_of_app, starts_of_closing, app_nil_r.
    rewrite starts_of_middle by apply dispatch_emits_middle.
    cbn [app announced]. by rewrite IH.
Qed.

(** The page once the session is set up: the four calls before the loop,
    each on the page the one before left; [None] when one of them fails. *)
Definition session (p : Page) : option Page :=
  match drive Start p with
  | (p1, Ok _) =>
      match drive (Launch headless) p1 with
      | (p2, Ok _) =>
          match drive NewContext p2 with
          | (p3, Ok _) =>
              match drive NewPage p3 with
              | (p4, Ok _) => Some p4
              | (_, Raise _) => None
              end
          | (_, Raise _) => None
          end
      | (_, Raise _) => None
      end
  | (_, Raise _) => None
  end.

(** The events of a whole run, by the outcome of the set-up. *)
Lemma run_action_plan_events_by plan p :
  match session p with
  | Some q =>
      events_of (log (run_action_plan plan p)) =
      Status "Browser initialized" "ready"
      :: events_of (log (run_steps (length plan) 0 plan [] q)) ++
         [Status "Task completed" "completed"]
  | None =>
      exists msg failed, events_of (log (run_action_plan plan p)) = [Error msg failed]
  end.
Proof.
  unfold session, run_action_plan, report_failure, try_except, try_except_if, try_finally,
    bind, perform, send_event, ret, sleep.
  destruct (drive Start p) as [p1 [[]|e]]; cbv beta iota delta [negb].
  2:{ destruct (bool_decide _); cbv beta iota delta [negb]; eauto. }
  destruct (drive (Launch headless) p1) as [p2 [[]|e]]; cbv beta iota delta [negb].
  2:{ eauto. }
  destruct (drive NewContext p2) as [p3 [[]|e]]; cbv beta iota delta [negb].
  2:{ destruct (bool_decide _); cbv beta iota delta [negb];
      destruct (drive Close _) as [p4 [[]|e']]; eauto. }
  destruct (drive NewPage p3) as [p4 [[]|e]]; cbv beta iota delta [negb].
  2:{ destruct (bool_decide _); cbv beta iota delta [negb];
      destruct (drive Close _) as [p5 [[]|e']]; eauto. }
  destruct (run_steps_returns (length plan) 0 plan [] p4) as (r & Hr).
  destruct (run_steps (length plan) 0 plan [] p4) as [r' q l]. cbn [res log] in *.
  subst r'. cbv beta iota delta [negb].
  destruct (drive Close _) as [p5 [[]|e']]; cbn [log negb];
    rewrite !events_of_app; cbn; by rewrite ?app_nil_r, <- ?app_assoc, ?app_nil_r.
Qed.

(** X12. A step that fails does not stop the plan: whatever the page does,
    the steps announced by ActionStart are exactly the steps of the plan up
    to and including the first unsupported one, in plan order, numbered
    from one, each with the length of the whole plan. A whole run
    announces exactly these when its session is set up (start, launch,
    context and page all succeed), and none when one of the four fails. *)
Theorem every_reached_step_is_announced (plan : list dict) (p : Page) :
  (forall total idx results,
     starts_of (events_of (log (run_steps total idx plan results p))) =
     announced total idx (reached plan)) /\
  starts_of (events_of (log (run_action_plan plan p))) =
    match session p with
    | Some _ => announced (length plan) 0 (reached plan)
    | None => []
    end.
Proof.
  split; [intros; apply run_steps_announces|].
  pose proof (run_action_plan_events_by plan p) as H.
  destruct (session p) as [q|].
  - by rewrite H, starts_of_status, starts_of_app, run_steps_announces, app_nil_r.
  - by destruct H as (msg & failed & ->).
Qed.

(** ** Further facts: extraction *)

Lemma filter_raising_kept {A} (keep : A -> result bool) l r :
  filter_raising keep l = Ok r -> Forall (fun x => keep x = Ok true) r.
Proof.
  revert r. induction l as [|x l IH]; intros r H.
  { injection H as <-. constructor. }
  cbn in H. apply rbind_ok in H. destruct H as (b & Hb & H).
  apply rbind_ok in H. destruct H as (r' & Hr' & H).
  injection H as <-. specialize (IH _ Hr').
  destruct b; [by constructor | exact IH].
Qed.

Lemma Forall_sublist_of {A} (P : A -> Prop) (l k : list A) :
  l `sublist_of` k -> Forall P k -> Forall P l.
Proof.
  intros Hsub Hk. rewrite Forall_forall in Hk |- *. intros x Hx.
  apply Hk. by eapply elem_of_sublist.
Qed.

(** The stages of the selection, for a run that returns [final]. *)
Lemma select_products_stages step products p final :
  res (select_products step products p) = Ok final ->
  exists valid rated priced,
    validate_products (get_or step "site" (PStr "flipkart")) products = Ok valid /\
    rated `sublist_of` valid /\
    (if (truthy (get step "max_price") || truthy (get step "min_price"))
        && negb (is_zomato (get_or step "site" (PStr "flipkart")))
     then filter_raising (price_within (get step "max_price") (get step "min_price"))
            rated = Ok priced
     else priced = rated) /\
    final `sublist_of` priced.
Proof.
  intros H. unfold select_products in H. cbv zeta in H.
  invert_bind H. apply lift_ok in Ha. rename v into valid.
  invert_bind H. rename v into rated.
  assert (Hrated : rated `sublist_of` valid).
  { match type of Ha0 with
    | res ((if ?c then _ else _) _) = _ => destruct c
    end.
    - invert_bind Ha0. invert_bind Ha0. apply lift_ok in Ha0a0.
      invert_bind Ha0. injection Ha0 as <-.
      by apply filter_raising_sublist in Ha0a0.
    - injection Ha0 as <-. reflexivity. }
  invert_bind H. rename v into priced.
  exists valid, rated, priced. split; [exact Ha|]. split; [exact Hrated|].
  split.
  { match type of Ha1 with
    | res ((if ?c then _ else _) _) = _ => destruct c
    end.
    - invert_bind Ha1. apply lift_ok in Ha1a.
      invert_bind Ha1. by injection Ha1 as <-.
    - by injection Ha1 as <-. }
  invert_bind H. invert_bind H. injection H as <-.
  destruct priced; [by injection Ha2 as <- |].
  apply lift_ok in Ha2. by apply slice_to_sublist in Ha2.
Qed.

(** The bounds of the price comprehension: [int(max_price)] and
    [int(min_price)], or the defaults 999999999 and 0. *)
Definition upper_bound (step : dict) : result Z :=
  if truthy (get step "max_price") then py_int (get step "max_price")
  else Ok 999999999%Z.

Definition lower_bound (step : dict) : result Z :=
  if truthy (get step "min_price") then py_int (get step "min_price") else Ok 0%Z.

Lemma price_within_bounds step item n :
  price_parses item n ->
  price_within (get step "max_price") (get step "min_price") item = Ok true ->
  exists hi lo, upper_bound step = Ok hi /\ lower_bound step = Ok lo /\ (lo <= n <= hi)%Z.
Proof.
  intros (text & Htext & Hn). unfold price_within, upper_bound, lower_bound.
  assert (Hget : get item "price" = PStr text) by (unfold get; by rewrite Htext).
  rewrite Hget.
  assert (Htruthy : truthy (PStr text) = true).
  { destruct text; [discriminate|reflexivity]. }
  unfold py_or. rewrite Htruthy. cbn [negb py_int]. rewrite Hn. cbn [rbind].
  destruct (if truthy (get step "max_price") then _ else _) as [hi|e]; [|discriminate].
  cbn [rbind]. destruct (n <=? hi)%Z eqn:Hhi; [|discriminate].
  destruct (if truthy (get step "min_price") then _ else _) as [lo|e]; [|discriminate].
  cbn [rbind]. intros [= Hlo]. exists hi, lo. repeat split; lia.
Qed.

Lemma handler_valid step p :
  Forall (valid_for (get_or step "site" (PStr "flipkart")))
    (extracted_items (res (_handle_extract_products step p))).
Proof.
  destruct (handler_items step p) as [-> | (products & q & H)]; [constructor|].
  apply select_products_stages in H.
  destruct H as (valid & rated & priced & Hvalid & Hrated & Hpriced & Hfinal).
  apply validate_products_valid in Hvalid.
  apply (Forall_sublist_of _ _ valid); [|exact Hvalid].
  etrans; [exact Hfinal|]. etrans; [|exact Hrated].
  destruct (_ && _); [by apply filter_raising_sublist in Hpriced | by subst].
Qed.

(** X13. With a price bound on an extract step for a site other than
    zomato, every item returned has a price between the bounds, both
    inclusive: the bounds are [int(max_price)] and [int(min_price)], and a
    bound that is missing or falsy counts as 999999999 above and 0 below. *)
Theorem price_filter_bounds_results (step : dict) (p : Page) :
  is_zomato (get_or step "site" (PStr "flipkart")) = false ->
  truthy (get step "max_price") || truthy (get step "min_price") = true ->
  Forall (fun item =>
            exists n hi lo,
              price_parses item n /\ upper_bound step = Ok hi /\
              lower_bound step = Ok lo /\ (lo <= n <= hi)%Z)
    (extracted_items (res (_handle_extract_products step p))).
Proof.
  intros Hsite Hbound.
  pose proof (handler_valid step p) as Hvalid.
  destruct (handler_items step p) as [-> | (products & q & H)]; [constructor|].
  apply select_products_stages in H.
  destruct H as (valid & rated & priced & _ & _ & Hpriced & Hfinal).
  rewrite Hsite, Hbound in Hpriced. cbn [negb andb] in Hpriced.
  apply filter_raising_kept in Hpriced.
  apply (Forall_sublist_of _ _ _ Hfinal) in Hpriced.
  unfold valid_for in Hvalid. rewrite Hsite in Hvalid.
  rewrite Forall_forall in Hvalid, Hpriced |- *. intros item Hitem.
  destruct (Hvalid item Hitem) as (_ & (n & Hn & _) & _).
  destruct (price_within_bounds step item n Hn (Hpriced item Hitem))
    as (hi & lo & Hhi & Hlo & Hle).
  exists n, hi, lo. auto.
Qed.

Lemma events_of_did c ok l : events_of (Did c ok :: l) = events_of l.
Proof. reflexivity. Qed.

Lemma events_of_emit e l : events_of (Emit e :: l) = e :: events_of l.
Proof. reflexivity. Qed.

Lemma events_of_slept d l : events_of (Slept d :: l) = events_of l.
Proof. reflexivity. Qed.

Lemma events_of_nil : events_of [] = [].
Proof. reflexivity. Qed.

Lemma calls_of_did c ok l : calls_of (Did c ok :: l) = (c, ok) :: calls_of l.
Proof. reflexivity. Qed.

Lemma calls_of_emit e l : calls_of (Emit e :: l) = calls_of l.
Proof. reflexivity. Qed.

Lemma calls_of_slept d l : calls_of (Slept d :: l) = calls_of l.
Proof. reflexivity. Qed.

Lemma calls_of_nil : calls_of [] = [].
Proof. reflexivity. Qed.

Create Rewrite HintDb log.
#[local] Hint Rewrite events_of_app events_of_did events_of_emit events_of_slept
  events_of_nil calls_of_app calls_of_did calls_of_emit calls_of_slept calls_of_nil
  @app_nil_r @app_nil_l : log.

(** The event that closes a selection. *)
Definition closing_event (items : list dict) : event :=
  match items with
  | [] => Warning no_products_message
  | _ =>
      Action "extract_products"
        ("✓ Extracted " +:+ str_of_int (Z.of_nat (length items)) +:+ " valid results")
        (Extracted (length items) (take 2 items))
  end.

Lemma select_products_closing step products p items :
  res (select_products step products p) = Ok items ->
  exists earlier,
    events_of (log (select_products step products p)) = earlier ++ [closing_event items].
Proof.
  intros H. unfold select_products in *. cbv zeta in *.
  rewrite log_bind. invert_bind H. rewrite Ha.
  rewrite log_bind. invert_bind H. rewrite Ha0.
  rewrite log_bind. invert_bind H. rewrite Ha1.
  rewrite log_bind. invert_bind H. rewrite Ha2.
  rewrite log_bind. invert_bind H. rewrite Ha3.
  injection H as <-.
  cbn [ret log]. rewrite app_nil_r, !app_assoc, events_of_app.
  eexists. f_equal. by destruct v2.
Qed.

(** What the extraction sends to the page if it fails. *)
Definition extraction_error (e : exn) (title : string) : event :=
  Error (PStr ("Extraction error: " +:+ exn_msg e +:+ ". Page title: " +:+ title)) false.

(** X14. What the extraction returns is what it reports last: the Action
    "Extracted <n> valid results" carrying the count and a preview of the
    first two of the items returned, or the Warning "No valid products
    found" for an empty result. An error inside the extraction is reported
    as "Extraction error" with the page title, the result then being empty;
    the handler itself raises only when that title cannot be read. *)
Theorem extraction_reports_what_it_returns (step : dict) (p : Page) :
  let o := _handle_extract_products step p in
  match res o with
  | Ok items =>
      exists earlier,
        events_of (log o) = earlier ++ [closing_event items] \/
        (items = [] /\
         exists e title, events_of (log o) = earlier ++ [extraction_error e title])
  | Raise _ => exists before, calls_of (log o) = before ++ [(Title, false)]
  end.
Proof.
  cbv zeta. unfold _handle_extract_products. cbv zeta.
  rewrite !res_bind, !log_bind. cbn [say send_event res log page_after].
  rewrite res_try_pass. cbn [sleep res log page_after].
  match goal with |- context [try_except ?m ?h ?q] =>
    set (body := m); set (handler := h); set (q0 := q) end.
  match goal with |- context [log (try_except ?m ?h p)] =>
    generalize (log (try_except m h p)) end.
  intros waited.
  rewrite res_try_except, log_try_except.
  destruct (res (body q0)) as [items|e] eqn:Hbody.
  - subst body. cbv beta iota. rewrite log_bind. invert_bind Hbody. rewrite Hbodya.
    destruct (select_products_closing _ _ _ _ Hbody) as (earlier & Hearlier).
    eexists. left. rewrite app_nil_r, !events_of_app, Hearlier, !app_assoc.
    reflexivity.
  - subst handler. cbv beta. generalize (page_after (body q0)), (log (body q0)).
    intros q1 tried.
    unfold bind, perform, send_event, ret.
    destruct (drive Title q1) as [q2 [title|e']]; cbv beta iota; cbn [res log is_ok].
    + eexists. right. split; [reflexivity|]. exists e, title.
      autorewrite with log. rewrite ?app_assoc. reflexivity.
    + eexists. autorewrite with log. rewrite ?app_assoc. reflexivity.
Qed.

(** X15. When [page.evaluate] raises and the title can be read, the step
    does not fail: the handler reports the Error "Extraction error: ...
    Page title: ..." after its opening event and returns no items. *)
Theorem failed_extraction_returns_nothing
  (step : dict) (p : Page) (e : exn) (title : string) :
  (forall s q, snd (drive (Evaluate s) q) = Raise e) ->
  (forall q, snd (drive Title q) = Ok title) ->
  let o := _handle_extract_products step p in
  res o = Ok [] /\
  events_of (log o) =
    [Action "extract_products"
       ("Extracting top " +:+ py_str (get_or step "count" (PInt 3)) +:+ " results...")
       NoExtra;
     extraction_error e title].
Proof.
  intros Hevaluate Htitle. cbv zeta. unfold _handle_extract_products. cbv zeta.
  rewrite !res_bind, !log_bind. cbn [say send_event res log page_after].
  rewrite res_try_pass. cbn [sleep res log page_after].
  rewrite !events_of_app.
  rewrite (events_of_silent (try_except _ _)) by (unfold try_except; emits_only_middle).
  match goal with |- context [try_except ?m ?h ?q] => generalize q end.
  intros q0. unfold try_except, try_except_if, bind, perform, send_event, ret.
  match goal with |- context [drive (Evaluate ?s) q0] =>
    pose proof (Hevaluate s q0) as Hs; destruct (drive (Evaluate s) q0) as [q1 r] end.
  cbn [snd] in Hs. subst r. cbv beta iota.
  pose proof (Htitle q1) as Ht. destruct (drive Title q1) as [q2 r].
  cbn [snd] in Ht. subst r. split; reflexivity.
Qed.

Lemma validate_product_name site product kept :
  validate_product site product = Ok (Some kept) -> kept !! "name" = product !! "name".
Proof.
  unfold validate_product. intros H.
  apply rbind_ok in H. destruct H as (raw & _ & H).
  destruct (negb _ || _); [discriminate|].
  repeat match type of H with
         | (if ?c then _ else _) = _ => destruct c
         | match ?x with _ => _ end = _ => destruct x
         end; try discriminate; injection H as <-; apply normalise_fields.
Qed.

Lemma validate_products_names site products valid :
  validate_products site products = Ok valid ->
  (fun item : dict => item !! "name") <$> valid
    `sublist_of` (fun item : dict => item !! "name") <$> products.
Proof.
  revert valid. induction products as [|product rest IH]; intros valid H.
  { injection H as <-. constructor. }
  cbn in H. apply rbind_ok in H. destruct H as (kept & Hkept & H).
  apply rbind_ok in H. destruct H as (valid' & Hrest & H).
  injection H as <-. specialize (IH _ Hrest).
  destruct kept as [item|]; cbn [fmap list_fmap].
  - rewrite (validate_product_name _ _ _ Hkept). by constructor.
  - by constructor.
Qed.

(** The script an extract step evaluates in the page. *)
Definition script_of (step : dict) : script :=
  if is_zomato (get_or step "site" (PStr "flipkart")) then ZomatoScript
  else FlipkartScript.

Lemma handler_source step p :
  extracted_items (res (_handle_extract_products step p)) = [] \/
  exists products q,
    snd (drive (Evaluate (script_of step)) q) = Ok products /\
    res (select_products step products (fst (drive (Evaluate (script_of step)) q))) =
    Ok (extracted_items (res (_handle_extract_products step p))).
Proof.
  destruct (res (_handle_extract_products step p)) as [items|e] eqn:H; [|by left].
  cbn [extracted_items]. unfold _handle_extract_products in H. cbv zeta in H.
  invert_bind H. invert_bind H. invert_bind H.
  apply try_except_ok in H. destruct H as [H | (e & _ & H)].
  - invert_bind H. right. exists v2. eexists.
    rewrite res_perform in Ha2. rewrite page_perform in H. eauto.
  - invert_bind H. invert_bind H. injection H as <-. by left.
Qed.

(** X16. The items returned are items of the page, in page order: their
    names are a sublist of the names of the records the in-page script
    returned, so nothing is reordered, repeated or made up. *)
Theorem extraction_keeps_page_order (step : dict) (p : Page) :
  let items := extracted_items (res (_handle_extract_products step p)) in
  items = [] \/
  exists products q,
    snd (drive (Evaluate (script_of step)) q) = Ok products /\
    (fun item : dict => item !! "name") <$> items
      `sublist_of` (fun item : dict => item !! "name") <$> products.
Proof.
  cbv zeta. destruct (handler_source step p) as [-> | (products & q & Hq & H)];
    [by left | right].
  exists products, q. split; [exact Hq|].
  apply select_products_stages in H.
  destruct H as (valid & rated & priced & Hvalid & Hrated & Hpriced & Hfinal).
  etrans; [|by apply validate_products_names with (site := get_or step "site" (PStr "flipkart"))].
  apply fmap_sublist. etrans; [exact Hfinal|]. etrans; [|exact Hrated].
  destruct (_ && _); [by apply filter_raising_sublist in Hpriced | by subst].
Qed.

(** ** The rating filter, in full *)









(** ** Further facts: the results of a run *)

(** Only an extract_products step hands anything over to [results]. *)
Lemma dispatch_extracted_by action step p f extracted :
  res (dispatch action step p) = Ok (f, extracted) ->
  extracted = [] \/
  (str_eq action "extract_products" = true /\
   extracted = extracted_items (res (_handle_extract_products step p))).
Proof.
  intros H. unfold dispatch in H.
  repeat match type of H with
         | res ((if ?b then _ else _) _) = _ => destruct b eqn:?
         end;
    rewrite res_bind in H;
    match type of H with
    | match ?r with _ => _ end = _ =>
        destruct r eqn:?; cbn [ret res] in H; [|discriminate];
        injection H as <- <-; solve [by left | right; by split]
    end.
Qed.

(** An item that an extract_products step of [plan] may return, [Q]
    being what is known of the items of a step. *)
Definition from_extract_step (Q : dict -> dict -> Prop) (plan : list dict) (item : dict)
  : Prop :=
  exists step,
    step ∈ plan /\ str_eq (get step "action") "extract_products" = true /\ Q step item.

(** The site an extract step works on. *)
Definition site_of (step : dict) : pyval := get_or step "site" (PStr "flipkart").

Section Results.
Context (Q : dict -> dict -> Prop).
Hypothesis handler_gives :
  forall step p, Forall (Q step) (extracted_items (res (_handle_extract_products step p))).

Lemma run_steps_results total plan :
  forall idx results p,
    exists added,
      res (run_steps total idx plan results p) = Ok (results ++ added) /\
      Forall (from_extract_step Q plan) added.
Proof.
  induction plan as [|step rest IH]; intros idx results p.
  { exists []. rewrite app_nil_r. by split. }
  destruct (run_steps_cons total idx step rest results p) as [_ ->].
  destruct (run_step_run total idx step results p) as (_ & -> & _).
  assert (Hweaken : forall added, Forall (from_extract_step Q rest) added ->
                                  Forall (from_extract_step Q (step :: rest)) added).
  { intros added Hadded. eapply Forall_impl; [exact Hadded|].
    intros item (s & Hs & Hrest).
    exists s. split; [by right | exact Hrest]. }
  destruct (res (dispatch _ step p)) as [[[|] extracted]|e] eqn:E.
  - destruct (IH (S idx) (results ++ extracted)
                (page_after (run_step total idx step results p)))
      as (added & -> & Hadded).
    exists (extracted ++ added). rewrite app_assoc. split; [reflexivity|].
    apply Forall_app. split; [|by apply Hweaken].
    apply dispatch_extracted_by in E. destruct E as [-> | [Haction ->]]; [constructor|].
    eapply Forall_impl; [apply handler_gives|].
    intros item Hitem. exists step. split; [by left | by split].
  - exists []. rewrite app_nil_r. by split.
  - destruct (IH (S idx) results (page_after (run_step total idx step results p)))
      as (added & -> & Hadded).
    exists added. split; [reflexivity | by apply Hweaken].
Qed.

End Results.

Lemma run_action_plan_results plan p :
  extracted_items (res (run_action_plan plan p)) = [] \/
  exists q,
    res (run_steps (length plan) 0 plan [] q) =
    Ok (extracted_items (res (run_action_plan plan p))).
Proof.
  unfold run_action_plan, report_failure, try_except, try_except_if, try_finally,
    bind, perform, send_event, ret, sleep.
  destruct (drive Start p) as [p1 [[]|e]]; cbv beta iota delta [negb].
  2:{ left. by destruct (bool_decide _). }
  destruct (drive (Launch headless) p1) as [p2 [[]|e]]; cbv beta iota delta [negb].
  2:{ by left. }
  destruct (drive NewContext p2) as [p3 [[]|e]]; cbv beta iota delta [negb].
  2:{ left. destruct (bool_decide _); cbv beta iota delta [negb];
      by destruct (drive Close _) as [p4 [[]|e']]. }
  destruct (drive NewPage p3) as [p4 [[]|e]]; cbv beta iota delta [negb].
  2:{ left. destruct (bool_decide _); cbv beta iota delta [negb];
      by destruct (drive Close _) as [p5 [[]|e']]. }
  destruct (run_steps_returns (length plan) 0 plan [] p4) as (r & Hr).
  destruct (run_steps (length plan) 0 plan [] p4) as [r' q l] eqn:E. cbn [res] in Hr.
  subst r'. cbv beta iota delta [negb].
  destruct (drive Close _) as [p5 [[]|e']]; cbn [res extracted_items]; [|by left].
  right. exists p4. by rewrite E.
Qed.

Lemma run_results_from (Q : dict -> dict -> Prop) (plan : list dict) (p : Page) :
  (forall step q,
     Forall (Q step) (extracted_items (res (_handle_extract_products step q)))) ->
  Forall (from_extract_step Q plan) (extracted_items (res (run_action_plan plan p))).
Proof.
  intros Hgives.
  destruct (run_action_plan_results plan p) as [-> | (q & Hq)]; [constructor|].
  destruct (run_steps_results Q Hgives (length plan) plan 0 [] q)
    as (added & Hadded & Hfrom).
  rewrite Hadded in Hq. injection Hq as <-. exact Hfrom.
Qed.


(** What validation leaves in an item it keeps: the name as the page gave
    it, of at least three characters once stripped, and the price printed
    back from the integer read. *)
Definition kept_shape (step item : dict) : Prop :=
  (exists raw, item !! "name" = Some (PStr raw) /\ (3 <= py_len (strip raw))%nat) /\
  if is_zomato (site_of step)
  then item !! "price" = Some (PStr "") \/
       exists n, item !! "price" = Some (PStr (str_of_int n)) /\ (0 < n)%Z
  else exists n, item !! "price" = Some (PStr (str_of_int n)) /\ (100 <= n)%Z.

Lemma validate_product_shape step product kept :
  validate_product (site_of step) product = Ok (Some kept) -> kept_shape step kept.
Proof.
  intros H. pose proof (validate_product_name _ _ _ H) as Hname.
  unfold validate_product in H.
  apply rbind_ok in H. destruct H as (raw & Hraw & H).
  destruct (negb (truthy (PStr (strip raw))) || (py_len (strip raw) <? 3)%nat) eqn:Hskip;
    [discriminate|].
  apply orb_false_elim in Hskip. destruct Hskip as [_ Hlen].
  apply Nat.ltb_ge in Hlen.
  split.
  { exists raw. split; [|exact Hlen]. rewrite Hname.
    unfold get_or in Hraw. destruct (product !! "name") as [[]|]; try discriminate.
    - by injection Hraw as ->.
    - injection Hraw as <-. cbn in Hlen. lia. }
  match type of H with
  | match ?x with _ => _ end = _ => destruct x as [price_val|]
  end.
  - destruct (is_zomato (site_of step)).
    + injection H as <-.
      destruct (0 <? price_val)%Z eqn:Hpos; [|left; apply normalise_fields].
      right. exists price_val. split; [apply normalise_fields | lia].
    + destruct (100 <=? price_val)%Z eqn:Hge; [|discriminate].
      injection H as <-. exists price_val. split; [apply normalise_fields | lia].
  - destruct (is_zomato (site_of step)); [|discriminate].
    injection H as <-. left. apply normalise_fields.
Qed.

Lemma validate_products_shape step products valid :
  validate_products (site_of step) products = Ok valid -> Forall (kept_shape step) valid.
Proof.
  revert valid. induction products as [|product rest IH]; intros valid H.
  { injection H as <-. constructor. }
  cbn in H. apply rbind_ok in H. destruct H as (kept & Hkept & H).
  apply rbind_ok in H. destruct H as (valid' & Hrest & H).
  injection H as <-. specialize (IH _ Hrest).
  destruct kept as [item|]; [|exact IH].
  constructor; [|exact IH]. by apply validate_product_shape with product.
Qed.

Lemma handler_shape step p :
  Forall (kept_shape step) (extracted_items (res (_handle_extract_products step p))).
Proof.
  destruct (handler_items step p) as [-> | (products & q & H)]; [constructor|].
  apply select_products_stages in H.
  destruct H as (valid & rated & priced & Hvalid & Hrated & Hpriced & Hfinal).
  apply validate_products_shape in Hvalid.
  apply (Forall_sublist_of _ _ valid); [|exact Hvalid].
  etrans; [exact Hfinal|]. etrans; [|exact Hrated].
  destruct (_ && _); [by apply filter_raising_sublist in Hpriced | by subst].
Qed.

(** ** Further facts: generated form values *)

Lemma bind_lift_ok {A B} (a : A) (k : A -> M B) p : bind (lift (Ok a)) k p = k a p.
Proof. unfold bind, lift. by destruct (k a p). Qed.

(** The value the form handler makes up for a field. *)
Definition generated_value (name : string) : M pyval :=
  if contains "email" (lower name) then
    token <- draw (random_choices 8) ;;
    ret (PStr ("temp_" +:+ token +:+ "@example.com"))
  else if contains "phone" (lower name) then
    n <- draw (randint 7000000000 9999999999) ;;
    ret (PStr ("+91" +:+ str_of_int n))
  else
    n <- draw (randint 1000 9999) ;;
    ret (PStr ("test_" +:+ str_of_int n)).

Lemma fill_value_generates step name p :
  truthy (get step "generate_if_needed") = true ->
  get step "field_name" = PStr name ->
  fill_value step p = generated_value name p.
Proof.
  intros Hgen Hname. unfold fill_value, generated_value. cbv zeta.
  rewrite Hgen, Hname, orb_true_r. cbn [as_str rbind].
  rewrite bind_lift_ok. destruct (contains "email" (lower name)); [reflexivity|].
  by rewrite bind_lift_ok.
Qed.

(** X24. With generate_if_needed set, the value given in the step is never
    typed: two steps that agree on the field name get the same value,
    whatever their "value" keys hold. *)
Theorem given_value_is_ignored (step step' : dict) (p : Page) :
  truthy (get step "generate_if_needed") = true ->
  truthy (get step' "generate_if_needed") = true ->
  get step "field_name" = get step' "field_name" ->
  fill_value step p = fill_value step' p.
Proof.
  intros Hgen Hgen' Hname. unfold fill_value. cbv zeta.
  by rewrite Hgen, Hgen', Hname, !orb_true_r.
Qed.

End Driver.

Arguments Outcome {Page A} _ _ _.
Arguments res {Page A} _.
Arguments page_after {Page A} _.
Arguments log {Page A} _.

End Engine.


(** ** The server's filter on the results of a run *)

Module Server.
Import Py Engine.

(** What the endpoint sends once the run is over. *)
Inductive reply :=
| Result (data : list dict) (count : nat)
| Warn (message : string).

Section Endpoint.
Context {Page Handle : Type}.
Variable drive : forall c : call, Page -> Page * result (@reply_of Handle c).
Variable elapse : Q -> Page -> Page.
Variable random_choices : nat -> Page -> Page * string.
Variable randint : Z -> Z -> Page -> Page * Z.
Variable float_of_str : string -> option pyfloat.
Variable float_of_int : Z -> option pyfloat.
Variable float_repr : pyfloat -> string.
Variable headless : bool.

(** One round of the loop over [results]: whether [r] is appended to
    [valid]. A name that is not a string raises. *)
Definition keeps (r : dict) : result bool :=
  rbind (as_str (get_or r "name" (PStr ""))) (fun raw =>
  let name := strip raw in
  let price_str :=
    replace "₹" "" (replace "," "" (py_str float_repr (get_or r "price" (PStr "0")))) in
  if truthy (PStr name) && (3 <=? py_len name)%nat then
    match (if truthy (PStr price_str) then int_of_str price_str else Some 0%Z) with
    | Some price_val =>
        Ok ((100 <=? price_val)%Z || negb (truthy (PStr price_str))
            || bool_decide (price_str = "0"))
    | None => Ok (negb (truthy (PStr price_str)) || bool_decide (price_str = "0"))
    end
  else Ok false).

(** The result event and the warning that may follow it. *)
Definition conclude (results : list dict) : result (list reply) :=
  rbind (filter_raising keeps results) (fun valid =>
  Ok (Result valid (length valid)
      :: match valid, results with
         | [], _ :: _ => [Warn "Found items but extraction failed"]
         | _, _ => []
         end)).

(** What the endpoint sends for a plan. *)
Definition serve (plan : list dict) (p : Page) : result (list reply) :=
  rbind (res (run_action_plan drive elapse random_choices randint float_of_str
                float_of_int float_repr headless plan p))
        conclude.

Lemma keeps_printed_price (item : dict) (raw : string) (n : Z) :
  item !! "name" = Some (PStr raw) -> (3 <= py_len (strip raw))%nat ->
  item !! "price" = Some (PStr (str_of_int n)) -> (0 < n)%Z ->
  keeps item = Ok (100 <=? n)%Z.
Proof.
  intros Hname Hlen Hprice Hpos. assert (Hn : (0 <= n)%Z) by lia.
  unfold keeps, get_or. rewrite Hname, Hprice.
  cbn [as_str rbind py_str default from_option id]. cbv zeta.
  assert (truthy (PStr (strip raw)) = true) as ->.
  { destruct (strip raw); [cbn in Hlen; lia | reflexivity]. }
  assert ((3 <=? py_len (strip raw))%nat = true) as -> by by apply Nat.leb_le.
  rewrite (replace_digits _ _ _ (str_of_int n)) by
    (try reflexivity; by apply str_of_int_digits).
  rewrite (replace_digits _ _ _ (str_of_int n)) by
    (try reflexivity; by apply str_of_int_digits).
  assert (truthy (PStr (str_of_int n)) = true) as ->.
  { pose proof (str_of_int_nonempty n Hn). by destruct (str_of_int n). }
  cbn [andb negb]. rewrite (int_of_str_str_of_int n Hn).
  rewrite orb_false_r. destruct (100 <=? n)%Z eqn:E; [reflexivity|].
  cbn [orb]. apply f_equal, bool_decide_eq_false_2. intros H0.
  pose proof (int_of_str_str_of_int n Hn) as Hread. rewrite H0 in Hread.
  assert (Hzero : int_of_str "0" = Some 0%Z) by (vm_compute; reflexivity).
  rewrite Hzero in Hread. injection Hread as <-. lia.
Qed.

Lemma keeps_empty_price (item : dict) (raw : string) :
  item !! "name" = Some (PStr raw) -> (3 <= py_len (strip raw))%nat ->
  item !! "price" = Some (PStr "") ->
  keeps item = Ok true.
Proof.
  intros Hname Hlen Hprice. unfold keeps, get_or. rewrite Hname, Hprice.
  cbn [as_str rbind py_str default from_option id]. cbv zeta.
  assert (truthy (PStr (strip raw)) = true) as ->.
  { destruct (strip raw); [cbn in Hlen; lia | reflexivity]. }
  assert ((3 <=? py_len (strip raw))%nat = true) as -> by by apply Nat.leb_le.
  reflexivity.
Qed.

Lemma filter_raising_all {A} (keep : A -> result bool) (l : list A) :
  Forall (fun x => keep x = Ok true) l -> filter_raising keep l = Ok l.
Proof.
  induction 1 as [|x l Hx _ IH]; [reflexivity|].
  cbn [filter_raising]. by rewrite Hx, IH.
Qed.

(** X18. The server's filter never rejects what a run on product sites
    returns: for a plan whose extract steps all work on a site other than
    zomato, the result event carries the results of the run unchanged,
    with their number, and the warning "Found items but extraction failed"
    is never sent. *)
Theorem server_keeps_product_results (plan : list dict) (p : Page) :
  Forall (fun step => is_zomato (site_of step) = false) plan ->
  serve plan p =
  rbind (res (run_action_plan drive elapse random_choices randint float_of_str
                float_of_int float_repr headless plan p))
        (fun results => Ok [Result results (length results)]).
Proof.
  intros Hsites. unfold serve.
  pose proof (run_results_from drive elapse random_choices randint float_of_str
                float_of_int float_repr headless kept_shape plan p
                (handler_shape drive elapse float_of_str float_of_int float_repr))
    as Hshape.
  destruct (res (run_action_plan _ _ _ _ _ _ _ _ plan p)) as [results|e];
    [|reflexivity].
  cbn [extracted_items rbind] in *. unfold conclude.
  rewrite filter_raising_all.
  { cbn [rbind]. by destruct results. }
  eapply Forall_impl; [exact Hshape|].
  intros item (step & Hstep & _ & (raw & Hname & Hlen) & Hprice).
  rewrite Forall_forall in Hsites. rewrite (Hsites step Hstep) in Hprice.
  destruct Hprice as (n & Hprice & Hn).
  rewrite (keeps_printed_price item raw n) by (try done; lia).
  apply f_equal. by apply Z.leb_le.
Qed.

(** X19. A listing the browser returns passes the server's filter only
    with an empty price or a price of at least 100: a listing whose price
    reads as 1 to 99, valid for the extraction, is dropped from the result
    event. *)
Theorem server_drops_cheap_listings (step : dict) (p : Page) :
  is_zomato (site_of step) = true ->
  Forall (fun item =>
            exists text,
              item !! "price" = Some (PStr text) /\
              keeps item = Ok (match int_of_str text with
                               | Some n => (100 <=? n)%Z
                               | None => true
                               end))
    (extracted_items
       (res (_handle_extract_products drive elapse float_of_str float_of_int float_repr
               step p))).
Proof.
  intros Hsite.
  eapply Forall_impl;
    [apply (handler_shape drive elapse float_of_str float_of_int float_repr step p)|].
  intros item ((raw & Hname & Hlen) & Hprice). rewrite Hsite in Hprice.
  destruct Hprice as [Hprice | (n & Hprice & Hn)].
  - exists "". split; [exact Hprice|]. by apply keeps_empty_price with raw.
  - exists (str_of_int n). split; [exact Hprice|].
    rewrite (int_of_str_str_of_int n) by lia.
    apply keeps_printed_price with raw; try done; lia.
Qed.

End Endpoint.
End Server.


(** ** The planner: from an intent to a plan *)

Module Planner.
Import Py Engine.

Set Warnings "-register-all".

(** Intent data and plans are JSON-like values; a dict keeps the order of
    its keys. *)
Inductive jval :=
| Atom (v : pyval)
| Arr (items : list jval)
| Obj (fields : list (string * jval)).

Abbreviation jdict := (list (string * jval)).

Definition text (s : string) : jval := Atom (PStr s).

Fixpoint lookup_key {V} (k : string) (d : list (string * V)) : option V :=
  match d with
  | [] => None
  | (k', v) :: rest => if bool_decide (k' = k) then Some v else lookup_key k rest
  end.

(** [d.get(k)] and [d.get(k, dflt)] *)
Definition jget (d : jdict) (k : string) : jval := default (Atom PNone) (lookup_key k d).
Definition jget_or (d : jdict) (k : string) (dflt : jval) : jval :=
  default dflt (lookup_key k d).

(** [d[k]] *)
Definition KeyError (k : string) : exn := Exn "KeyError" ("'" +:+ k +:+ "'").
Definition item {V} (d : list (string * V)) (k : string) : result V :=
  match lookup_key k d with
  | Some v => Ok v
  | None => Raise (KeyError k)
  end.

Definition jtruthy (v : jval) : bool :=
  match v with
  | Atom a => truthy a
  | Arr [] | Obj [] => false
  | _ => true
  end.

Definition jor (a b : jval) : jval := if jtruthy a then a else b.

(** [v == s] for a string literal [s] *)
Definition jeq (v : jval) (s : string) : bool :=
  match v with
  | Atom a => str_eq a s
  | _ => false
  end.

(** A [str] method called on [v], a [dict] method called on [v]. *)
Definition as_text (v : jval) : result string :=
  match v with
  | Atom (PStr s) => Ok s
  | _ => Raise (AttributeError "object has no such str method")
  end.

Definition as_obj (v : jval) : result jdict :=
  match v with
  | Obj d => Ok d
  | _ => Raise (AttributeError "object has no such dict method")
  end.

(** The characters of a string, a character being a byte that is not a
    continuation byte together with the continuation bytes after it. *)
Fixpoint code_points (s : string) : list string :=
  match s with
  | EmptyString => []
  | String c s' =>
      match s' with
      | String d _ =>
          if is_cont d then
            match code_points s' with
            | g :: gs => String c g :: gs
            | [] => [String c ""]
            end
          else String c "" :: code_points s'
      | EmptyString => [String c ""]
      end
  end.

(** [for x in v] *)
Definition iterate (v : jval) : result (list jval) :=
  match v with
  | Arr l => Ok l
  | Obj d => Ok (map (fun kv => text (fst kv)) d)
  | Atom (PStr s) => Ok (map text (code_points s))
  | Atom _ => Raise (TypeError "object is not iterable")
  end.

Abbreviation config := (list (string * string)).

Definition flipkart_config : config :=
  [("url", "https://www.flipkart.com");
   ("search_input",
    "input[title*='Search'], input[name='q'], input[placeholder*='Search'], input[type='text']");
   ("search_button", "button[type='submit'], svg + button, button._2iLD__");
   ("product_card",
    "[data-id], div[data-id], ._1AtVbE, div._2kHMtA, div[class*='_13oc-S'], div[class*='tUxRFH']");
   ("price_selector", "._30jeq3, ._25b18c, div[class*='_30jeq3'], div._1_WHN1");
   ("title_selector", "a._2UzuFa, a.s1Q9rs, a[title], ._4rR01T, a._1fQZEK");
   ("rating_selector", "._3LWZlK, div[class*='_3LWZlK'], ._2_R_DZ span");
   ("link_selector", "a._2UzuFa, a.s1Q9rs, a._1fQZEK, a")].

Definition amazon_config : config :=
  [("url", "https://www.amazon.in");
   ("search_input", "#twotabsearchtextbox, input[name='field-keywords']");
   ("search_button", "#nav-search-submit-button, input[type='submit'][value='Go']");
   ("product_card", "[data-index], .s-result-item");
   ("price_selector", ".a-price-whole, .a-price .a-offscreen");
   ("title_selector", "h2 a span, .a-text-normal");
   ("rating_selector", ".a-icon-alt, .a-icon-star-small");
   ("link_selector", "h2 a")].

Definition zomato_config : config :=
  [("url", "https://www.zomato.com");
   ("search_input", "input[placeholder*='Search'], input[name='q'], input[type='text']");
   ("search_button", "button[type='submit'], .sc-fzqARJ, button");
   ("restaurant_card",
    "[data-testid*='restaurant'], [class*='jumbo-tracker'], [class*='sc-1mo3ldo'], [class*='restaurant-card']");
   ("name_selector", "h4, a[href*='/r/'], [class*='restaurant-name']");
   ("rating_selector", "[class*='rating'], [class*='sc-1q7bklc'], .rating");
   ("price_selector", "[class*='cost'], [class*='sc-1hez2tp'], [class*='price-range']");
   ("link_selector", "a[href*='/r/'], a")].

Definition SITE_CONFIGS : list (string * config) :=
  [("flipkart", flipkart_config); ("amazon", amazon_config); ("zomato", zomato_config)].

(** [SITE_CONFIGS.get(site, SITE_CONFIGS["flipkart"])]: a key that is not a
    string is not found, a list or dict cannot be hashed. *)
Definition config_for (site : jval) : result config :=
  match site with
  | Atom (PStr s) => Ok (default flipkart_config (lookup_key s SITE_CONFIGS))
  | Atom _ => Ok flipkart_config
  | _ => Raise (TypeError "unhashable type")
  end.

Notation "x <~ r ;; k" := (rbind r (fun x => k))
  (at level 100, r at next level, k at level 200, right associativity).

(** The steps the planner writes. *)
Definition navigate_step (url : jval) : jval :=
  Obj [("action", text "navigate"); ("url", url); ("wait_until", text "networkidle")].

Definition field_step (kv : string * jval) : jval :=
  Obj [("action", text "fill_form_field"); ("field_name", text (fst kv));
       ("value", snd kv); ("generate_if_needed", Atom (PBool true))].

Definition submit_step : jval :=
  Obj [("action", text "submit_form"); ("wait_after", text "networkidle")].

(** The loop [for site in sites] of the comparison branch: one navigate
    step per site; what it leaves in [site] and [site_config]. *)
Fixpoint visit_sites (sites : list jval) (last : option (jval * config))
  : result (list jval * option (jval * config)) :=
  match sites with
  | [] => Ok ([], last)
  | site :: rest =>
      site_config <~ config_for site ;;
      url <~ item site_config "url" ;;
      visited <~ visit_sites rest (Some (site, site_config)) ;;
      Ok (Obj [("action", text "navigate"); ("url", text url)] :: fst visited,
          snd visited)
  end.

Section Planning.

(** The engine that runs the plans. *)
Context {Page Handle : Type}.
Variable drive : forall c : call, Page -> Page * result (@reply_of Handle c).
Variable elapse : Q -> Page -> Page.
Variable random_choices : nat -> Page -> Page * string.
Variable randint : Z -> Z -> Page -> Page * Z.
Variable float_of_str : string -> option pyfloat.
Variable float_of_int : Z -> option pyfloat.
Variable float_repr : pyfloat -> string.
Variable headless : bool.

(** [str()] of a list or of a dict *)
Variable container_repr : jval -> string.
Variable OPENROUTER_API_KEY : string.
(** The reply of the language model as [_ai_plan] returns it: [None], or
    the list that [json.loads] produced. *)
Variable _ai_plan : jdict -> option (list jval).

Definition jstr (v : jval) : string :=
  match v with
  | Atom a => py_str float_repr a
  | _ => container_repr v
  end.

Definition product_search (intent_data : jdict) (site : string) (filters : jdict)
    (count : jval) : result (list jval) :=
  let site_config := default flipkart_config (lookup_key site SITE_CONFIGS) in
  let query :=
    jor (jget intent_data "query") (jget_or intent_data "product_name" (text "")) in
  url <~ item site_config "url" ;;
  search_input <~ item site_config "search_input" ;;
  search_button <~ item site_config "search_button" ;;
  let price_steps :=
    match lookup_key "max_price" filters with
    | Some max_price =>
        [Obj [("action", text "filter_price"); ("max_price", max_price);
              ("min_price", jget filters "min_price")]]
    | None => []
    end in
  product_card <~ item site_config "product_card" ;;
  title_selector <~ item site_config "title_selector" ;;
  price_selector <~ item site_config "price_selector" ;;
  rating_selector <~ item site_config "rating_selector" ;;
  link_selector <~ item site_config "link_selector" ;;
  Ok ([navigate_step (text url);
       Obj [("action", text "wait_for"); ("selector", text search_input);
            ("timeout", Atom (PInt 10000))];
       Obj [("action", text "type"); ("selector", text search_input);
            ("value", query); ("clear_first", Atom (PBool true))];
       Obj [("action", text "click"); ("selector", text search_button);
            ("wait_after", text "networkidle")]] ++
      price_steps ++
      [Obj [("action", text "extract_products");
            ("product_selector", text product_card);
            ("fields", Obj [("name", text title_selector);
                            ("price", text price_selector);
                            ("rating", text rating_selector);
                            ("url", text link_selector)]);
            ("count", count);
            ("site", text site)]]).

Definition local_discovery (intent_data : jdict) (filters : jdict) (count : jval)
  : result (list jval) :=
  let location := jget_or intent_data "location" (text "") in
  let category := jget_or intent_data "category" (text "restaurants") in
  let site_config := default flipkart_config (lookup_key "zomato" SITE_CONFIGS) in
  let query := jstr category +:+ " near " +:+ jstr location in
  url <~ item site_config "url" ;;
  search_input <~ item site_config "search_input" ;;
  search_button <~ item site_config "search_button" ;;
  let rating_steps :=
    match lookup_key "rating_min" filters with
    | Some rating_min =>
        [Obj [("action", text "filter_rating"); ("min_rating", rating_min)]]
    | None => []
    end in
  rating_selector <~ item site_config "rating_selector" ;;
  link_selector <~ item site_config "link_selector" ;;
  Ok ([navigate_step (text url);
       Obj [("action", text "type"); ("selector", text search_input);
            ("value", text query)];
       Obj [("action", text "click"); ("selector", text search_button);
            ("wait_after", text "networkidle")]] ++
      rating_steps ++
      [Obj [("action", text "extract_products");
            ("product_selector",
             text (default (default "" (lookup_key "product_card" site_config))
                           (lookup_key "restaurant_card" site_config)));
            ("fields",
             Obj [("name",
                   text (default (default "" (lookup_key "title_selector" site_config))
                                 (lookup_key "name_selector" site_config)));
                  ("rating", text rating_selector);
                  ("price", text (default "" (lookup_key "price_selector" site_config)));
                  ("url", text link_selector)]);
            ("count", count);
            ("site", text "zomato");
            ("min_rating", jget filters "rating_min")]]).

Definition form_fill (intent_data : jdict) : result (list jval) :=
  let url := jget_or intent_data "url" (text "") in
  form_data <~ as_obj (jget_or intent_data "form_data" (Obj [])) ;;
  Ok ((if jtruthy url then [navigate_step url] else []) ++
      map field_step form_data ++ [submit_step]).

Definition UnboundLocalError (name : string) : exn := Exn "UnboundLocalError" name.

(** The three steps after the loop of the comparison branch, written from
    what the loop left in [site] and [site_config]. *)
Definition comparison_tail (product_name site : jval) (site_config : config)
  : result (list jval) :=
  search_input <~ item site_config "search_input" ;;
  search_button <~ item site_config "search_button" ;;
  product_card <~ item site_config "product_card" ;;
  title_selector <~ item site_config "title_selector" ;;
  price_selector <~ item site_config "price_selector" ;;
  rating_selector <~ item site_config "rating_selector" ;;
  link_selector <~ item site_config "link_selector" ;;
  Ok [Obj [("action", text "type"); ("selector", text search_input);
           ("value", product_name)];
      Obj [("action", text "click"); ("selector", text search_button)];
      Obj [("action", text "extract_products");
           ("product_selector", text product_card);
           ("fields", Obj [("name", text title_selector);
                           ("price", text price_selector);
                           ("rating", text rating_selector);
                           ("url", text link_selector)]);
           ("count", Atom (PInt 1));
           ("site", site)]].

Definition comparison (intent_data : jdict) : result (list jval) :=
  let product_name := jget_or intent_data "product_name" (text "") in
  sites <~ iterate (jget_or intent_data "sites" (Arr [text "flipkart"; text "amazon"])) ;;
  visited <~ visit_sites sites None ;;
  match snd visited with
  | None => Raise (UnboundLocalError "site_config")
  | Some (site, site_config) =>
      tail <~ comparison_tail product_name site site_config ;;
      Ok (fst visited ++ tail)
  end.

Definition navigation (intent_data : jdict) : list jval :=
  let url := jget_or intent_data "url" (text "") in
  if jtruthy url then [navigate_step url] else [].

Definition unsupported_reason (intent : jval) : string :=
  "Intent '" +:+ jstr intent +:+
  "' not handled yet. Please try: product_search, local_discovery, form_fill, or comparison.".

(** The [if / elif] chain on the intent. *)
Definition rules (intent_data : jdict) (intent : jval) (site : string) (filters : jdict)
    (count : jval) : result (list jval) :=
  if jeq intent "product_search" then product_search intent_data site filters count
  else if jeq intent "local_discovery" then local_discovery intent_data filters count
  else if jeq intent "form_fill" then form_fill intent_data
  else if jeq intent "comparison" then comparison intent_data
  else if jeq intent "navigation" then Ok (navigation intent_data)
  else Ok [Obj [("action", text "unsupported");
                ("reason", text (unsupported_reason intent))]].

Definition generate_action_plan (intent_data : jdict) : result (list jval) :=
  let intent := jget_or intent_data "intent" (text "unknown") in
  site <~ as_text (jget_or intent_data "site" (text "flipkart")) ;;
  let site := lower site in
  filters <~ as_obj (jget_or intent_data "filters" (Obj [])) ;;
  let count := jget_or filters "count" (Atom (PInt 3)) in
  match (if truthy (PStr OPENROUTER_API_KEY) then _ai_plan intent_data else None) with
  | Some (step :: steps) => Ok (step :: steps)
  | _ => rules intent_data intent site filters count
  end.

(** *** Plans as the engine reads them *)

(** The engine reads scalar keys of a step only; the nested "fields" of an
    extract step are carried along but never used. *)
Fixpoint scalars (fields : jdict) : option dict :=
  match fields with
  | [] => Some ∅
  | (k, Atom v) :: rest => insert k v <$> scalars rest
  | (k, _) :: rest =>
      if bool_decide (k = "fields") then delete k <$> scalars rest else None
  end.

Definition step_of (step : jval) : option dict :=
  match step with
  | Obj fields => scalars fields
  | _ => None
  end.

(** *** What the planner writes *)

(** A key of a step. *)
Definition jfield (step : jval) (k : string) : option jval :=
  match step with
  | Obj fields => lookup_key k fields
  | _ => None
  end.

(** The arguments every intent needs: a site that is a string and filters
    that are a dict. *)
Definition well_formed (intent_data : jdict) (site : string) (filters : jdict) : Prop :=
  jget_or intent_data "site" (text "flipkart") = text site /\
  jget_or intent_data "filters" (Obj []) = Obj filters.

Lemma generate_by_rules intent_data site filters :
  OPENROUTER_API_KEY = "" ->
  well_formed intent_data site filters ->
  generate_action_plan intent_data =
  rules intent_data (jget_or intent_data "intent" (text "unknown")) (lower site) filters
    (jget_or filters "count" (Atom (PInt 3))).
Proof.
  intros Hkey [Hsite Hfilters]. unfold generate_action_plan. cbv zeta.
  by rewrite Hsite, Hfilters, Hkey.
Qed.

Lemma generate_ok intent_data plan :
  OPENROUTER_API_KEY = "" ->
  generate_action_plan intent_data = Ok plan ->
  exists site filters,
    well_formed intent_data site filters /\
    rules intent_data (jget_or intent_data "intent" (text "unknown")) (lower site) filters
      (jget_or filters "count" (Atom (PInt 3))) = Ok plan.
Proof.
  intros Hkey H. unfold generate_action_plan in H. cbv zeta in H.
  apply rbind_ok in H. destruct H as (site & Hsite & H).
  apply rbind_ok in H. destruct H as (filters & Hfilters & H).
  rewrite Hkey in H. exists site, filters. split; [|exact H]. split.
  - destruct (jget_or intent_data "site" _) as [[]| |]; try discriminate.
    by injection Hsite as ->.
  - destruct (jget_or intent_data "filters" _); try discriminate.
    by injection Hfilters as ->.
Qed.

(** The intents the planner has rules for. *)
Definition handled_intents : list string :=
  ["product_search"; "local_discovery"; "form_fill"; "comparison"; "navigation"].

Abbreviation run_steps' :=
  (run_steps drive elapse random_choices randint float_of_str float_of_int float_repr).

(** X20. Without a language-model plan, an intent the planner has no rule
    for (a missing one counts as "unknown") gives the one-step plan
    "unsupported" with the reason "Intent '<intent>' not handled yet ...";
    the engine answers it with that reason as an Error and does nothing on
    the page. *)
Theorem unknown_intent_is_unsupported
  (intent_data : jdict) (site : string) (filters : jdict) (p : Page) :
  OPENROUTER_API_KEY = "" ->
  well_formed intent_data site filters ->
  Forall (fun name => jeq (jget_or intent_data "intent" (text "unknown")) name = false)
    handled_intents ->
  let reason := unsupported_reason (jget_or intent_data "intent" (text "unknown")) in
  exists step,
    generate_action_plan intent_data =
      Ok [Obj [("action", text "unsupported"); ("reason", text reason)]] /\
    step_of (Obj [("action", text "unsupported"); ("reason", text reason)]) = Some step /\
    run_steps' 1 0 [step] [] p =
      Outcome (Ok []) p
        [Emit (ActionStart (PStr "unsupported") 1 1); Emit (Error (PStr reason) false)].
Proof.
  intros Hkey Hwf Hunknown. cbv zeta.
  rewrite (generate_by_rules _ _ _ Hkey Hwf). unfold rules.
  unfold handled_intents in Hunknown.
  repeat match type of Hunknown with
         | Forall _ (_ :: _) =>
             apply Forall_cons in Hunknown;
             let H := fresh "Hname" in destruct Hunknown as [H Hunknown]
         end.
  rewrite Hname, Hname0, Hname1, Hname2, Hname3.
  eexists. split; [reflexivity|]. split; [reflexivity|].
  cbn [run_steps]. unfold bind.
  rewrite run_step_unsupported by reflexivity.
  reflexivity.
Qed.

(** What the engine reads of a step is the first scalar under the key. *)
Lemma scalars_lookup fields step k :
  scalars fields = Some step ->
  step !! k = match lookup_key k fields with
              | Some (Atom v) => Some v
              | _ => None
              end.
Proof.
  revert step. induction fields as [|[k' v] fields IH]; intros step H.
  { injection H as <-. apply lookup_empty. }
  cbn [scalars lookup_key] in *.
  destruct v as [a|items|inner];
    [|case_bool_decide; [|discriminate]..];
    (destruct (scalars fields) as [rest|]; [|discriminate]);
    injection H as <-; case_bool_decide as Hk.
  - subst. apply lookup_insert_eq.
  - rewrite lookup_insert_ne by done. by apply IH.
  - subst. apply lookup_delete_eq.
  - rewrite lookup_delete_ne by done. by apply IH.
  - subst. apply lookup_delete_eq.
  - rewrite lookup_delete_ne by done. by apply IH.
Qed.

Lemma step_of_get step fields k :
  step_of (Obj fields) = Some step ->
  get step k = match lookup_key k fields with
               | Some (Atom v) => v
               | _ => PNone
               end.
Proof.
  intros H. unfold get. rewrite (scalars_lookup fields step k H).
  by destruct (lookup_key k fields) as [[]|].
Qed.

(** A step that is not an extract step, or one without price bounds. *)
Definition no_price_bounds (step : jval) : Prop :=
  jfield step "action" = Some (text "extract_products") ->
  jfield step "max_price" = None /\ jfield step "min_price" = None.

Lemma visit_sites_navigates sites :
  forall prior navs final,
    visit_sites sites prior = Ok (navs, final) ->
    Forall (fun step => jfield step "action" = Some (text "navigate")) navs /\
    length navs = length sites /\
    match last sites with
    | Some site => exists cfg, config_for site = Ok cfg /\ final = Some (site, cfg)
    | None => final = prior
    end.
Proof.
  induction sites as [|site sites IH]; intros prior navs final H.
  { injection H as <- <-. by repeat split. }
  cbn [visit_sites] in H.
  apply rbind_ok in H. destruct H as (cfg & Hcfg & H).
  apply rbind_ok in H. destruct H as (url & Hurl & H).
  apply rbind_ok in H. destruct H as ([navs' final'] & Hrest & H).
  injection H as <- <-. cbn [fst snd].
  destruct (IH _ _ _ Hrest) as (Hnavs & Hlen & Hfinal).
  split; [by constructor|]. split; [cbn; by rewrite Hlen|].
  destruct sites as [|site' sites]; [by exists cfg|].
  change (last (site :: site' :: sites)) with (last (site' :: sites)).
  destruct (last (site' :: sites)) eqn:Hlast; [exact Hfinal|].
  by apply last_None in Hlast.
Qed.

Ltac settle_steps :=
  repeat first
    [ apply Forall_nil_2
    | apply Forall_cons; split
    | apply Forall_app; split
    | match goal with
      | |- no_price_bounds _ =>
          let H := fresh in
          intros H; first [ by vm_compute in H | by split ]
      end ].

(** X21. No extract step the rules write carries a price bound: the bounds
    of the intent go to the filter_price step alone, so the price filter
    of the extraction, which reads the extract step's own keys, is never
    switched on by a planned search. *)
Theorem planned_extraction_has_no_price_bounds (intent_data : jdict) (plan : list jval) :
  OPENROUTER_API_KEY = "" ->
  generate_action_plan intent_data = Ok plan ->
  Forall no_price_bounds plan /\
  forall step fields,
    Obj fields ∈ plan -> jfield (Obj fields) "action" = Some (text "extract_products") ->
    step_of (Obj fields) = Some step ->
    truthy (get step "max_price") || truthy (get step "min_price") = false.
Proof.
  intros Hkey H. destruct (generate_ok _ _ Hkey H) as (site & filters & _ & Hrules).
  clear H. assert (Hplan : Forall no_price_bounds plan).
  { unfold rules in Hrules.
    repeat match type of Hrules with
           | (if ?c then _ else _) = _ => destruct c
           end.
    - unfold product_search in Hrules. cbv zeta in Hrules.
      repeat (apply rbind_ok in Hrules; destruct Hrules as (? & _ & Hrules)).
      injection Hrules as <-. destruct (lookup_key "max_price" filters); settle_steps.
    - unfold local_discovery in Hrules. cbv zeta in Hrules.
      repeat (apply rbind_ok in Hrules; destruct Hrules as (? & _ & Hrules)).
      injection Hrules as <-. destruct (lookup_key "rating_min" filters); settle_steps.
    - unfold form_fill in Hrules. cbv zeta in Hrules.
      apply rbind_ok in Hrules. destruct Hrules as (form_data & _ & Hrules).
      injection Hrules as <-. destruct (jtruthy _); settle_steps;
        apply Forall_fmap, Forall_true; intros kv Haction; by vm_compute in Haction.
    - unfold comparison in Hrules. cbv zeta in Hrules.
      apply rbind_ok in Hrules. destruct Hrules as (sites & _ & Hrules).
      apply rbind_ok in Hrules. destruct Hrules as ([navs final] & Hvisit & Hrules).
      cbn [fst snd] in Hrules. destruct final as [[last cfg]|]; [|discriminate].
      apply rbind_ok in Hrules. destruct Hrules as (tail & Htail & Hrules).
      unfold comparison_tail in Htail.
      repeat (apply rbind_ok in Htail; destruct Htail as (? & _ & Htail)).
      injection Htail as <-. injection Hrules as <-. settle_steps.
      apply visit_sites_navigates in Hvisit. destruct Hvisit as (Hnavs & _).
      eapply Forall_impl; [exact Hnavs|]. intros step Hstep Haction.
      rewrite Hstep in Haction. by vm_compute in Haction.
    - injection Hrules as <-. unfold navigation. cbv zeta.
      destruct (jtruthy _); settle_steps.
    - injection Hrules as <-. settle_steps. }
  split; [exact Hplan|].
  intros step fields Hin Haction Hstep.
  rewrite Forall_forall in Hplan. destruct (Hplan _ Hin Haction) as [Hmax Hmin].
  cbn [jfield] in Hmax, Hmin.
  by rewrite (step_of_get _ _ "max_price" Hstep), (step_of_get _ _ "min_price" Hstep),
    Hmax, Hmin.
Qed.

(** X22. A product search on zomato cannot be planned: the zomato entry
    of the site table has no "product_card", so the rules raise KeyError
    after the first four steps were written, and no plan is returned. *)
Theorem product_search_on_zomato_raises
  (intent_data : jdict) (site : string) (filters : jdict) :
  OPENROUTER_API_KEY = "" ->
  well_formed intent_data site filters ->
  jeq (jget_or intent_data "intent" (text "unknown")) "product_search" = true ->
  lower site = "zomato" ->
  generate_action_plan intent_data = Raise (KeyError "product_card").
Proof.
  intros Hkey Hwf Hintent Hsite.
  rewrite (generate_by_rules _ _ _ Hkey Hwf). unfold rules.
  rewrite Hintent, Hsite. reflexivity.
Qed.

Lemma config_cases site cfg :
  config_for site = Ok cfg ->
  cfg = flipkart_config \/ cfg = amazon_config \/ cfg = zomato_config.
Proof.
  destruct site as [[| | | |s]| |]; try discriminate;
    try (intros [= <-]; by left).
  cbn [config_for]. unfold SITE_CONFIGS. cbn [lookup_key].
  repeat case_bool_decide; intros [= <-]; auto.
Qed.

Lemma visit_sites_raises sites :
  forall prior e,
    visit_sites sites prior = Raise e -> exists s, s ∈ sites /\ config_for s = Raise e.
Proof.
  induction sites as [|site sites IH]; intros prior e H; [discriminate|].
  cbn [visit_sites] in H.
  destruct (config_for site) as [cfg|e'] eqn:Hcfg.
  2:{ injection H as <-. exists site. split; [by left | exact Hcfg]. }
  cbn [rbind] in H.
  assert (Hurl : exists url, item cfg "url" = Ok url).
  { destruct (config_cases _ _ Hcfg) as [-> | [-> | ->]]; by eexists. }
  destruct Hurl as (url & Hurl). rewrite Hurl in H. cbn [rbind] in H.
  destruct (visit_sites sites _) as [visited|e'] eqn:Hrest; [discriminate|].
  injection H as <-. destruct (IH _ _ Hrest) as (s & Hs & Hraise).
  exists s. split; [by right | exact Hraise].
Qed.

(** X23. A comparison visits every site but searches only the last: the
    plan is one navigate step per site followed by a single type, click
    and extract step, all three written from the entry of the last site
    and asking for one result. With no site at all the rules raise
    UnboundLocalError. *)
Theorem comparison_searches_last_site_only
  (intent_data : jdict) (site : string) (filters : jdict) (sites : list jval) :
  OPENROUTER_API_KEY = "" ->
  well_formed intent_data site filters ->
  jeq (jget_or intent_data "intent" (text "unknown")) "comparison" = true ->
  iterate (jget_or intent_data "sites" (Arr [text "flipkart"; text "amazon"])) = Ok sites ->
  match generate_action_plan intent_data with
  | Ok plan =>
      exists navs last_site site_config tail,
        plan = navs ++ tail /\
        length navs = length sites /\
        Forall (fun step => jfield step "action" = Some (text "navigate")) navs /\
        last sites = Some last_site /\
        config_for last_site = Ok site_config /\
        comparison_tail (jget_or intent_data "product_name" (text "")) last_site
          site_config = Ok tail
  | Raise e =>
      (sites = [] /\ e = UnboundLocalError "site_config") \/
      (exists s, s ∈ sites /\ config_for s = Raise e) \/
      (exists last_site, last sites = Some last_site /\
                         config_for last_site = Ok zomato_config /\
                         e = KeyError "product_card")
  end.
Proof.
  intros Hkey Hwf Hintent Hsites.
  rewrite (generate_by_rules _ _ _ Hkey Hwf). unfold rules.
  assert (Hnot : forall name, name <> "comparison" ->
                   jeq (jget_or intent_data "intent" (text "unknown")) name = false).
  { intros name Hname. destruct (jget_or intent_data "intent" _) as [[]| |];
      try reflexivity.
    cbn [jeq str_eq] in *. apply bool_decide_eq_true_1 in Hintent. subst.
    by apply bool_decide_eq_false_2. }
  rewrite !Hnot by done. rewrite Hintent.
  unfold comparison. cbv zeta. rewrite Hsites. cbn [rbind].
  destruct (visit_sites sites None) as [[navs final]|e] eqn:Hvisit; cbn [rbind fst snd].
  2:{ right. left. by apply visit_sites_raises in Hvisit. }
  apply visit_sites_navigates in Hvisit. destruct Hvisit as (Hnavs & Hlen & Hlast).
  destruct (last sites) as [last_site|] eqn:Hsite.
  2:{ subst final. left. split; [by apply last_None in Hsite | reflexivity]. }
  destruct Hlast as (cfg & Hcfg & ->).
  destruct (comparison_tail _ last_site cfg) as [tail|e] eqn:Htail; cbn [rbind].
  { exists navs, last_site, cfg, tail. by repeat split. }
  right. right. exists last_site. split; [reflexivity|].
  destruct (config_cases _ _ Hcfg) as [-> | [-> | ->]];
    [discriminate Htail | discriminate Htail |].
  split; [exact Hcfg|]. by injection Htail as <-.
Qed.

Abbreviation fill_value' := (fill_value random_choices randint).
Abbreviation generated_value' := (generated_value random_choices randint).

(** X25. A form-fill plan is the optional navigate step, one
    fill_form_field step per entry of the form data in their order, and
    the submit step. Every field step sets generate_if_needed, so the
    engine types a made-up value for the field and never the value of the
    form data. *)
Theorem form_values_are_made_up
  (intent_data : jdict) (site : string) (filters : jdict) (form_data : jdict) :
  OPENROUTER_API_KEY = "" ->
  well_formed intent_data site filters ->
  jeq (jget_or intent_data "intent" (text "unknown")) "form_fill" = true ->
  jget_or intent_data "form_data" (Obj []) = Obj form_data ->
  generate_action_plan intent_data =
    Ok ((if jtruthy (jget_or intent_data "url" (text ""))
         then [navigate_step (jget_or intent_data "url" (text ""))] else []) ++
        map field_step form_data ++ [submit_step]) /\
  forall name v,
    exists step,
      step_of (field_step (name, Atom v)) = Some step /\
      forall p, fill_value' step p = generated_value' name p.
Proof.
  intros Hkey Hwf Hintent Hform.
  rewrite (generate_by_rules _ _ _ Hkey Hwf). unfold rules.
  assert (Hnot : jeq (jget_or intent_data "intent" (text "unknown")) "product_search"
                 = false /\
                 jeq (jget_or intent_data "intent" (text "unknown")) "local_discovery"
                 = false).
  { destruct (jget_or intent_data "intent" _) as [[]| |]; try done.
    cbn [jeq str_eq] in *. apply bool_decide_eq_true_1 in Hintent. by subst. }
  destruct Hnot as [-> ->]. rewrite Hintent. unfold form_fill. cbv zeta.
  rewrite Hform. split; [reflexivity|].
  intros name v. eexists. split; [reflexivity|].
  intros p. apply fill_value_generates; reflexivity.
Qed.

(** X26. A local discovery always goes to zomato, whatever site the intent
    names: the plan starts at https://www.zomato.com and ends with an
    extract step for the site "zomato" that carries the count and the
    minimum rating of the filters, so that the extraction filters by
    rating exactly when that minimum is truthy. *)
Theorem local_discovery_goes_to_zomato
  (intent_data : jdict) (site : string) (filters : jdict) (count rating : pyval) :
  OPENROUTER_API_KEY = "" ->
  well_formed intent_data site filters ->
  jeq (jget_or intent_data "intent" (text "unknown")) "local_discovery" = true ->
  jget_or filters "count" (Atom (PInt 3)) = Atom count ->
  jget filters "rating_min" = Atom rating ->
  exists middle extract step,
    generate_action_plan intent_data =
      Ok (navigate_step (text "https://www.zomato.com") :: middle ++ [extract]) /\
    step_of extract = Some step /\
    get step "action" = PStr "extract_products" /\
    is_zomato (site_of step) = true /\
    get_or step "count" (PInt 3) = count /\
    get step "min_rating" = rating /\
    truthy (get step "min_rating") && is_zomato (site_of step) = truthy rating.
Proof.
  intros Hkey Hwf Hintent Hcount Hrating.
  rewrite (generate_by_rules _ _ _ Hkey Hwf). unfold rules.
  assert (Hnot : jeq (jget_or intent_data "intent" (text "unknown")) "product_search"
                 = false).
  { destruct (jget_or intent_data "intent" _) as [[]| |]; try done.
    cbn [jeq str_eq] in *. apply bool_decide_eq_true_1 in Hintent. by subst. }
  rewrite Hnot, Hintent, Hcount. unfold local_discovery. cbv zeta. rewrite Hrating.
  set (typed :=
         Obj [("action", text "type");
              ("selector",
               text "input[placeholder*='Search'], input[name='q'], input[type='text']");
              ("value",
               text (jstr (jget_or intent_data "category" (text "restaurants")) +:+
                     " near " +:+ jstr (jget_or intent_data "location" (text ""))))]).
  set (clicked :=
         Obj [("action", text "click");
              ("selector", text "button[type='submit'], .sc-fzqARJ, button");
              ("wait_after", text "networkidle")]).
  destruct (lookup_key "rating_min" filters) as [rating_min|];
    [exists [typed; clicked;
             Obj [("action", text "filter_rating"); ("min_rating", rating_min)]]
    |exists [typed; clicked]];
    (eexists; eexists; split; [reflexivity|]; split; [reflexivity|]);
    repeat split; try reflexivity; by rewrite andb_true_r.
Qed.

End Planning.
End Planner.


(** ** A scripted page for concrete runs *)

Module Sim.
Import Py Engine.

(** The state is the number of driver calls made so far; a selector is
    visible, fillable or clickable as the script says, and the handle of a
    resolved selector is the selector itself. *)
Record page_script := PageScript {
  visible : string -> nat -> bool;
  fillable : string -> bool;
  clickable : string -> bool;
  evaluated : list dict;
  page_title : string
}.

Definition timeout_error : exn := Exn "TimeoutError" "Timeout exceeded".

Definition sim_drive (s : page_script) (c : call) (tick : nat)
  : nat * result (@reply_of string c) :=
  (S tick,
   match c return result (@reply_of string c) with
   | WaitForSelector sel _ =>
       if visible s sel tick then Ok sel else Raise timeout_error
   | Title => Ok (page_title s)
   | Evaluate _ => Ok (evaluated s)
   | Fill sel _ _ => if fillable s sel then Ok tt else Raise timeout_error
   | Click sel _ => if clickable s sel then Ok tt else Raise timeout_error
   | TypeText sel _ _ => if fillable s sel then Ok tt else Raise timeout_error
   | Start => Ok tt
   | Launch _ => Ok tt
   | NewContext => Ok tt
   | NewPage => Ok tt
   | Close => Ok tt
   | Goto _ _ _ => Ok tt
   | Press _ => Ok tt
   | WaitForLoadState _ _ => Ok tt
   end).

Definition sim_elapse (seconds : Q) (tick : nat) : nat := tick.

Definition sim_choices (k : nat) (tick : nat) : nat * string :=
  (tick, String.concat "" (repeat "a" k)).

Definition sim_randint (lo hi : Z) (tick : nat) : nat * Z := (tick, lo).

(** Stand-ins for [float()] and [repr()] on plain decimals with an optional
    fraction; they are exact on the values the runs below use. *)
Definition decimal_float (s : string) : option pyfloat :=
  match split_on "." (strip s) with
  | [i] => n ← int_digits 0 false i; Some (Finite (inject_Z n))
  | [i; f] =>
      n ← int_digits 0 false i;
      m ← int_digits 0 false f;
      Some (Finite (Qred (inject_Z n + Qmake m (Pos.pow 10 (Pos.of_nat (String.length f))))))
  | _ => None
  end.

Definition int_float (n : Z) : option pyfloat := Some (Finite (inject_Z n)).

Definition decimal_repr (f : pyfloat) : string :=
  match f with
  | Finite q =>
      let d := Zpos (Qden q) in
      pretty (Qnum q / d)%Z +:+ "." +:+ pretty ((10 * (Qnum q mod d)) / d)%Z
  | PosInf => "inf"
  | NegInf => "-inf"
  | NaN => "nan"
  end.

(** The engine run on a scripted page. *)
Definition resolve (s : page_script) :=
  _find_selector_with_retry (sim_drive s) sim_elapse.

Definition extract (s : page_script) :=
  _handle_extract_products (sim_drive s) sim_elapse decimal_float int_float decimal_repr.

Definition fill_field (s : page_script) :=
  _handle_fill_form_field (sim_drive s) sim_elapse sim_choices sim_randint decimal_repr.

Definition step_once (s : page_script) :=
  run_step (sim_drive s) sim_elapse sim_choices sim_randint
           decimal_float int_float decimal_repr.

Definition execute (s : page_script) :=
  run_steps (sim_drive s) sim_elapse sim_choices sim_randint
            decimal_float int_float decimal_repr.

Definition run (s : page_script) :=
  run_action_plan (sim_drive s) sim_elapse sim_choices sim_randint
                  decimal_float int_float decimal_repr false.

(** A page on which some calls fail whatever the script says. *)
Definition with_outage (down : call -> option exn) (s : page_script) (c : call)
    (tick : nat) : nat * result (@reply_of string c) :=
  match down c with
  | Some e => (S tick, Raise e)
  | None => sim_drive s c tick
  end.

End Sim.

(** ** Concrete runs *)

Module Scenarios.
Import Py Engine Sim.

Definition st (fields : list (string * pyval)) : dict := list_to_map fields.

Definition record (name price rating : string) : dict :=
  st [("name", PStr name); ("price", PStr price); ("rating", PStr rating)].

Definition ready (shows : string -> nat -> bool) (fills : string -> bool)
    (records : list dict) : page_script :=
  PageScript shows fills (fun _ => true) records "Results".

(** Nothing ever becomes visible. *)
Definition blank : page_script := ready (fun _ _ => false) (fun _ => true) [].

(** Only "#b" is visible. *)
Definition only_b : page_script :=
  ready (fun sel _ => bool_decide (sel = "#b")) (fun _ => true) [].

(** A form whose field is found by id only. *)
Definition by_id : page_script :=
  ready (fun sel _ => bool_decide (sel = "#email"))
        (fun sel => bool_decide (sel = "#email")) [].

(** A product page: the first record carries the rating text "12". *)
Definition shop : page_script :=
  ready (fun _ _ => true) (fun _ => true)
    [record "Laptop A" "45000" "12"; record "ab" "500" "4";
     record "Cheap thing" "99" "4"; record "Phone B" "₹12999" ""].

(** A listing page: five valid records, two of them rated 4.0 or more. *)
Definition venues : page_script :=
  ready (fun _ _ => true) (fun _ => true)
    [record "Pizza One" "" "4.5"; record "Pizza Two" "" "3.9";
     record "Pizza Three" "" "4.0"; record "Pizza Four" "" "";
     record "Pizza Five" "" "2.1"].


Definition extract_step (fields : list (string * pyval)) : dict :=
  st (("action", PStr "extract_products") :: fields).

Definition type_step : dict :=
  st [("action", PStr "type"); ("selector", PStr "#q"); ("value", PStr "laptop")].

Definition email_step : dict :=
  st [("action", PStr "fill_form_field"); ("field_name", PStr "email");
      ("value", PStr "a@b.c")].

Definition unsupported_step : dict :=
  st [("action", PStr "unsupported"); ("reason", PStr "Intent not handled yet.")].

Definition click_step : dict :=
  st [("action", PStr "click"); ("selector", PStr "button")].

Definition navigate_step : dict :=
  st [("action", PStr "navigate"); ("url", PStr "https://www.flipkart.com")].

(** A product card without a rating badge: the only rating selector that
    matches is the span with the number of ratings. *)
Definition card : Script.container :=
  fun sel => if bool_decide (sel = "._2_R_DZ span")
             then Some (Script.Element "12,345 Ratings & 678 Reviews"
                                       "12,345 Ratings & 678 Reviews")
             else None.


(** The records [venues] yields, by name and rating. *)
Definition names_and_ratings (items : list dict) : list (pyval * pyval) :=
  map (fun item => (get item "name", get item "rating")) items.

(** Scenario C of the specification: "#a" never appears, "#b" appears on
    the second attempt. *)
Definition b_on_second_attempt : page_script :=
  ready (fun sel tick => bool_decide (sel = "#b") && (4 <=? tick)%nat) (fun _ => true) [].

Example resolves_b_on_second_attempt :
  resolve b_on_second_attempt "#a, #b" (PInt 10000) 0%nat =
  Outcome (Ok (Some "#b")) 5%nat
    [Did (WaitForSelector "#a" (PInt 10000)) false; Slept 1%Q;
     Did (WaitForSelector "#a" (PInt 10000)) false; Slept 2%Q;
     Did (WaitForSelector "#a" (PInt 10000)) false;
     Did (WaitForSelector "#b" (PInt 10000)) false; Slept 1%Q;
     Did (WaitForSelector "#b" (PInt 10000)) true].
Proof. reflexivity. Qed.

(** A whole run on the blank page: the type step fails, the form step
    warns, the unsupported step stops the run before the click step. *)
Example run_on_blank_page :
  events_of (log (run blank [type_step; email_step; unsupported_step; click_step] 0%nat)) =
  [Status "Browser initialized" "ready";
   ActionStart (PStr "type") 1 4;
   Error (PStr "Error in type: Input not found: #q") false;
   ActionStart (PStr "fill_form_field") 2 4;
   Warning "Field not found: email";
   ActionComplete (PStr "fill_form_field");
   ActionStart (PStr "unsupported") 3 4;
   Error (PStr "Intent not handled yet.") false;
   Status "Task completed" "completed"].
Proof. vm_compute. reflexivity. Qed.


(** A negative count is a slice stop counted from the end. *)
Example negative_count_drops_the_last :
  names_and_ratings
    (extracted_items
       (res (extract venues (extract_step [("site", PStr "zomato"); ("count", PInt (-1))])
                     0%nat))) =
  [(PStr "Pizza One", PStr "4.5"); (PStr "Pizza Two", PStr "3.9");
   (PStr "Pizza Three", PStr "4.0"); (PStr "Pizza Four", PStr "")].
Proof. vm_compute. reflexivity. Qed.

(** C2, on the product page with count 3. *)
Lemma within_count_on_shop :
  (0 <= 3)%Z /\
  (Z.of_nat (length (extracted_items
     (res (extract shop (extract_step [("count", PInt 3)]) 0%nat)))) <= 3)%Z.
Proof.
  split; [lia|].
  apply (extracted_items_within_count (sim_drive shop) sim_elapse sim_choices sim_randint
           decimal_float int_float decimal_repr (extract_step [("count", PInt 3)])
           0%nat 3);
    [reflexivity | lia].
Defined.

(** C3, with candidates "#a, #b" of which only "#b" shows up: three failed
    waits on "#a", then the successful wait on "#b". *)
Lemma first_hit_after_three_misses :
  exists h,
    res (resolve only_b "#a, #b" (PInt 10000) 0%nat) = Ok (Some h) /\
    calls_of (log (resolve only_b "#a, #b" (PInt 10000) 0%nat)) =
      map failed (schedule (PInt 10000) ["#a"]) ++
      [(WaitForSelector "#b" (PInt 10000), true)] /\
    failures (log (resolve only_b "#a, #b" (PInt 10000) 0%nat)) = 3%nat.
Proof.
  destruct (resolver_first_visible_match (sim_drive only_b) sim_elapse
              "#a, #b" (PInt 10000) 0%nat) as (_ & _ & _ & _ & HK & _).
  apply (HK 1%nat "#b").
  - intros c Hc q. apply list_elem_of_singleton in Hc. subst c. reflexivity.
  - reflexivity.
  - intros q. reflexivity.
Defined.

(** C3 fails when candidate [K+1] shows up on a later attempt: with "#a"
    never visible and "#b" visible on its second attempt, four failed waits
    precede the success, not three. *)
Lemma second_attempt_adds_a_failed_wait :
  res (resolve b_on_second_attempt "#a, #b" (PInt 10000) 0%nat) = Ok (Some "#b") /\
  calls_of (log (resolve b_on_second_attempt "#a, #b" (PInt 10000) 0%nat)) =
    map failed (schedule (PInt 10000) ["#a"] ++ [WaitForSelector "#b" (PInt 10000)]) ++
    [(WaitForSelector "#b" (PInt 10000), true)] /\
  failures (log (resolve b_on_second_attempt "#a, #b" (PInt 10000) 0%nat)) = 4%nat.
Proof. vm_compute. repeat split. Qed.

(** C4 fails on a type step whose input never shows up: the step's events
    end with the Error, and no ActionComplete follows. *)
Lemma failed_step_has_no_action_complete :
  events_of (log (step_once blank 1 0 type_step [] 0%nat)) =
  [ActionStart (PStr "type") 1 1;
   Error (PStr "Error in type: Input not found: #q") false].
Proof. vm_compute. reflexivity. Qed.

(** C5, scenario D: five steps, the second one unsupported. *)
Lemma stops_at_second_of_five :
  let plan := [navigate_step; unsupported_step; click_step; click_step; click_step] in
  events_of (log (execute blank 5 0 plan [] 0%nat)) =
    events_of (log (execute blank 5 0 [navigate_step] [] 0%nat)) ++
    [ActionStart (PStr "unsupported") 2 5; Error (PStr "Intent not handled yet.") false].
Proof.
  cbv zeta.
  apply (unsupported_step_stops_run (sim_drive blank) sim_elapse sim_choices sim_randint
           decimal_float int_float decimal_repr false
           [navigate_step; unsupported_step; click_step; click_step; click_step]
           [navigate_step] [click_step; click_step; click_step] unsupported_step 0%nat).
  - reflexivity.
  - reflexivity.
  - repeat constructor.
Defined.


(** C7 fails on the product script: the rating loop takes "12", the start
    of the number of ratings, as it is, and the item keeps it through
    validation. *)
Lemma product_rating_is_not_range_checked :
  Script.flipkart_rating card = Some "12" /\
  Script.flipkart_item_rating card = "12" /\
  names_and_ratings
    (extracted_items (res (extract shop (extract_step [("count", PInt 1)]) 0%nat))) =
  [(PStr "Laptop A", PStr "12")].
Proof. vm_compute. repeat split. Qed.

(** C9 fails when no candidate resolves: the handler returns normally and
    the step is reported complete, with a Warning and no Error. *)
Lemma missing_field_is_not_a_failure :
  res (fill_field blank email_step 0%nat) = Ok tt /\
  events_of (log (step_once blank 1 0 email_step [] 0%nat)) =
  [ActionStart (PStr "fill_form_field") 1 1;
   Warning "Field not found: email";
   ActionComplete (PStr "fill_form_field")].
Proof. vm_compute. split; reflexivity. Qed.

(** C9 as amended, on a page where "#b" is visible and none of the four
    candidates of the field is. *)
Lemma missing_field_beside_a_visible_one :
  res (resolve only_b "#b" (PInt 10000) 0%nat) = Ok (Some "#b") /\
  res (fill_field only_b email_step 0%nat) = Ok tt /\
  events_of (log (fill_field only_b email_step 0%nat)) =
    [Warning "Field not found: email"].
Proof.
  destruct (missing_field_warns_and_completes (sim_drive only_b) sim_elapse sim_choices
              sim_randint decimal_float int_float decimal_repr
              email_step "email" 1 0 [] 0%nat) as (Hres & Hev & _).
  - reflexivity.
  - reflexivity.
  - reflexivity.
  - split; [reflexivity|]. split; [exact Hres | exact Hev].
Defined.

(** C10: the field is found by its id, the fill goes to input[name='email']
    all the same, and its failure is the handler's. *)
Lemma fill_fails_after_late_match :
  res (resolve by_id
         (join "," (field_selectors decimal_repr (PStr "email"))) (PInt 10000) 0%nat) =
    Ok (Some "#email") /\
  res (fill_field by_id email_step 0%nat) = Raise timeout_error /\
  last (calls_of (log (fill_field by_id email_step 0%nat))) =
    Some (Fill "input[name='email']" (PStr "a@b.c") None, false).
Proof.
  destruct (fill_goes_to_first_selector (sim_drive by_id) sim_elapse sim_choices
              sim_randint decimal_repr email_step (PStr "a@b.c") "#email" 0%nat
              eq_refl eq_refl) as [Hcalls Hfill].
  split; [reflexivity|]. split.
  - exact (proj1 Hfill).
  - unfold fill_field. rewrite Hcalls. reflexivity.
Defined.

(** *** Further facts on concrete runs *)

(** The browser executable is missing. *)
Definition no_browser (c : call) : option exn :=
  match c with
  | Launch _ => Some (Exn "Error" "Executable doesn't exist")
  | _ => None
  end.

(** The in-page script cannot be evaluated. *)
Definition no_script (c : call) : option exn :=
  match c with
  | Evaluate _ => Some (Exn "Error" "Execution context was destroyed")
  | _ => None
  end.

(** A listing page with prices of two and of three digits. *)
Definition venues_priced : page_script :=
  ready (fun _ _ => true) (fun _ => true)
    [record "Tea Stall" "50" "4.1"; record "Pizza One" "400" "4.5";
     record "Pizza Two" "" "3.9"].

Definition search_two : dict :=
  st [("action", PStr "type"); ("selector", PStr "#q, #other"); ("value", PStr "laptop")].

Definition scroll_step : dict := st [("action", PStr "scroll")].

Definition field (value : string) : dict :=
  st [("action", PStr "fill_form_field"); ("field_name", PStr "email");
      ("value", PStr value); ("generate_if_needed", PBool true)].

(** X1, with the browser executable missing. *)
Lemma launch_fails_without_browser :
  run_action_plan (with_outage no_browser blank) sim_elapse sim_choices sim_randint
    decimal_float int_float decimal_repr false [navigate_step; click_step] 0%nat =
  Outcome (Ok []) 2%nat
    [Did Start true; Did (Launch false) false;
     Emit (Error (PStr ("Failed to launch browser: " +:+ "Executable doesn't exist" +:+
                        ". Install browsers: playwright install chromium"))
                 false)].
Proof.
  exact (launch_failure_ends_the_run (with_outage no_browser blank) sim_elapse
           sim_choices sim_randint decimal_float int_float decimal_repr false
           [navigate_step; click_step] 0%nat 1%nat 2%nat
           (Exn "Error" "Executable doesn't exist") eq_refl eq_refl).
Defined.

(** X2, on the blank page. *)
Lemma close_comes_last_on_blank_page :
  exists before closed,
    log (run blank [type_step; click_step] 0%nat) = before ++ [Did Close closed] /\
    forall ok, Did Close ok ∉ before.
Proof.
  destruct (launched_browser_is_closed_last (sim_drive blank) sim_elapse sim_choices
              sim_randint decimal_float int_float decimal_repr false
              [type_step; click_step] 0%nat 1%nat 2%nat eq_refl eq_refl)
    as (before & closed & Hlog & Hclose & _).
  exists before, closed. split; [exact Hlog | exact Hclose].
Defined.

(** X5, with two candidates of which the handler tries the first only. *)
Lemma type_tries_the_first_of_two :
  (res (_handle_type (sim_drive blank) sim_elapse search_two 0%nat) =
     Raise (Exn "Exception" ("Input not found: " +:+ "#q")) /\
   log (_handle_type (sim_drive blank) sim_elapse search_two 0%nat) =
     exhausted_log (PInt 10000) "#q") \/
  (exists misses rest, (misses < MAX_RETRIES)%nat /\
     log (_handle_type (sim_drive blank) sim_elapse search_two 0%nat) =
       success_log (PInt 10000) "#q" misses ++ rest /\
     Forall (typing_entry "#q") rest).
Proof.
  exact (type_uses_first_selector_only (sim_drive blank) sim_elapse search_two
           "#q, #other" 0%nat eq_refl).
Defined.

(** X6, for the field "email". *)
Lemma candidates_of_email :
  candidates (join "," (field_selectors decimal_repr (PStr "email"))) =
    ["input[name='email']"; "input[id='email']"; "input[placeholder*='email']"; "#email"].
Proof.
  exact (proj1 (field_candidates_in_order decimal_repr (PStr "email") eq_refl)).
Defined.

(** X7, on a click step whose button can be clicked. *)
Lemma click_on_blank_page :
  exists tail,
    events_of tail = [] /\
    ((exists pre c post,
        candidates "button" = pre ++ c :: post /\
        log (_handle_click (sim_drive blank) sim_elapse click_step 0%nat) =
          map missed_click pre ++
          [Did (Click c (Some 5000%Z)) true; Emit (Action "click" "Clicked" NoExtra)] ++
          tail) \/
     (log (_handle_click (sim_drive blank) sim_elapse click_step 0%nat) =
        map missed_click (candidates "button") ++
        [Did (Press "Enter") true; Emit (Action "click" "Pressed Enter" NoExtra)] ++
        tail) \/
     (log (_handle_click (sim_drive blank) sim_elapse click_step 0%nat) =
        map missed_click (candidates "button") ++ [Did (Press "Enter") false] /\
      exists e, res (_handle_click (sim_drive blank) sim_elapse click_step 0%nat) =
                Raise e)).
Proof.
  destruct (click_falls_back_to_enter (sim_drive blank) sim_elapse click_step "button"
              0%nat eq_refl) as (tail & Hevents & _ & Hlog).
  exists tail. split; [exact Hevents | exact Hlog].
Defined.

(** X11, on a step with the action "scroll". *)
Lemma scroll_is_skipped :
  step_once blank 3 1 scroll_step [] 0%nat =
  Outcome (Ok (Next, [])) 0%nat
    [Emit (ActionStart (PStr "scroll") 2 3);
     Emit (Error (PStr "Unknown action: scroll") false);
     Emit (ActionComplete (PStr "scroll"))].
Proof.
  apply (unknown_action_is_skipped (sim_drive blank) sim_elapse sim_choices sim_randint
           decimal_float int_float decimal_repr 3 1 scroll_step [] 0%nat).
  repeat constructor.
Defined.

(** X13, on the product page with an upper bound of 20000. *)
Lemma bounded_prices_on_shop :
  Forall (fun item =>
            exists n hi lo,
              price_parses item n /\
              upper_bound (extract_step [("max_price", PInt 20000)]) = Ok hi /\
              lower_bound (extract_step [("max_price", PInt 20000)]) = Ok lo /\
              (lo <= n <= hi)%Z)
    (extracted_items (res (extract shop (extract_step [("max_price", PInt 20000)]) 0%nat))).
Proof.
  exact (price_filter_bounds_results (sim_drive shop) sim_elapse decimal_float int_float
           decimal_repr (extract_step [("max_price", PInt 20000)]) 0%nat
           eq_refl eq_refl).
Defined.

(** X15, with a script that cannot be evaluated. *)
Lemma extraction_without_script :
  res (_handle_extract_products (with_outage no_script shop) sim_elapse decimal_float
         int_float decimal_repr (extract_step []) 0%nat) = Ok [] /\
  events_of (log (_handle_extract_products (with_outage no_script shop) sim_elapse
                    decimal_float int_float decimal_repr (extract_step []) 0%nat)) =
    [Action "extract_products"
       ("Extracting top " +:+
        py_str decimal_repr (get_or (extract_step []) "count" (PInt 3)) +:+ " results...") NoExtra;
     extraction_error (Exn "Error" "Execution context was destroyed") "Results"].
Proof.
  apply (failed_extraction_returns_nothing (with_outage no_script shop) sim_elapse
           decimal_float int_float decimal_repr (extract_step []) 0%nat
           (Exn "Error" "Execution context was destroyed") "Results").
  - intros s q. reflexivity.
  - intros q. reflexivity.
Defined.

(** X18, on the product page. *)
Lemma server_passes_the_shop_on :
  Server.serve (sim_drive shop) sim_elapse sim_choices sim_randint decimal_float int_float
    decimal_repr false [navigate_step; extract_step [("count", PInt 3)]] 0%nat =
  rbind (res (run shop [navigate_step; extract_step [("count", PInt 3)]] 0%nat))
        (fun results => Ok [Server.Result results (length results)]).
Proof.
  apply (Server.server_keeps_product_results (sim_drive shop) sim_elapse sim_choices
           sim_randint decimal_float int_float decimal_repr false
           [navigate_step; extract_step [("count", PInt 3)]] 0%nat).
  repeat constructor.
Defined.

(** X19, on a listing page with a price of two digits. *)
Lemma server_on_priced_venues :
  Forall (fun item =>
            exists text,
              item !! "price" = Some (PStr text) /\
              Server.keeps decimal_repr item =
              Ok (match int_of_str text with
                  | Some n => (100 <=? n)%Z
                  | None => true
                  end))
    (extracted_items
       (res (extract venues_priced (extract_step [("site", PStr "zomato")]) 0%nat))).
Proof.
  exact (Server.server_drops_cheap_listings (sim_drive venues_priced) sim_elapse
           decimal_float int_float decimal_repr (extract_step [("site", PStr "zomato")])
           0%nat eq_refl).
Defined.

(** The listing priced 50 is returned by the run and dropped by the
    server. *)
Example tea_stall_is_dropped :
  let plan := [extract_step [("site", PStr "zomato")]] in
  map (fun item => get item "name")
      (extracted_items (res (run venues_priced plan 0%nat))) =
    [PStr "Tea Stall"; PStr "Pizza One"; PStr "Pizza Two"] /\
  Server.serve (sim_drive venues_priced) sim_elapse sim_choices sim_randint decimal_float
    int_float decimal_repr false plan 0%nat =
  Ok [Server.Result
        (drop 1 (extracted_items (res (run venues_priced plan 0%nat)))) 2].
Proof. vm_compute. split; reflexivity. Qed.

(** X24, with two values for the same field. *)
Lemma both_values_are_ignored :
  fill_value sim_choices sim_randint (field "me@example.org") 0%nat =
  fill_value sim_choices sim_randint (field "someone else") 0%nat.
Proof.
  exact (given_value_is_ignored sim_choices sim_randint (field "me@example.org")
           (field "someone else") 0%nat eq_refl eq_refl eq_refl).
Defined.

(** *** Plans *)

(** The planner without a language model. *)
Definition plan_for : Planner.jdict -> result (list Planner.jval) :=
  Planner.generate_action_plan decimal_repr (fun _ => "") "" (fun _ => None).

Definition weather : Planner.jdict := [("intent", Planner.text "weather")].

Definition laptops : Planner.jdict :=
  [("intent", Planner.text "product_search"); ("site", Planner.text "Flipkart");
   ("query", Planner.text "laptop");
   ("filters", Planner.Obj [("max_price", Planner.Atom (PInt 50000))])].

Definition pizza_as_product : Planner.jdict :=
  [("intent", Planner.text "product_search"); ("site", Planner.text "Zomato");
   ("query", Planner.text "pizza")].

Definition compare_phones : Planner.jdict :=
  [("intent", Planner.text "comparison"); ("product_name", Planner.text "phone")].

Definition sign_up : Planner.jdict :=
  [("intent", Planner.text "form_fill"); ("url", Planner.text "https://example.org/join");
   ("form_data",
    Planner.Obj [("email", Planner.text "me@example.org");
                 ("phone", Planner.text "12345")])].

Definition pizza_nearby : Planner.jdict :=
  [("intent", Planner.text "local_discovery"); ("site", Planner.text "flipkart");
   ("location", Planner.text "Indiranagar"); ("category", Planner.text "pizza");
   ("filters", Planner.Obj [("rating_min", Planner.Atom (PFloat (Finite 4)))])].

(** X20, for the intent "weather". *)
Lemma weather_is_unsupported :
  exists step,
    plan_for weather =
      Ok [Planner.Obj
            [("action", Planner.text "unsupported");
             ("reason",
              Planner.text
                (Planner.unsupported_reason decimal_repr (fun _ => "")
                   (Planner.text "weather")))]] /\
    execute blank 1 0 [step] [] 0%nat =
      Outcome (Ok []) 0%nat
        [Emit (ActionStart (PStr "unsupported") 1 1);
         Emit (Error (PStr (Planner.unsupported_reason decimal_repr (fun _ => "")
                              (Planner.text "weather"))) false)].
Proof.
  destruct (Planner.unknown_intent_is_unsupported (sim_drive blank) sim_elapse sim_choices
              sim_randint decimal_float int_float decimal_repr (fun _ => "") ""
              (fun _ => None) weather "flipkart" [] 0%nat eq_refl)
    as (step & Hplan & _ & Hrun).
  - split; reflexivity.
  - repeat constructor.
  - exists step. split; [exact Hplan | exact Hrun].
Defined.

(** X21, for a product search with an upper price bound. *)
Lemma laptop_search_extracts_unbounded :
  exists plan,
    plan_for laptops = Ok plan /\ length plan = 6%nat /\
    Forall Planner.no_price_bounds plan.
Proof.
  eexists. split; [reflexivity|]. split; [reflexivity|].
  exact (proj1 (Planner.planned_extraction_has_no_price_bounds decimal_repr
                  (fun _ => "") "" (fun _ => None) laptops _ eq_refl eq_refl)).
Defined.

(** X22, for a product search that names zomato. *)
Lemma pizza_cannot_be_a_product :
  plan_for pizza_as_product = Raise (Planner.KeyError "product_card").
Proof.
  apply (Planner.product_search_on_zomato_raises decimal_repr (fun _ => "") ""
           (fun _ => None) pizza_as_product "Zomato" []).
  - reflexivity.
  - split; reflexivity.
  - reflexivity.
  - reflexivity.
Defined.

(** X23, for the default pair of sites. *)
Lemma phones_are_searched_on_amazon_only :
  match plan_for compare_phones with
  | Ok plan =>
      exists navs tail,
        plan = navs ++ tail /\ length navs = 2%nat /\
        Planner.comparison_tail (Planner.text "phone") (Planner.text "amazon")
          Planner.amazon_config = Ok tail
  | Raise _ => False
  end.
Proof.
  pose proof (Planner.comparison_searches_last_site_only decimal_repr (fun _ => "") ""
                (fun _ => None) compare_phones "flipkart" []
                [Planner.text "flipkart"; Planner.text "amazon"]
                eq_refl (conj eq_refl eq_refl) eq_refl eq_refl) as H.
  unfold plan_for. destruct (Planner.generate_action_plan _ _ _ _ compare_phones).
  - destruct H as (navs & last_site & cfg & tail & Hplan & Hlen & _ & Hlast & Hcfg & Htail).
    injection Hlast as <-. injection Hcfg as <-.
    exists navs, tail. by repeat split.
  - destruct H as [[Hnil _] | [(s & Hs & Hraise) | (s & Hlast & Hcfg & _)]].
    + discriminate Hnil.
    + apply elem_of_cons in Hs as [-> | Hs]; [discriminate Hraise|].
      apply list_elem_of_singleton in Hs. subst s. discriminate Hraise.
    + injection Hlast as <-. discriminate Hcfg.
Defined.

(** X25, for a form with an email and a phone. *)
Lemma sign_up_values_are_made_up :
  plan_for sign_up =
    Ok ([Planner.navigate_step (Planner.text "https://example.org/join")] ++
        map Planner.field_step
          [("email", Planner.text "me@example.org"); ("phone", Planner.text "12345")] ++
        [Planner.submit_step]) /\
  exists step,
    Planner.step_of (Planner.field_step ("email", Planner.Atom (PStr "me@example.org"))) =
      Some step /\
    fill_value sim_choices sim_randint step 0%nat =
      generated_value sim_choices sim_randint "email" 0%nat.
Proof.
  destruct (Planner.form_values_are_made_up sim_choices sim_randint decimal_repr
              (fun _ => "") "" (fun _ => None) sign_up "flipkart" []
              [("email", Planner.text "me@example.org"); ("phone", Planner.text "12345")]
              eq_refl (conj eq_refl eq_refl) eq_refl eq_refl) as [Hplan Hsteps].
  split; [exact Hplan|].
  destruct (Hsteps "email" (PStr "me@example.org")) as (step & Hstep & Hvalue).
  exists step. split; [exact Hstep | exact (Hvalue 0%nat)].
Defined.

(** X26, for an intent that names flipkart. *)
Lemma pizza_nearby_goes_to_zomato :
  exists middle extract step,
    plan_for pizza_nearby =
      Ok (Planner.navigate_step (Planner.text "https://www.zomato.com")
          :: middle ++ [extract]) /\
    Planner.step_of extract = Some step /\
    is_zomato (site_of step) = true /\
    get step "min_rating" = PFloat (Finite 4).
Proof.
  destruct (Planner.local_discovery_goes_to_zomato decimal_repr (fun _ => "") ""
              (fun _ => None) pizza_nearby "flipkart"
              [("rating_min", Planner.Atom (PFloat (Finite 4)))]
              (PInt 3) (PFloat (Finite 4))
              eq_refl (conj eq_refl eq_refl) eq_refl eq_refl eq_refl)
    as (middle & extract & step & Hplan & Hstep & _ & Hsite & _ & Hrating & _).
  exists middle, extract, step. by repeat split.
Defined.

End Scenarios.
